(** * nanomechat preprocessing: segmentation, conversion and eval split

    A shallow embedding of

    - [preprocessing/process/core.py]: [is_in_sleep_hours],
      [ask_llm_about_continuation], [chunk_by_llm], [chunk_to_chatml],
      [process_cleaned_file], and the summary by persona of [main];
    - [preprocessing/process/combine.py]: [combine_personas];
    - [preprocessing/evaluations/create_eval_datasets.py]: [_iter_jsonl],
      [_write_jsonl], [discover_persona_files], [split_eval],
      [build_eval_datasets].

    Python text is modelled as strings of bytes; [strip], [upper] and
    [lower] are those of ASCII, and follow Python on the text for which
    [Py.isascii] holds.  A file is given by its lines or by what [json.load]
    makes of it: opening and decoding it are outside the model, and so is a
    write that fails.  Logging and printing have no influence on any result
    and are left out. *)

From Stdlib Require Import ZArith QArith List String Ascii SpecFloat Lia.
From Stdlib.Strings Require Import Byte.
From Stdlib Require OrderedTypeEx.
From stdpp Require Import base tactics option list gmap strings pretty sorting.

Local Open Scope string_scope.
Local Open Scope list_scope.
Local Open Scope Z_scope.

(** ** Exceptions, and a state-and-exception monad

    A Python function that may raise and that acts on some mutable object
    (the HTTP endpoint, a random generator) is a function from the state of
    that object to an outcome and a new state. *)

Inductive exn : Set :=
| ValueError | TypeError | IndexError | AttributeError | OverflowError
| JSONDecodeError | RequestException | FileNotFoundError.
(* Each constructor stands for an exception of exactly this class, not of a
   subclass of it: [ValueError] is not [JSONDecodeError]. [RequestException]
   stands for whatever [requests.post] raises. *)

Inductive outcome (A : Type) : Type :=
| Returns (a : A)
| Raises (e : exn).
Arguments Returns {A} a.
Arguments Raises {A} e.

Definition M (S A : Type) : Type := S -> outcome A * S.

Definition ret {S A} (a : A) : M S A := fun s => (Returns a, s).
Definition raise {S A} (e : exn) : M S A := fun s => (Raises e, s).
Definition bind {S A B} (m : M S A) (k : A -> M S B) : M S B :=
  fun s => match m s with
           | (Returns a, s') => k a s'
           | (Raises e, s') => (Raises e, s')
           end.
(** [try: m except Exception: h] *)
Definition try_except {S A} (m : M S A) (h : exn -> M S A) : M S A :=
  fun s => match m s with
           | (Returns a, s') => (Returns a, s')
           | (Raises e, s') => h e s'
           end.
(** A computation that leaves the state alone. *)
Definition lift {S A} (o : outcome A) : M S A := fun s => (o, s).
(** A value that is there, or else the exception [e]. *)
Definition or_raise {S A} (e : exn) (o : option A) : M S A :=
  match o with Some a => ret a | None => raise e end.

Declare Scope py_scope.
Delimit Scope py_scope with py.
Notation "x <~ m ;; k" := (bind m (fun x => k))
  (at level 20, m at level 99, k at level 200, only parsing) : py_scope.
Notation "' p <~ m ;; k" := (bind m (fun x => let 'p := x in k))
  (at level 20, p pattern, m at level 99, k at level 200, only parsing) : py_scope.
Local Open Scope py_scope.

(** [for x in xs: st = body(st, x)] *)
Fixpoint for_each {S A X} (body : A -> X -> M S A) (xs : list X) (st : A) : M S A :=
  match xs with
  | [] => ret st
  | x :: xs' => st' <~ body st x ;; for_each body xs' st'
  end.

(** ** Python built-ins used by the two modules *)

Module Py.

Definition nl : string := String (ascii_of_nat 10) EmptyString.
Definition dquote : string := String (ascii_of_nat 34) EmptyString.

(** [c.isspace()] on ASCII: tab, LF, VT, FF, CR, FS, GS, RS, US, space. *)
Definition isspace (c : ascii) : bool :=
  let n := nat_of_ascii c in
  ((9 <=? n) && (n <=? 13) || (28 <=? n) && (n <=? 32))%nat.

Fixpoint lstrip (s : string) : string :=
  match s with
  | String c s' => if isspace c then lstrip s' else s
  | EmptyString => EmptyString
  end.

Fixpoint rstrip (s : string) : string :=
  match s with
  | String c s' =>
      match rstrip s' with
      | EmptyString => if isspace c then EmptyString else String c EmptyString
      | r => String c r
      end
  | EmptyString => EmptyString
  end.

(** [s.strip()], of the white space of ASCII *)
Definition strip (s : string) : string := rstrip (lstrip s).

Definition upper_char (c : ascii) : ascii :=
  let n := nat_of_ascii c in
  if ((97 <=? n) && (n <=? 122))%nat then ascii_of_nat (n - 32) else c.

(** [s.upper()], on the letters of ASCII *)
Fixpoint upper (s : string) : string :=
  match s with
  | String c s' => String (upper_char c) (upper s')
  | EmptyString => EmptyString
  end.

(** [needle in hay] on strings *)
Fixpoint str_in (needle hay : string) : bool :=
  String.prefix needle hay ||
  match hay with
  | String _ hay' => str_in needle hay'
  | EmptyString => false
  end.

(** [sep.join(parts)] *)
Definition join (sep : string) (parts : list string) : string :=
  String.concat sep parts.

(** [l[-n:]] for [n > 0] *)
Definition last_n {A} (n : nat) (l : list A) : list A :=
  drop (length l - n) l.

(** [l[:d]]: a negative bound counts from the end. *)
Definition slice_to {A} (d : Z) (l : list A) : list A :=
  if 0 <=? d then take (Z.to_nat d) l
  else take (Z.to_nat (Z.of_nat (length l) + d)) l.

(** [s.isascii()]: on such text [strip], [upper] and [lower] below are
    Python's, and the text is its own UTF-8 encoding. *)
Definition isascii (s : string) : bool :=
  forallb (fun c => (nat_of_ascii c <? 128)%nat) (list_ascii_of_string s).

Definition lower_char (c : ascii) : ascii :=
  let n := nat_of_ascii c in
  if ((65 <=? n) && (n <=? 90))%nat then ascii_of_nat (n + 32) else c.

(** [s.lower()], on the letters of ASCII *)
Fixpoint lower (s : string) : string :=
  match s with
  | String c s' => String (lower_char c) (lower s')
  | EmptyString => EmptyString
  end.

(** [l.sort(key=key)]: the sort is stable, so that among the orderings of [l]
    by [key] it gives the one that keeps elements of equal keys in the order
    they had.  [le] is the order of the keys. *)
Fixpoint insert_by {A K} (le : K -> K -> bool) (key : A -> K) (x : A) (l : list A)
  : list A :=
  match l with
  | [] => [x]
  | y :: l' => if le (key x) (key y) then x :: l else y :: insert_by le key x l'
  end.

Definition sort_by {A K} (le : K -> K -> bool) (key : A -> K) (l : list A) : list A :=
  fold_right (insert_by le key) [] l.

(** The order of tuples of two strings. *)
Definition pair_leb (a b : string * string) : bool :=
  if decide (a.1 = b.1) then String.leb a.2 b.2 else String.leb a.1 b.1.

End Py.

(** ** [datetime]

    The fields of a [datetime.datetime]; [utcoffset] is [None] for a naive
    value and the offset from UTC in microseconds for an aware one. *)

Record datetime : Set := mk_datetime {
  year : Z; month : Z; day : Z;
  hour : Z; minute : Z; second : Z; microsecond : Z;
  utcoffset : option Z
}.

Definition is_leap (y : Z) : bool :=
  (y mod 4 =? 0) && (negb (y mod 100 =? 0) || (y mod 400 =? 0)).

Definition days_before_year (y : Z) : Z :=
  let y' := y - 1 in y' * 365 + y' / 4 - y' / 100 + y' / 400.

Definition days_in_month (y m : Z) : Z :=
  if m =? 2 then (if is_leap y then 29 else 28)
  else if (m =? 4) || (m =? 6) || (m =? 9) || (m =? 11) then 30 else 31.

Definition days_before_month (y m : Z) : Z :=
  fold_right Z.add 0 (map (fun k => days_in_month y (Z.of_nat k)) (seq 1 (Z.to_nat (m - 1)))).

Definition toordinal (d : datetime) : Z :=
  days_before_year (year d) + days_before_month (year d) (month d) + day d.

(** [a - b] as a [timedelta], held as a number of microseconds. *)
Definition datetime_sub (a b : datetime) : option Z :=
  let secs d := second d + minute d * 60 + hour d * 3600 in
  let base := ((toordinal a - toordinal b) * 86400 + (secs a - secs b)) * 1000000
              + (microsecond a - microsecond b) in
  match utcoffset a, utcoffset b with
  | None, None => Some base
  | Some oa, Some ob => Some (base + ob - oa)
  | _, _ => None
  end.

(** [td.total_seconds()].  Python computes a binary64 quotient; the
    comparisons below are against 15 and 240 minutes, where the quotient of a
    whole number of microseconds never rounds across the bound, so the exact
    rational decides the same way. *)
Definition total_seconds (td : Z) : Q := td # 1000000.

Definition Qltb (x y : Q) : bool := negb (Qle_bool y x).

(** ** Data of [process/core.py] *)

(** One entry of a cleaned chat file, a dict with the keys [timestamp],
    [sender] and [message]. *)
Record Message : Set := mk_Message {
  timestamp : string;
  sender : string;
  message : string
}.

(** One entry of [merged_messages]: [{"role", "content"}]. *)
Record Turn : Set := mk_Turn {
  role : string;
  content : string
}.

(** The dict [chunk_to_chatml] returns. *)
Record ChatML : Set := mk_ChatML {
  rec_messages : list Turn;
  rec_persona : string;
  timestamp_start : string;
  timestamp_end : string
}.

(** A decoded JSON document; a number is held as an integer, which is all
    that is asked of it here. *)
#[warnings="-register-all"] Inductive json : Set :=
| JNull
| JBool (b : bool)
| JNumber (z : Z)
| JString (s : string)
| JArray (items : list json)
| JObject (fields : list (string * json)).

(** The arguments of one [requests.post] call that vary: the URL, and the
    model and the single user message of the JSON payload. *)
Record post_call : Set := mk_post_call {
  post_url : string;
  post_model : string;
  post_content : string
}.

(** What [requests.post] gives back.  [resp_json] is [None] when the body is
    not JSON, so that [response.json()] raises. *)
Record http_response : Set := mk_http_response {
  status_code : Z;
  resp_json : option json
}.

Inductive http_result : Set :=
| PostRaises                       (* connection error, timeout, ... *)
| PostResponds (r : http_response).

(** The endpoint as seen by one run: the calls made so far, oldest first. *)
Definition World : Set := list post_call.

(** *** A parser for the timestamps the cleaner writes

    [clean.py] writes [timestamp.isoformat()] of a naive [datetime] without
    microseconds, [YYYY-MM-DDTHH:MM:SS].  [fromisoformat_cleaned] reads that
    one layout; it is the instance used to run the segmentation on concrete
    inputs. *)

Definition digit (c : ascii) : option Z :=
  let n := nat_of_ascii c in
  if ((48 <=? n) && (n <=? 57))%nat then Some (Z.of_nat (n - 48)) else None.

Fixpoint number (acc : Z) (cs : list ascii) : option Z :=
  match cs with
  | [] => Some acc
  | c :: cs' => d ← digit c; number (acc * 10 + d) cs'
  end.

Definition fromisoformat_cleaned (s : string) : option datetime :=
  match list_ascii_of_string s with
  | [y1; y2; y3; y4; "-"%char; m1; m2; "-"%char; d1; d2; "T"%char;
     h1; h2; ":"%char; n1; n2; ":"%char; s1; s2] =>
      y ← number 0 [y1; y2; y3; y4];
      m ← number 0 [m1; m2];
      d ← number 0 [d1; d2];
      h ← number 0 [h1; h2];
      n ← number 0 [n1; n2];
      sec ← number 0 [s1; s2];
      if (1 <=? y) && (1 <=? m) && (m <=? 12) && (1 <=? d) && (d <=? days_in_month y m)
         && (h <=? 23) && (n <=? 59) && (sec <=? 59)
      then Some (mk_datetime y m d h n sec 0 None)
      else None
  | _ => None
  end.

(** Endpoints for concrete runs: one that always gives the same result. *)
Definition post_always (r : http_result) : World -> post_call -> http_result :=
  fun _ _ => r.

Definition answer_body (text : string) : json :=
  JObject [("message", JObject [("role", JString "assistant"); ("content", JString text)])].

Definition ok_response (text : string) : http_result :=
  PostResponds (mk_http_response 200 (Some (answer_body text))).

(** ** [process/core.py] *)

Definition AUTO_GROUP_MINUTES : Z := 15.
Definition LLM_QUERY_MIN_MINUTES : Z := 15.
Definition LLM_QUERY_MAX_MINUTES : Z := 240.
Definition SLEEP_START_HOUR : Z := 0.
Definition SLEEP_END_HOUR : Z := 10.
Definition YOUR_NAME : string := "Festus".

Definition is_in_sleep_hours (dt : datetime) : bool :=
  (SLEEP_START_HOUR <=? hour dt) && (hour dt <? SLEEP_END_HOUR).

(** [d.get(key, default)]: [d] has to be a dict. *)
Fixpoint assoc (key : string) (fields : list (string * json)) : option json :=
  match fields with
  | [] => None
  | (k, v) :: rest => if decide (k = key) then Some v else assoc key rest
  end.

Definition dict_get {S} (d : json) (key : string) (default : json) : M S json :=
  match d with
  | JObject fields => ret (from_option id default (assoc key fields))
  | _ => raise AttributeError
  end.

(** [v.strip()]: [v] has to be a str. *)
Definition str_strip {S} (v : json) : M S string :=
  match v with
  | JString s => ret (Py.strip s)
  | _ => raise AttributeError
  end.


(** ** Data of [evaluations/create_eval_datasets.py] *)

(** Python floats are IEEE 754 binary64 values. *)
Definition float : Set := spec_float.
Definition prec : Z := 53.
Definition emax : Z := 1024.

(** [float(n)] for an int [n], and the product of two floats. *)
Definition float_of_int (n : Z) : float := binary_normalize prec emax n 0 false.
Definition float_mul (x y : float) : float := SFmul prec emax x y.

(** The float written [0.1]: 7205759403792794 / 2^56. *)
Definition float_0_1 : float := S754_finite false 7205759403792794 (-56).

Record EvalSplitConfig : Set := mk_EvalSplitConfig {
  input_dir : string;
  output_dir : string;
  train_dir : string;
  seed : Z;
  eval_ratio : float;
  min_eval_per_persona : Z;
  max_eval_per_persona : option Z
}.

(** The per-persona entry of the run summary. *)
Record PersonaSummary : Set := mk_PersonaSummary {
  sum_persona : string;
  sum_total : nat;
  sum_eval : nat;
  sum_remaining : nat;
  lora_eval_path : string;
  lora_train_path : string
}.

Record Summary : Set := mk_Summary {
  sum_config : EvalSplitConfig;
  sum_personas : list PersonaSummary;
  sft_eval_total : nat;
  sft_eval_path : string;
  sft_train_total : nat;
  sft_train_path : string
}.

(** What a run does to the file system, in the order it does it. *)
Inductive fs_op : Set :=
| WriteJsonl (path : string) (rows : list json)
| Mkdir (path : string)
| WriteMeta (path : string) (summary : Summary).

(** [a / b] on POSIX paths, for [a] the text of a path and [b] a name: the
    text of the empty path is a dot, which a name takes the place of, and
    only a root ends in a slash. *)
Definition path_join (a b : string) : string :=
  if decide (a = ".") then b
  else if decide (a = "/" \/ a = "//") then a +:+ b
  else a +:+ "/" +:+ b.

(** [int.from_bytes(bs, "big")] *)
Definition int_from_bytes_big (bs : list Byte.byte) : Z :=
  fold_left (fun acc b => acc * 256 + Z.of_N (Byte.to_N b)) bs 0.

(** [round(x)] for a float [x]: the nearest integer, ties to the even one. *)
Definition round_half_even (m : positive) (e : Z) : Z :=
  if 0 <=? e then Z.pos m * 2 ^ e
  else
    let d := 2 ^ (- e) in
    let q := Z.pos m / d in
    let r := Z.pos m mod d in
    match 2 * r ?= d with
    | Lt => q
    | Gt => q + 1
    | Eq => if Z.even q then q else q + 1
    end.

Definition round (x : float) : outcome Z :=
  match x with
  | S754_zero _ => Returns 0
  | S754_finite s m e => Returns (if s then - round_half_even m e else round_half_even m e)
  | S754_infinity _ => Raises OverflowError
  | S754_nan => Raises ValueError
  end.

(** *** A generator, a digest and a decoder for concrete runs

    A linear congruential generator in the place of the Mersenne Twister, a
    digest that repeats the length of its input in the place of SHA-256, and a
    decoder that reads every line as a JSON string. *)
Definition lcg_Random (seed : Z) : Z := seed mod 2147483648.
Definition lcg_randbelow (s : Z) (n : nat) : nat * Z :=
  let s' := (s * 1103515245 + 12345) mod 2147483648 in
  (Z.to_nat (s' mod Z.of_nat n), s').
Definition toy_digest (data : string) : list Byte.byte :=
  replicate 32 (byte_of_ascii (ascii_of_nat (String.length data))).
Definition toy_loads (line : string) : option json := Some (JString line).

(** *** Inputs for concrete runs *)

Definition ada_0900 : Message := mk_Message "2024-03-10T09:00:00" "Ada" "good morning".
Definition ada_1345 : Message := mk_Message "2024-03-10T13:45:00" "Ada" "are you coming tonight?".
Definition ada_134459 : Message := mk_Message "2024-03-10T13:44:59" "Ada" "hello?".
Definition ada_1355 : Message := mk_Message "2024-03-10T13:55:00" "Ada" "let me know".
Definition ada_2200 : Message := mk_Message "2024-03-09T22:00:00" "Ada" "good night".
Definition festus_0300 : Message := mk_Message "2024-03-10T03:00:00" "Festus" "still awake?".
Definition festus_1355 : Message := mk_Message "2024-03-10T13:55:00" "Festus" "one moment".
Definition festus_1400 : Message := mk_Message "2024-03-10T14:00:00" "Festus" "yes, around eight".

Definition ada_1405 : Message := mk_Message "2024-03-10T14:05:00" "Ada" "shall I bring something?".
Definition festus_1410 : Message := mk_Message "2024-03-10T14:10:00" "Festus" "just yourself".

Definition test_endpoint : string := "http://localhost:11434/api/chat".
Definition test_model : string := "llama3:8b".

Definition default_cfg : EvalSplitConfig :=
  mk_EvalSplitConfig "chats_processed" "chats_evals" "chats_train" 42 float_0_1 25 None.

Definition capped_cfg : EvalSplitConfig :=
  mk_EvalSplitConfig "processed" "evals" "train" 42 float_0_1 2 (Some 5).

Definition persona_listing : list (string * list string) :=
  [("brother", ["b1"; "b2"; ""; "b3"]); ("conversations", ["c1"]); ("sister", ["s1"; " s2 "])].

(** A serialisation for concrete runs: a JSON string is written as its text,
    and a record as its persona, a bar and its first timestamp. *)
Definition toy_dumps (row : json) : string :=
  match row with JString s => s | _ => "null" end.

Definition toy_dumps_conv (conv : ChatML) : string :=
  rec_persona conv +:+ "|" +:+ timestamp_start conv.

Fixpoint split_bar (acc : string) (s : string) : string * string :=
  match s with
  | EmptyString => (acc, EmptyString)
  | String c s' => if Ascii.eqb c "|"%char then (acc, s')
                   else split_bar (acc +:+ String c EmptyString) s'
  end.

Definition toy_loads_conv (line : string) : option ChatML :=
  let '(who, start) := split_bar "" (Py.strip line) in
  Some (mk_ChatML [] who start start).

Definition sister_conv : ChatML := mk_ChatML [] "sister" "2024-03-10T14:05:00" "2024-03-10T14:05:00".
Definition sister_late : ChatML := mk_ChatML [] "sister" "2024-03-11T09:00:00" "2024-03-11T09:00:00".
Definition brother_conv : ChatML := mk_ChatML [] "brother" "2024-03-12T10:00:00" "2024-03-12T10:00:00".

Definition afternoon : list Message :=
  [festus_1410; ada_1345; ada_1405; festus_1400; ada_1355].

Definition numbered_rows (n : nat) : list json :=
  map (fun k => JNumber (Z.of_nat k)) (seq 0 n).

(** A digest whose bytes differ from one another, a configuration that sends
    one row of a small file to the eval subset, the same with other
    directories, and a directory with one persona more. *)
Definition ramp_digest (data : string) : list Byte.byte :=
  map (fun k => byte_of_ascii (ascii_of_nat k)) (seq (String.length data) 32).

Definition small_cfg : EvalSplitConfig :=
  mk_EvalSplitConfig "processed" "evals" "train" 42 float_0_1 1 None.

Definition moved_cfg : EvalSplitConfig :=
  mk_EvalSplitConfig "processed" "elsewhere/evals" "elsewhere/train" 42 float_0_1 1 None.

Definition wider_listing : list (string * list string) :=
  ("aunt", ["a1"; "a2"; "a3"; "a4"]) :: persona_listing.

(** A decoder that refuses one line, a directory with such a line, and a
    directory with the combined file only. *)
Definition strict_loads (line : string) : option json :=
  if decide (line = "bad") then None else Some (JString line).

Definition broken_listing : list (string * list string) :=
  [("brother", ["b1"; "b2"]); ("sister", ["s1"; "bad"]); ("uncle", ["u1"])].

Definition combined_only : list (string * list string) :=
  [("conversations", ["c1"])].

(** Four messages five minutes apart, and a message whose timestamp does not
    parse. *)
Definition within_minutes : list Message :=
  [ada_1355; festus_1400; ada_1405; festus_1410].

Definition garbled : Message := mk_Message "yesterday" "Ada" "are you there?".

(** The messages of two days, out of order. *)
Definition ada_next_1100 : Message :=
  mk_Message "2024-03-11T11:00:00" "Ada" "thank you for last night".
Definition festus_next_1105 : Message :=
  mk_Message "2024-03-11T11:05:00" "Festus" "any time".

Definition two_days : list Message :=
  [festus_next_1105; festus_1410; ada_1345; ada_1405; ada_next_1100; festus_1400; ada_1355].

(** The files of two personas, as [process_cleaned_file] leaves them. *)
Definition brother_file : string * list string :=
  ("brother", [toy_dumps_conv brother_conv +:+ Py.nl]).

Definition sister_file : string * list string :=
  ("sister", [toy_dumps_conv sister_late +:+ Py.nl; toy_dumps_conv sister_conv +:+ Py.nl]).

(** A decoder of records that refuses one line, and a file with this line. *)
Definition strict_loads_conv (line : string) : option ChatML :=
  if decide (line = "bad") then None else toy_loads_conv line.

Definition uncle_file : string * list string := ("uncle", ["bad"]).

Section Preprocessing.

Set Default Proof Using "Type".

(** [datetime.fromisoformat]; [None] stands for its [ValueError]. *)
Variable fromisoformat : string -> option datetime.
(** [requests.post] against the endpoint: the result of a call, given the
    calls made before it. *)
Variable requests_post : World -> post_call -> http_result.
(** Read from the environment when the module is loaded. *)
Variables LLM_ENDPOINT LLM_MODEL : string.

(** One [requests.post]; the call counts as made whether it comes back or
    raises. *)
Definition post (call : post_call) : M World http_response :=
  fun w => match requests_post w call with
           | PostRaises => (Raises RequestException, w ++ [call])
           | PostResponds r => (Returns r, w ++ [call])
           end.

(** ["User" if msg["sender"] == conversation_so_far[0]["sender"] else "Assistant"] *)
Definition prompt_sender (conversation_so_far : list Message) (msg : Message)
  : M World string :=
  first <~ or_raise IndexError (conversation_so_far !! 0%nat) ;;
  ret (if decide (sender msg = sender first) then "User" else "Assistant").

Definition context_line (conversation_so_far : list Message)
    (context : string) (msg : Message) : M World string :=
  who <~ prompt_sender conversation_so_far msg ;;
  ret (context +:+ "[" +:+ timestamp msg +:+ "] " +:+ who +:+ ": "
               +:+ message msg +:+ Py.nl).

Definition build_prompt (conversation_so_far : list Message) (new_message : Message)
  : M World string :=
  context <~ for_each (context_line conversation_so_far)
               (Py.last_n 10 conversation_so_far)
               ("Previous conversation:" +:+ Py.nl) ;;
  let context := context +:+ Py.nl +:+ "New message at [" +:+ timestamp new_message
                         +:+ "]:" +:+ Py.nl in
  who <~ prompt_sender conversation_so_far new_message ;;
  let context := context +:+ who +:+ ": " +:+ message new_message +:+ Py.nl in
  ret (context +:+ Py.nl
       +:+ "Does this new message continue the same conversation, or does it start a new topic/conversation?"
       +:+ Py.nl
       +:+ "Answer with only " +:+ Py.dquote +:+ "YES" +:+ Py.dquote
       +:+ " or " +:+ Py.dquote +:+ "NO" +:+ Py.dquote +:+ ".").

Definition ask_llm_about_continuation
    (conversation_so_far : list Message) (new_message : Message) : M World bool :=
  try_except
    (prompt <~ build_prompt conversation_so_far new_message ;;
     response <~ post (mk_post_call LLM_ENDPOINT LLM_MODEL prompt) ;;
     if status_code response =? 200 then
       result <~ or_raise JSONDecodeError (resp_json response) ;;
       msg <~ dict_get result "message" (JObject []) ;;
       text <~ dict_get msg "content" (JString "") ;;
       stripped <~ str_strip text ;;
       let answer := Py.upper stripped in
       ret (Py.str_in "YES" answer)
     else
       ret false)
    (fun _ => ret false).

(** The body of [for i in range(1, len(messages))], on the loop state
    [(chunks, current_chunk)]. *)
Definition chunk_step (messages : list Message)
    (st : list (list Message) * list Message) (i : nat)
  : M World (list (list Message) * list Message) :=
  let '(chunks, current_chunk) := st in
  prev_msg <~ or_raise IndexError (messages !! (i - 1)%nat) ;;
  curr_msg <~ or_raise IndexError (messages !! i) ;;
  prev_time <~ or_raise ValueError (fromisoformat (timestamp prev_msg)) ;;
  curr_time <~ or_raise ValueError (fromisoformat (timestamp curr_msg)) ;;
  time_diff <~ or_raise TypeError (datetime_sub curr_time prev_time) ;;
  let time_diff_minutes := (total_seconds time_diff / inject_Z 60)%Q in
  should_continue <~
    (if Qltb time_diff_minutes (inject_Z AUTO_GROUP_MINUTES) then
       ret true
     else if Qle_bool time_diff_minutes (inject_Z LLM_QUERY_MAX_MINUTES) then
       ask_llm_about_continuation current_chunk curr_msg
     else if is_in_sleep_hours curr_time then
       ask_llm_about_continuation current_chunk curr_msg
     else
       ret false) ;;
  if should_continue : bool then
    ret (chunks, current_chunk ++ [curr_msg])
  else
    ret (chunks ++ [current_chunk], [curr_msg]).

Definition chunk_by_llm (messages : list Message) : M World (list (list Message)) :=
  match messages with
  | [] => ret []
  | first :: _ =>
      if (length messages <? 2)%nat then ret [messages]
      else
        '(chunks, current_chunk) <~
          for_each (chunk_step messages) (seq 1 (length messages - 1)) ([], [first]) ;;
        ret (match current_chunk with
             | [] => chunks
             | _ :: _ => chunks ++ [current_chunk]
             end)
  end.


(** The role [chunk_to_chatml] gives a message. *)
Definition role_of (msg : Message) : string :=
  if decide (sender msg = YOUR_NAME) then "assistant" else "user".

(** [for i, msg in enumerate(chunk): if msg["sender"] != YOUR_NAME: ... break],
    counting from [i]; [None] is the loop's [else] branch. *)
Fixpoint find_start (i : nat) (chunk : list Message) : option nat :=
  match chunk with
  | [] => None
  | msg :: rest =>
      if decide (sender msg <> YOUR_NAME) then Some i else find_start (S i) rest
  end.

(** The state of the merge loop. *)
Record merge_state : Set := mk_merge_state {
  merged_messages : list Turn;
  current_role : option string;
  current_content : list string
}.

Definition flush (st : merge_state) : list Turn :=
  match current_role st with
  | Some r => merged_messages st ++ [mk_Turn r (Py.join Py.nl (current_content st))]
  | None => merged_messages st
  end.

Definition merge_step (st : merge_state) (msg : Message) : merge_state :=
  let role := role_of msg in
  if decide (Some role = current_role st) then
    mk_merge_state (merged_messages st) (current_role st)
                   (current_content st ++ [message msg])
  else
    mk_merge_state (flush st) (Some role) [message msg].

Definition merge (chunk : list Message) : list Turn :=
  flush (fold_left merge_step chunk (mk_merge_state [] None [])).

(** [None] is the rejection.  The last [None] below stands for a failing
    [chunk[0]] or [chunk[-1]], which does not occur: the slice starts at a
    message that the search has found ([chunk_to_chatml_trim]). *)
Definition chunk_to_chatml (chunk : list Message) (persona : string) : option ChatML :=
  if (length chunk <? 2)%nat then None
  else
    match find_start 0 chunk with
    | None => None
    | Some start_idx =>
        let chunk := drop start_idx chunk in
        let merged_messages := merge chunk in
        let has_assistant :=
          existsb (fun msg => bool_decide (role msg = "assistant")) merged_messages in
        if negb has_assistant then None
        else
          match head chunk, last chunk with
          | Some first, Some final =>
              Some (mk_ChatML merged_messages persona (timestamp first) (timestamp final))
          | _, _ => None
          end
    end.

(** *** [evaluations/create_eval_datasets.py] *)

(** The state of a [random.Random] object; [Random seed] is the state after
    seeding and [randbelow s n] is [_randbelow(n)] in state [s]: the number
    drawn and the state after the draw. *)
Variable rng_state : Type.
Variable Random : Z -> rng_state.
Variable randbelow : rng_state -> nat -> nat * rng_state.
Hypothesis randbelow_lt : forall s n, (0 < n)%nat -> (fst (randbelow s n) < n)%nat.
(** [hashlib.sha256(data).digest()] on the UTF-8 encoding of [data]. *)
Variable sha256 : string -> list Byte.byte.
(** [json.loads]; [None] stands for its [JSONDecodeError]. *)
Variable json_loads : string -> option json.

(** [x[i], x[j] = x[j], x[i]] *)
Definition swap {A} (x : list A) (i j : nat) : M rng_state (list A) :=
  xj <~ or_raise IndexError (x !! j) ;;
  xi <~ or_raise IndexError (x !! i) ;;
  ret (<[j := xi]> (<[i := xj]> x)).

(** [random.Random.shuffle]:
    [for i in reversed(range(1, len(x))): j = randbelow(i + 1); swap] *)
Definition shuffle_step {A} (x : list A) (i : nat) : M rng_state (list A) :=
  j <~ (fun s => let '(j, s') := randbelow s (i + 1) in (Returns j, s')) ;;
  swap x i j.

Definition shuffle {A} (x : list A) : M rng_state (list A) :=
  for_each shuffle_step (reverse (seq 1 (length x - 1))) x.

(** What [build_eval_datasets] acts on: its top-level generator [rng] and
    the file system. *)
Record run_state : Type := mk_run_state {
  rng : rng_state;
  fs_log : list fs_op
}.

(** A method call on the top-level generator. *)
Definition on_rng {A} (m : M rng_state A) : M run_state A :=
  fun st => let '(r, g) := m (rng st) in (r, mk_run_state g (fs_log st)).

(** A call that hands over a generator nothing refers to afterwards. *)
Definition on_local_rng {A} (g : rng_state) (m : M rng_state A) : M run_state A :=
  fun st => (fst (m g), st).

Definition fs_do (op : fs_op) : M run_state unit :=
  fun st => (Returns tt, mk_run_state (rng st) (fs_log st ++ [op])).

(** [_iter_jsonl], on the lines of the file: the file is open, and its
    bytes have been decoded. *)
Definition iter_jsonl_step {S} (rows : list json) (line : string) : M S (list json) :=
  let line := Py.strip line in
  if decide (line = "") then ret rows
  else row <~ or_raise JSONDecodeError (json_loads line) ;; ret (rows ++ [row]).

Definition iter_jsonl {S} (lines : list string) : M S (list json) :=
  for_each iter_jsonl_step lines [].

Definition write_jsonl (path : string) (rows : list json) : M run_state unit :=
  fs_do (WriteJsonl path rows).

(** [d[key] = value] on a dict held in insertion order. *)
Fixpoint dict_set {V} (d : list (string * V)) (key : string) (value : V)
  : list (string * V) :=
  match d with
  | [] => [(key, value)]
  | (k, v) :: d' =>
      if decide (k = key) then (k, value) :: d' else (k, v) :: dict_set d' key value
  end.

(** [discover_persona_files], on the [*.jsonl] files of the directory in
    sorted order, each given by its stem and its lines. *)
Definition discover_persona_files (listing : list (string * list string))
  : list (string * list string) :=
  fold_left (fun persona_files p =>
               if decide (fst p = "conversations") then persona_files
               else dict_set persona_files (fst p) (snd p))
            listing [].

(** The size of the eval subset: lines 56 to 60 of [split_eval]. *)
Definition desired_eval (n : nat) (cfg : EvalSplitConfig) : M rng_state Z :=
  desired <~ lift (round (float_mul (float_of_int (Z.of_nat n)) (eval_ratio cfg))) ;;
  let desired := Z.max desired (min_eval_per_persona cfg) in
  let desired := Z.min desired (Z.of_nat n) in
  let desired :=
    match max_eval_per_persona cfg with
    | Some mx => Z.min desired mx
    | None => desired
    end in
  ret desired.

(** [[rows[i] for i in range(len(rows)) if keep(i)]] *)
Definition select (rows : list json) (keep : nat -> bool) : list json :=
  omap (fun i => if keep i then rows !! i else None) (seq 0 (length rows)).

Definition split_eval (rows : list json) (cfg : EvalSplitConfig)
  : M rng_state (list json * list json) :=
  match rows with
  | [] => ret ([], [])
  | _ :: _ =>
      let indices := seq 0 (length rows) in
      indices <~ shuffle indices ;;
      desired <~ desired_eval (length rows) cfg ;;
      let eval_idx : gset nat := list_to_set (Py.slice_to desired indices) in
      let eval_rows := select rows (fun i => bool_decide (i ∈ eval_idx)) in
      let remaining_rows := select rows (fun i => bool_decide (i ∉ eval_idx)) in
      ret (eval_rows, remaining_rows)
  end.

(** [int.from_bytes(hashlib.sha256(f"{seed}:{persona}".encode()).digest()[:8], "big")] *)
Definition persona_seed (seed : Z) (persona : string) : Z :=
  let seed_material := pretty seed +:+ ":" +:+ persona in
  int_from_bytes_big (take 8 (sha256 seed_material)).

(** The lists and the summary [build_eval_datasets] accumulates. *)
Record build_state : Set := mk_build_state {
  sft_eval_all : list json;
  sft_train_all : list json;
  personas : list PersonaSummary
}.

(** The body of [for persona, path in persona_files.items()]. *)
Definition persona_step (cfg : EvalSplitConfig) (st : build_state)
    (file : string * list string) : M run_state build_state :=
  let '(persona, lines) := file in
  rows <~ iter_jsonl lines ;;
  let persona_rng := Random (persona_seed (seed cfg) persona) in
  '(eval_rows, remaining_rows) <~ on_local_rng persona_rng (split_eval rows cfg) ;;
  let lora_out := path_join (path_join (output_dir cfg) "lora") (persona +:+ ".jsonl") in
  _ <~ write_jsonl lora_out eval_rows ;;
  let lora_train_out :=
    path_join (path_join (train_dir cfg) "lora") (persona +:+ ".jsonl") in
  _ <~ write_jsonl lora_train_out remaining_rows ;;
  ret (mk_build_state
         (sft_eval_all st ++ eval_rows)
         (sft_train_all st ++ remaining_rows)
         (personas st ++ [mk_PersonaSummary persona (length rows) (length eval_rows)
                            (length remaining_rows) lora_out lora_train_out])).

Definition build_body (cfg : EvalSplitConfig) (listing : list (string * list string))
  : M run_state Summary :=
  let persona_files := discover_persona_files listing in
  match persona_files with
  | [] => raise FileNotFoundError
  | _ :: _ =>
      st <~ for_each (persona_step cfg) persona_files (mk_build_state [] [] []) ;;
      let sft_out :=
        path_join (path_join (output_dir cfg) "sft") "conversations_eval.jsonl" in
      sft_eval_all <~ on_rng (shuffle (sft_eval_all st)) ;;
      _ <~ write_jsonl sft_out sft_eval_all ;;
      let sft_train_out :=
        path_join (path_join (train_dir cfg) "sft") "conversations_train.jsonl" in
      sft_train_all <~ on_rng (shuffle (sft_train_all st)) ;;
      _ <~ write_jsonl sft_train_out sft_train_all ;;
      _ <~ fs_do (Mkdir (path_join (output_dir cfg) "vlm")) ;;
      _ <~ fs_do (Mkdir (path_join (output_dir cfg) "grpo")) ;;
      _ <~ fs_do (Mkdir (path_join (train_dir cfg) "vlm")) ;;
      _ <~ fs_do (Mkdir (path_join (train_dir cfg) "grpo")) ;;
      let summary := mk_Summary cfg (personas st)
                       (length sft_eval_all) sft_out
                       (length sft_train_all) sft_train_out in
      _ <~ fs_do (WriteMeta (path_join (output_dir cfg) "meta.json") summary) ;;
      ret summary
  end.

(** [build_eval_datasets(cfg)], on the file system: [rng = random.Random(cfg.seed)]
    lives for the call. *)
Definition build_eval_datasets (cfg : EvalSplitConfig)
    (listing : list (string * list string)) : M (list fs_op) Summary :=
  fun log =>
    let '(r, st) := build_body cfg listing (mk_run_state (Random (seed cfg)) log) in
    (r, fs_log st).

(** [json.dumps(row, ensure_ascii=False)] *)
Variable json_dumps : json -> string.

(** The lines [_write_jsonl] writes for [rows]. *)
Definition jsonl_lines (rows : list json) : list string :=
  map (fun row => json_dumps row +:+ Py.nl) rows.

(** *** [process/core.py]: a persona file, from the cleaned messages to the
    records *)

Definition TEST_MESSAGE_LIMIT : nat := 200.

(** What [process_cleaned_file] acts on: the endpoint, and the files of
    [PROCESSED_DIR], each write with the name of the file and the records it
    holds. *)
Record proc_state : Set := mk_proc_state {
  endpoint : World;
  processed : list (string * list ChatML)
}.

Definition on_endpoint {A} (m : M World A) : M proc_state A :=
  fun st => let '(r, w) := m (endpoint st) in (r, mk_proc_state w (processed st)).

Definition write_records (name : string) (records : list ChatML) : M proc_state unit :=
  fun st => (Returns tt, mk_proc_state (endpoint st) (processed st ++ [(name, records)])).

(** [process_cleaned_file], on the stem of the file and the messages
    [json.load] gives; [TEST_MODE] is the module's flag. *)
Definition process_cleaned_file (TEST_MODE : bool) (stem : string)
    (messages : list Message) : M proc_state (list ChatML) :=
  let persona := Py.lower stem in
  match messages with
  | [] => ret []
  | _ :: _ =>
      let messages := if TEST_MODE then take TEST_MESSAGE_LIMIT messages else messages in
      let messages := Py.sort_by String.leb timestamp messages in
      chunks <~ on_endpoint (chunk_by_llm messages) ;;
      let chatml_conversations :=
        omap (fun chunk => chunk_to_chatml chunk persona) chunks in
      _ <~ write_records (persona +:+ ".jsonl") chatml_conversations ;;
      ret chatml_conversations
  end.

(** [d.get(key)] on a dict held in insertion order. *)
Fixpoint dict_lookup {V} (d : list (string * V)) (key : string) : option V :=
  match d with
  | [] => None
  | (k, v) :: d' => if decide (k = key) then Some v else dict_lookup d' key
  end.

(** The summary of [main] and of [combine_personas]:
    [personas[persona] = personas.get(persona, 0) + 1] for each record. *)
Definition count_step (personas : list (string * nat)) (conv : ChatML)
  : list (string * nat) :=
  let persona := rec_persona conv in
  dict_set personas persona (default 0%nat (dict_lookup personas persona) + 1)%nat.

Definition summary_counts (convs : list ChatML) : list (string * nat) :=
  fold_left count_step convs [].

(** *** [process/combine.py] *)

(** [json.loads] and [json.dumps] on the lines of a persona file; [None]
    stands for a line that does not hold a record.  [combine_personas]
    below raises [JSONDecodeError] for such a line: it follows the code on
    files in which every line that is JSON is a record. *)
Variable loads_conv : string -> option ChatML.
Variable dumps_conv : ChatML -> string.

(** The lines a file of records holds. *)
Definition conv_lines (convs : list ChatML) : list string :=
  map (fun conv => dumps_conv conv +:+ Py.nl) convs.

(** [for line in f: if line.strip(): all_conversations.append(json.loads(line))] *)
Definition read_conv_step {S} (all_conversations : list ChatML) (line : string)
  : M S (list ChatML) :=
  if decide (Py.strip line = "") then ret all_conversations
  else conv <~ or_raise JSONDecodeError (loads_conv line) ;;
       ret (all_conversations ++ [conv]).

Definition read_file_step {S} (all_conversations : list ChatML)
    (file : string * list string) : M S (list ChatML) :=
  for_each read_conv_step (snd file) all_conversations.

(** [combine_personas], on the [*.jsonl] files of [PROCESSED_DIR] in sorted
    order; the state is the list of writes to [PROCESSED_DIR]. *)
Definition combine_personas (listing : list (string * list string))
  : M (list (string * list ChatML)) unit :=
  match listing with
  | [] => ret tt
  | _ :: _ =>
      all_conversations <~ for_each read_file_step listing [] ;;
      match all_conversations with
      | [] => ret tt
      | _ :: _ =>
          let all_conversations :=
            Py.sort_by Py.pair_leb (fun c => (rec_persona c, timestamp_start c))
                       all_conversations in
          fun files => (Returns tt, files ++ [("conversations.jsonl", all_conversations)])
      end
  end.

(** *** Notions the statements below are phrased with *)

(** Every timestamp parses, and all of them are naive or all of them aware:
    the subtraction of any two of them is defined. *)
Definition well_timed (messages : list Message) : Prop :=
  exists aware : bool,
    Forall (fun m => exists dt, fromisoformat (timestamp m) = Some dt
                                /\ (is_Some (utcoffset dt) <-> aware = true))
           messages.

(** The gap between two parsed timestamps, in minutes. *)
Definition gap_minutes (td : Z) : Q := (total_seconds td / inject_Z 60)%Q.

(** The label the prompt gives [msg] in a conversation that [first] opens. *)
Definition label_of (first msg : Message) : string :=
  if decide (sender msg = sender first) then "User" else "Assistant".

(** The prompt, written out: a header, one line per context message, the
    candidate, and the question. *)
Definition render_line (first msg : Message) : string :=
  "[" +:+ timestamp msg +:+ "] " +:+ label_of first msg +:+ ": "
      +:+ message msg +:+ Py.nl.

Definition render_prompt (first : Message) (shown : list Message)
    (new_message : Message) : string :=
  let context :=
    fold_left (fun acc msg => acc +:+ render_line first msg) shown
              ("Previous conversation:" +:+ Py.nl) in
  let context := context +:+ Py.nl +:+ "New message at [" +:+ timestamp new_message
                         +:+ "]:" +:+ Py.nl in
  let context := context +:+ label_of first new_message +:+ ": "
                         +:+ message new_message +:+ Py.nl in
  context +:+ Py.nl
  +:+ "Does this new message continue the same conversation, or does it start a new topic/conversation?"
  +:+ Py.nl
  +:+ "Answer with only " +:+ Py.dquote +:+ "YES" +:+ Py.dquote
  +:+ " or " +:+ Py.dquote +:+ "NO" +:+ Py.dquote +:+ ".".

(** The state of the world after one more call with the prompt for
    [conversation_so_far] and [new_message]. *)
Definition consulted (w : World) (first : Message) (conversation_so_far : list Message)
    (new_message : Message) : World :=
  w ++ [mk_post_call LLM_ENDPOINT LLM_MODEL
          (render_prompt first (Py.last_n 10 conversation_so_far) new_message)].

(** The converter, in the words of the specification: the leading run of
    self-sent messages is dropped, and each maximal run of messages of one
    role becomes one turn. *)
Fixpoint trim (chunk : list Message) : list Message :=
  match chunk with
  | [] => []
  | msg :: rest => if decide (sender msg = YOUR_NAME) then trim rest else chunk
  end.

Fixpoint runs (chunk : list Message) : list (list Message) :=
  match chunk with
  | [] => []
  | msg :: rest =>
      match runs rest with
      | (next :: run) :: others =>
          if decide (role_of msg = role_of next)
          then (msg :: next :: run) :: others
          else [msg] :: (next :: run) :: others
      | others => [msg] :: others
      end
  end.

Definition run_role (run : list Message) : string :=
  from_option role_of "" (head run).

Definition turn_of (run : list Message) : Turn :=
  mk_Turn (run_role run) (Py.join Py.nl (map message run)).

(** Every run is of one role, and neighbouring runs are of different roles. *)
Definition uniform (run : list Message) : Prop :=
  run <> [] /\ Forall (fun msg => role_of msg = run_role run) run.

Definition alternating (rs : list (list Message)) : Prop :=
  forall i r1 r2, rs !! i = Some r1 -> rs !! S i = Some r2 -> run_role r1 <> run_role r2.

(** The rows of [rows] at the positions that satisfy [P], in the order of
    [rows]. *)
Definition rows_at (rows : list json) (P : nat -> Prop) `{!forall i, Decision (P i)}
  : list json :=
  (filter (fun p => P p.1) (zip (seq 0 (length rows)) rows)).*2.

(** The value the three clamps of [split_eval] leave of [r]. *)
Definition clamped (r : Z) (n : nat) (cfg : EvalSplitConfig) : Z :=
  let lowered := Z.min (Z.max r (min_eval_per_persona cfg)) (Z.of_nat n) in
  match max_eval_per_persona cfg with
  | Some mx => Z.min lowered mx
  | None => lowered
  end.

(** The row lists a run has written, in the order of the writes. *)
Definition written (log : list fs_op) : list (list json) :=
  omap (fun op => match op with WriteJsonl _ rows => Some rows | _ => None end) log.

(** Two configurations that agree on all the split looks at. *)
Definition same_split_settings (cfg1 cfg2 : EvalSplitConfig) : Prop :=
  seed cfg1 = seed cfg2 /\ eval_ratio cfg1 = eval_ratio cfg2
  /\ min_eval_per_persona cfg1 = min_eval_per_persona cfg2
  /\ max_eval_per_persona cfg1 = max_eval_per_persona cfg2.

(** The rows of a persona file, and the eval and train rows of the persona:
    from the lines of the file, the name of the persona and the
    configuration, and nothing else. *)
Definition persona_rows (lines : list string) : outcome (list json) :=
  fst (iter_jsonl lines tt).

Definition persona_partition (cfg : EvalSplitConfig) (persona : string)
    (lines : list string) : outcome (list json * list json) :=
  match persona_rows lines with
  | Returns rows => fst (split_eval rows cfg (Random (persona_seed (seed cfg) persona)))
  | Raises e => Raises e
  end.

Definition lora_eval_file (cfg : EvalSplitConfig) (persona : string) : string :=
  path_join (path_join (output_dir cfg) "lora") (persona +:+ ".jsonl").

Definition lora_train_file (cfg : EvalSplitConfig) (persona : string) : string :=
  path_join (path_join (train_dir cfg) "lora") (persona +:+ ".jsonl").

(** Two runs end alike: in states that [Rs] relates, both with a result,
    and [Ra] relates the results, or both with the same exception. *)
Definition related {S1 S2 A1 A2} (Rs : S1 -> S2 -> Prop) (Ra : A1 -> A2 -> Prop)
    (r1 : outcome A1 * S1) (r2 : outcome A2 * S2) : Prop :=
  Rs r1.2 r2.2
  /\ match r1.1, r2.1 with
     | Returns a1, Returns a2 => Ra a1 a2
     | Raises e1, Raises e2 => e1 = e2
     | _, _ => False
     end.

(** The logs of two runs that started from [log1] and [log2] and have
    written the same row lists since. *)
Definition same_writes (log1 log2 out1 out2 : list fs_op) : Prop :=
  exists new1 new2,
    out1 = log1 ++ new1 /\ out2 = log2 ++ new2 /\ written new1 = written new2.

(** The same for the states of two runs, whose generators are in one
    state. *)
Definition run_alike (log1 log2 : list fs_op) (rs1 rs2 : run_state) : Prop :=
  rng rs1 = rng rs2 /\ same_writes log1 log2 (fs_log rs1) (fs_log rs2).

Definition pools_alike (st1 st2 : build_state) : Prop :=
  sft_eval_all st1 = sft_eval_all st2 /\ sft_train_all st1 = sft_train_all st2.

Definition totals_alike (s1 s2 : Summary) : Prop :=
  sft_eval_total s1 = sft_eval_total s2 /\ sft_train_total s1 = sft_train_total s2.


(** What a run writes for a persona whose eval and train rows are [part],
    and what it writes after the last persona. *)
Definition partition_writes (cfg : EvalSplitConfig) (persona : string)
    (part : list json * list json) : list fs_op :=
  [WriteJsonl (lora_eval_file cfg persona) part.1;
   WriteJsonl (lora_train_file cfg persona) part.2].

Definition sft_eval_file (cfg : EvalSplitConfig) : string :=
  path_join (path_join (output_dir cfg) "sft") "conversations_eval.jsonl".

Definition sft_train_file (cfg : EvalSplitConfig) : string :=
  path_join (path_join (train_dir cfg) "sft") "conversations_train.jsonl".

Definition closing_writes (cfg : EvalSplitConfig) (sft_eval sft_train : list json)
    (summary : Summary) : list fs_op :=
  [WriteJsonl (sft_eval_file cfg) sft_eval;
   WriteJsonl (sft_train_file cfg) sft_train;
   Mkdir (path_join (output_dir cfg) "vlm");
   Mkdir (path_join (output_dir cfg) "grpo");
   Mkdir (path_join (train_dir cfg) "vlm");
   Mkdir (path_join (train_dir cfg) "grpo");
   WriteMeta (path_join (output_dir cfg) "meta.json") summary].

(** [file] is read and split into [part]. *)
Definition partitioned (cfg : EvalSplitConfig) (file : string * list string)
    (part : list json * list json) : Prop :=
  persona_partition cfg file.1 file.2 = Returns part.

(** The entry of the summary for a persona split into [part]. *)
Definition summary_entry (cfg : EvalSplitConfig) (file : string * list string)
    (part : list json * list json) : PersonaSummary :=
  mk_PersonaSummary file.1 (length part.1 + length part.2) (length part.1)
                    (length part.2) (lora_eval_file cfg file.1)
                    (lora_train_file cfg file.1).

(** The gap from [p] to [c], when the two timestamps parse and can be
    subtracted; two messages are far apart from a gap of 15 minutes on. *)
Definition gap_between (p c : Message) : option Z :=
  match fromisoformat (timestamp p), fromisoformat (timestamp c) with
  | Some tp, Some tc => datetime_sub tc tp
  | _, _ => None
  end.

Definition far_apart (p c : Message) : bool :=
  match gap_between p c with
  | Some td => negb (Qltb (gap_minutes td) (inject_Z 15))
  | None => false
  end.

Definition close_in_time (p c : Message) : Prop :=
  exists td, gap_between p c = Some td /\ (gap_minutes td < inject_Z 15)%Q.

(** The cut of a message list at every two neighbours that are far apart. *)
Fixpoint time_split (messages : list Message) : list (list Message) :=
  match messages with
  | [] => []
  | p :: rest =>
      match time_split rest with
      | (c :: chunk) :: others =>
          if far_apart p c then [p] :: (c :: chunk) :: others
          else (p :: c :: chunk) :: others
      | others => [p] :: others
      end
  end.

(** The endpoint is out of reach, or answers with an error status. *)
Definition endpoint_down : Prop :=
  forall w call,
    match requests_post w call with
    | PostRaises => True
    | PostResponds r => status_code r <> 200
    end.

(** The records a file of [PROCESSED_DIR] holds: what [json.loads] makes of
    its lines, those of white space apart. *)
Definition file_records (lines : list string) : option (list ChatML) :=
  mapM loads_conv (filter (fun line => Py.strip line <> "") lines).

(** The records of one persona among [convs]. *)
Definition of_persona (persona : string) (convs : list ChatML) : list ChatML :=
  filter (fun conv => rec_persona conv = persona) convs.

(** ** Proofs *)

(** *** The monad and its loop *)

Lemma bind_returns {S A B} (m : M S A) (k : A -> M S B) s a s' :
  m s = (Returns a, s') -> bind m k s = k a s'.
Proof. intros H. unfold bind. by rewrite H. Qed.

Lemma bind_inv {S A B} (m : M S A) (k : A -> M S B) s b s2 :
  bind m k s = (Returns b, s2) ->
  exists a s1, m s = (Returns a, s1) /\ k a s1 = (Returns b, s2).
Proof.
  unfold bind. destruct (m s) as [[a|e] s1]; intros H; [eauto | discriminate].
Qed.

Lemma or_raise_inv {S A} e (o : option A) (s s' : S) a :
  or_raise e o s = (Returns a, s') -> o = Some a /\ s' = s.
Proof. destruct o; cbv; intros H; by simplify_eq. Qed.

(** A loop establishes what each of its rounds maintains; [done] is the
    part of the list gone through so far. *)
Lemma for_each_ind {S A X} (body : A -> X -> M S A) (P : list X -> A -> S -> Prop)
    (xs : list X) :
  (forall done x rest st s st' s',
      xs = done ++ x :: rest -> P done st s ->
      body st x s = (Returns st', s') -> P (done ++ [x]) st' s') ->
  forall st s st' s',
    P [] st s -> for_each body xs st s = (Returns st', s') -> P xs st' s'.
Proof.
  intros Hstep.
  assert (Hgen : forall todo done st s st' s',
             xs = done ++ todo -> P done st s ->
             for_each body todo st s = (Returns st', s') -> P xs st' s').
  { induction todo as [|x todo IH]; intros done st s st' s' Hxs HP Hrun.
    - cbv in Hrun. simplify_eq. by rewrite app_nil_r.
    - simpl in Hrun. apply bind_inv in Hrun as (st1 & s1 & Hb & Hrun).
      apply (IH (done ++ [x]) st1 s1); [by rewrite <- app_assoc | | done].
      by eapply Hstep. }
  intros st s st' s' HP Hrun. by eapply (Hgen xs []).
Qed.

(** The same for a loop all of whose rounds return. *)
Lemma for_each_total {S A X} (body : A -> X -> M S A) (P : list X -> A -> S -> Prop)
    (xs : list X) :
  (forall done x rest st s,
      xs = done ++ x :: rest -> P done st s ->
      exists st' s', body st x s = (Returns st', s') /\ P (done ++ [x]) st' s') ->
  forall st s,
    P [] st s -> exists st' s', for_each body xs st s = (Returns st', s') /\ P xs st' s'.
Proof.
  intros Hstep.
  assert (Hgen : forall todo done st s,
             xs = done ++ todo -> P done st s ->
             exists st' s', for_each body todo st s = (Returns st', s') /\ P xs st' s').
  { induction todo as [|x todo IH]; intros done st s Hxs HP.
    - exists st, s. split; [done | by rewrite Hxs, app_nil_r].
    - destruct (Hstep done x todo st s Hxs HP) as (st1 & s1 & Hb & HP1).
      destruct (IH (done ++ [x]) st1 s1) as (st' & s' & Hrun & HP');
        [by rewrite <- app_assoc | done |].
      exists st', s'. split; [| done]. simpl. by rewrite (bind_returns _ _ _ _ _ Hb). }
  intros st s HP. by eapply (Hgen xs []).
Qed.

(** *** Strings *)

Lemma append_cons c (s t : string) : String c s +:+ t = String c (s +:+ t).
Proof. reflexivity. Qed.



Lemma append_assoc (a b c : string) : (a +:+ b) +:+ c = a +:+ (b +:+ c).
Proof. induction a as [|x a IH]; [done|]. by rewrite !append_cons, IH. Qed.











(** *** The oracle *)

Lemma prompt_sender_cons first rest msg w :
  prompt_sender (first :: rest) msg w = (Returns (label_of first msg), w).
Proof. reflexivity. Qed.

Lemma context_lines first rest shown acc w :
  for_each (context_line (first :: rest)) shown acc w
  = (Returns (fold_left (fun acc msg => acc +:+ render_line first msg) shown acc), w).
Proof.
  revert acc. induction shown as [|msg shown IH]; intros acc; [done|].
  simpl. unfold bind at 1. unfold context_line at 1.
  unfold bind at 1. rewrite prompt_sender_cons. apply IH.
Qed.

Lemma build_prompt_cons first rest new_message w :
  build_prompt (first :: rest) new_message w
  = (Returns (render_prompt first (Py.last_n 10 (first :: rest)) new_message), w).
Proof.
  unfold build_prompt. unfold bind at 1. rewrite context_lines.
  unfold bind at 1. by rewrite prompt_sender_cons.
Qed.

Lemma build_prompt_nil new_message w :
  build_prompt [] new_message w = (Raises IndexError, w).
Proof. reflexivity. Qed.

(** [ask_llm_about_continuation] returns, whatever the endpoint does. *)
Lemma ask_returns conversation_so_far new_message w :
  exists b w', ask_llm_about_continuation conversation_so_far new_message w
               = (Returns b, w').
Proof.
  unfold ask_llm_about_continuation, try_except.
  match goal with |- context [match ?m w with _ => _ end] => destruct (m w) as [[b|e] w'] end;
    eauto.
Qed.

(** On a conversation that is not empty it makes exactly one call. *)
Lemma ask_consults first rest new_message w :
  exists b, ask_llm_about_continuation (first :: rest) new_message w
            = (Returns b, consulted w first (first :: rest) new_message).
Proof.
  unfold ask_llm_about_continuation, try_except, consulted.
  unfold bind at 1. rewrite build_prompt_cons.
  unfold bind at 1, post.
  destruct (requests_post w _) as [|[status body]]; [by eexists|]. simpl.
  destruct (status =? 200); [|by eexists].
  destruct body as [[| | | | |fields]|]; try by eexists.
  unfold bind, or_raise, ret, dict_get. simpl.
  destruct (from_option id (JObject []) (assoc "message" fields))
    as [| | | | |mf]; try by eexists.
  simpl.
  destruct (from_option id (JString "") (assoc "content" mf)); by eexists.
Qed.

(** *** The segmentation loop *)

Lemma Qltb_lt (x y : Q) : Qltb x y = true <-> (x < y)%Q.
Proof.
  unfold Qltb. rewrite negb_true_iff, <- not_true_iff_false, Qle_bool_iff.
  split; [apply Qnot_le_lt | apply Qlt_not_le].
Qed.

Lemma Qltb_ge (x y : Q) : Qltb x y = false <-> (y <= x)%Q.
Proof. unfold Qltb. by rewrite negb_false_iff, Qle_bool_iff. Qed.

Lemma Qle_bool_gt (x y : Q) : Qle_bool x y = false <-> (y < x)%Q.
Proof.
  rewrite <- not_true_iff_false, Qle_bool_iff.
  split; [apply Qnot_le_lt | apply Qlt_not_le].
Qed.

Lemma is_in_sleep_hours_spec dt :
  is_in_sleep_hours dt = true <-> 0 <= hour dt < 10.
Proof.
  unfold is_in_sleep_hours, SLEEP_START_HOUR, SLEEP_END_HOUR.
  rewrite andb_true_iff, Z.leb_le, Z.ltb_lt. lia.
Qed.

(** The three tiers of one round, on a round whose two timestamps parse. *)
Lemma chunk_step_tiers messages i p c tp tc td chunks current_chunk w :
  messages !! (i - 1)%nat = Some p -> messages !! i = Some c ->
  fromisoformat (timestamp p) = Some tp -> fromisoformat (timestamp c) = Some tc ->
  datetime_sub tc tp = Some td ->
  chunk_step messages (chunks, current_chunk) i w
  = bind (if Qltb (gap_minutes td) (inject_Z 15) then ret true
          else if Qle_bool (gap_minutes td) (inject_Z 240)
               then ask_llm_about_continuation current_chunk c
               else if is_in_sleep_hours tc
                    then ask_llm_about_continuation current_chunk c
                    else ret false)
         (fun should_continue : bool =>
            if should_continue then ret (chunks, current_chunk ++ [c])
            else ret (chunks ++ [current_chunk], [c])) w.
Proof.
  intros Hp Hc Htp Htc Htd. unfold chunk_step.
  unfold bind at 1. rewrite Hp. simpl.
  unfold bind at 1. rewrite Hc. simpl.
  unfold bind at 1. rewrite Htp. simpl.
  unfold bind at 1. rewrite Htc. simpl.
  unfold bind at 1. rewrite Htd. simpl. reflexivity.
Qed.

(** A round that returns has put the message at [i] at the end of the
    current chunk, or has closed the current chunk and opened one with it. *)
Lemma chunk_step_shape messages chunks current_chunk i w chunks' current' w' :
  chunk_step messages (chunks, current_chunk) i w = (Returns (chunks', current'), w') ->
  exists c, messages !! i = Some c
            /\ ((chunks' = chunks /\ current' = current_chunk ++ [c])
                \/ (chunks' = chunks ++ [current_chunk] /\ current' = [c])).
Proof.
  unfold chunk_step. intros H.
  apply bind_inv in H as (p & w1 & Hp & H). apply or_raise_inv in Hp as [Hp ->].
  apply bind_inv in H as (c & w1 & Hc & H). apply or_raise_inv in Hc as [Hc ->].
  apply bind_inv in H as (tp & w1 & Htp & H). apply or_raise_inv in Htp as [Htp ->].
  apply bind_inv in H as (tc & w1 & Htc & H). apply or_raise_inv in Htc as [Htc ->].
  apply bind_inv in H as (td & w1 & Htd & H). apply or_raise_inv in Htd as [Htd ->].
  apply bind_inv in H as (yes & w1 & _ & H).
  exists c. split; [done|].
  destruct yes; cbv [ret] in H; simplify_eq; eauto.
Qed.

Lemma chunk_step_returns messages i p c tp tc td chunks current_chunk w :
  messages !! (i - 1)%nat = Some p -> messages !! i = Some c ->
  fromisoformat (timestamp p) = Some tp -> fromisoformat (timestamp c) = Some tc ->
  datetime_sub tc tp = Some td ->
  exists st' w', chunk_step messages (chunks, current_chunk) i w = (Returns st', w').
Proof.
  intros Hp Hc Htp Htc Htd.
  rewrite (chunk_step_tiers _ _ _ _ _ _ _ _ _ _ Hp Hc Htp Htc Htd).
  destruct (ask_returns current_chunk c w) as (b & w' & Hask).
  unfold bind.
  destruct (Qltb _ _); [by eexists _, _|].
  destruct (Qle_bool _ _); [rewrite Hask; destruct b; by eexists _, _|].
  destruct (is_in_sleep_hours _); [rewrite Hask; destruct b; by eexists _, _|].
  by eexists _, _.
Qed.

Lemma well_timed_sub messages p c :
  well_timed messages -> p ∈ messages -> c ∈ messages ->
  exists tp tc td, fromisoformat (timestamp p) = Some tp
                   /\ fromisoformat (timestamp c) = Some tc
                   /\ datetime_sub tc tp = Some td.
Proof.
  intros [aware Hall] Hp Hc. rewrite Forall_forall in Hall.
  destruct (Hall p Hp) as (tp & Htp & Hap). destruct (Hall c Hc) as (tc & Htc & Hac).
  exists tp, tc. unfold datetime_sub.
  destruct (utcoffset tc) as [oc|] eqn:Eoc, (utcoffset tp) as [op|] eqn:Eop; eauto.
  - exfalso. destruct aware; [destruct (proj2 Hap eq_refl); discriminate|].
    destruct Hac as [Hac _]. by discriminate Hac.
  - exfalso. destruct aware; [destruct (proj2 Hac eq_refl); discriminate|].
    destruct Hap as [Hap _]. by discriminate Hap.
Qed.

Lemma seq_split_nth (a n : nat) (done rest : list nat) (x : nat) :
  seq a n = done ++ x :: rest -> x = (a + length done)%nat /\ (length done < n)%nat.
Proof.
  intros H. apply lookup_seq. rewrite H.
  by rewrite lookup_app_r, Nat.sub_diag by lia.
Qed.

(** The loop of [chunk_by_llm], when it returns, has cut [messages] into
    chunks none of which is empty. *)
Lemma chunk_loop_partition first rest chunks current_chunk w w' :
  let messages := first :: rest in
  for_each (chunk_step messages) (seq 1 (length messages - 1)) ([], [first]) w
  = (Returns (chunks, current_chunk), w') ->
  concat chunks ++ current_chunk = messages
  /\ current_chunk <> [] /\ Forall (fun chunk => chunk <> []) chunks.
Proof.
  intros messages Hrun.
  assert (Hhead : take 1 messages = [first]) by done.
  assert (Hlen : (1 <= length messages)%nat) by (simpl; lia).
  clearbody messages.
  pose (P := fun (done : list nat) (st : list (list Message) * list Message) (_ : World) =>
               concat st.1 ++ st.2 = take (1 + length done) messages
               /\ st.2 <> [] /\ Forall (fun chunk => chunk <> []) st.1).
  assert (HP : P (seq 1 (length messages - 1)) (chunks, current_chunk) w').
  { eapply (for_each_ind (chunk_step messages) P); [| | exact Hrun].
    - intros done x todo [cs cur] s [cs' cur'] s' Hxs (Hcat & Hne & Hall) Hstep.
      apply seq_split_nth in Hxs as [-> _].
      apply chunk_step_shape in Hstep as (c & Hc & [[-> ->] | [-> ->]]);
        unfold P; cbn [fst snd] in *; rewrite length_app; cbn [length];
        replace (1 + (length done + 1))%nat with (S (1 + length done)) by lia;
        rewrite (take_S_r _ _ _ Hc), <- Hcat.
      + split; [by rewrite app_assoc|]. split; [|done].
        intros Heq. by apply app_eq_nil in Heq as [_ ?].
      + split; [by rewrite concat_app, <- !app_assoc; simpl; rewrite app_nil_r|].
        split; [done|]. apply Forall_app. split; [done|]. by constructor.
    - unfold P. simpl. by rewrite Hhead. }
  destruct HP as (Hcat & Hne & Hall). cbn [fst snd] in *. split; [|done].
  rewrite Hcat, length_seq. rewrite take_ge; [done|]. lia.
Qed.

Lemma chunk_by_llm_partial messages w chunks w' :
  chunk_by_llm messages w = (Returns chunks, w') ->
  concat chunks = messages /\ Forall (fun chunk => chunk <> []) chunks.
Proof.
  destruct messages as [|first rest]; [intros H; cbv in H; by simplify_eq|].
  unfold chunk_by_llm.
  destruct (length (first :: rest) <? 2)%nat eqn:Hlen.
  - intros H. cbv [ret] in H. simplify_eq. simpl. rewrite app_nil_r.
    split; [done|]. by repeat constructor.
  - intros H. apply bind_inv in H as ([cs cur] & w1 & Hloop & H).
    apply chunk_loop_partition in Hloop as (Hcat & Hne & Hall).
    destruct cur as [|m cur]; [done|]. cbv [ret] in H. simplify_eq.
    split; [by rewrite concat_app; simpl; rewrite app_nil_r|].
    apply Forall_app. split; [done|]. by constructor.
Qed.

Lemma chunk_by_llm_returns messages w :
  well_timed messages -> exists chunks w', chunk_by_llm messages w = (Returns chunks, w').
Proof.
  intros Hwt. destruct messages as [|first rest]; [by eexists _, _|].
  unfold chunk_by_llm.
  destruct (length (first :: rest) <? 2)%nat eqn:Hlen; [by eexists _, _|].
  destruct (for_each_total (chunk_step (first :: rest)) (fun _ _ _ => True)
              (seq 1 (length (first :: rest) - 1))) with (st := ([] : list (list Message), [first])) (s := w)
    as ([cs cur] & w1 & Hloop & _); [|done|].
  - intros done x todo [cs cur] s Hxs _.
    apply seq_split_nth in Hxs as [-> Hlt].
    destruct (lookup_lt_is_Some_2 (first :: rest) (1 + length done - 1)) as [p Hp];
      [simpl in *; lia|].
    destruct (lookup_lt_is_Some_2 (first :: rest) (1 + length done)) as [c Hc];
      [simpl in *; lia|].
    destruct (well_timed_sub _ p c Hwt) as (tp & tc & td & Htp & Htc & Htd);
      [by eapply list_elem_of_lookup_2 | by eapply list_elem_of_lookup_2 |].
    destruct (chunk_step_returns _ _ _ _ _ _ _ cs cur s Hp Hc Htp Htc Htd)
      as (st' & s' & Hst).
    by exists st', s'.
  - rewrite (bind_returns _ _ _ _ _ Hloop). destruct cur; by eexists _, _.
Qed.

Lemma gap_lt (td k : Z) :
  (gap_minutes td < inject_Z k)%Q <-> td < k * 60000000.
Proof.
  cbv [gap_minutes total_seconds Qdiv Qinv Qmult Qlt inject_Z Qnum Qden]. simpl. lia.
Qed.

Lemma gap_le (td k : Z) :
  (gap_minutes td <= inject_Z k)%Q <-> td <= k * 60000000.
Proof.
  cbv [gap_minutes total_seconds Qdiv Qinv Qmult Qle inject_Z Qnum Qden]. simpl. lia.
Qed.

Lemma gap_gt (td k : Z) :
  (inject_Z k < gap_minutes td)%Q <-> k * 60000000 < td.
Proof.
  cbv [gap_minutes total_seconds Qdiv Qinv Qmult Qlt inject_Z Qnum Qden]. simpl. lia.
Qed.

Lemma gap_ge (td k : Z) :
  (inject_Z k <= gap_minutes td)%Q <-> k * 60000000 <= td.
Proof.
  cbv [gap_minutes total_seconds Qdiv Qinv Qmult Qle inject_Z Qnum Qden]. simpl. lia.
Qed.

(** On two messages the loop makes one round. *)
Lemma chunk_by_llm_pair p c w :
  chunk_by_llm [p; c] w
  = match chunk_step [p; c] ([], [p]) 1 w with
    | (Returns (chunks, current_chunk), w') =>
        (Returns (match current_chunk with
                  | [] => chunks
                  | _ :: _ => chunks ++ [current_chunk]
                  end), w')
    | (Raises e, w') => (Raises e, w')
    end.
Proof.
  unfold chunk_by_llm. cbn [length Nat.ltb Nat.leb Nat.sub seq for_each].
  unfold bind, ret.
  by destruct (chunk_step [p; c] ([], [p]) 1 w) as [[[chunks cur]|e] w'].
Qed.

(** C1. Whatever the message list and whatever the endpoint answers, the
    chunks [chunk_by_llm] returns, joined in order, are the message list, and
    none of them is empty; it does return when the timestamps parse.  No
    message gives no chunk, and one message gives the one chunk holding it,
    without a call to the endpoint. *)
Theorem chunk_by_llm_partition (messages : list Message) (w : World) :
  (forall chunks w',
      chunk_by_llm messages w = (Returns chunks, w') ->
      concat chunks = messages /\ Forall (fun chunk => chunk <> []) chunks)
  /\ (well_timed messages ->
      exists chunks w',
        chunk_by_llm messages w = (Returns chunks, w')
        /\ concat chunks = messages /\ Forall (fun chunk => chunk <> []) chunks)
  /\ (messages = [] -> chunk_by_llm messages w = (Returns [], w))
  /\ (forall m, messages = [m] -> chunk_by_llm messages w = (Returns [[m]], w)).
Proof.
  split; [intros chunks w'; apply chunk_by_llm_partial|].
  split; [|split; [by intros ->|by intros m ->]].
  intros Hwt. destruct (chunk_by_llm_returns messages w Hwt) as (chunks & w' & Hrun).
  exists chunks, w'. split; [done|]. by eapply chunk_by_llm_partial.
Qed.

(** One round of the loop on the messages [p] and [c] that follow each
    other, with the chunk [first :: rest] under way. *)
Lemma chunk_step_policy (messages : list Message) (i : nat)
    (p c : Message) (tp tc : datetime) (td : Z)
    (chunks : list (list Message)) (first : Message) (rest : list Message) (w : World) :
  messages !! (i - 1)%nat = Some p -> messages !! i = Some c ->
  fromisoformat (timestamp p) = Some tp -> fromisoformat (timestamp c) = Some tc ->
  datetime_sub tc tp = Some td ->
  let current_chunk := first :: rest in
  let gap := gap_minutes td in
  let round := chunk_step messages (chunks, current_chunk) i w in
  let continued := (chunks, current_chunk ++ [c]) in
  let split := (chunks ++ [current_chunk], [c]) in
  let asked := consulted w first current_chunk c in
  let consult :=
    exists yes : bool,
      ask_llm_about_continuation current_chunk c w = (Returns yes, asked)
      /\ round = (Returns (if yes then continued else split), asked) in
  ((gap < inject_Z 15)%Q -> round = (Returns continued, w))
  /\ ((inject_Z 15 <= gap)%Q -> (gap <= inject_Z 240)%Q -> consult)
  /\ ((inject_Z 240 < gap)%Q -> 0 <= hour tc < 10 -> consult)
  /\ ((inject_Z 240 < gap)%Q -> ~ (0 <= hour tc < 10) -> round = (Returns split, w)).
Proof.
  intros Hp Hc Htp Htc Htd current_chunk gap round continued split asked consult.
  subst gap round consult.
  rewrite (chunk_step_tiers _ _ _ _ _ _ _ _ _ _ Hp Hc Htp Htc Htd).
  destruct (ask_consults first rest c w) as [yes Hask].
  fold current_chunk in Hask. fold asked in Hask.
  assert (Hconsult :
            bind (ask_llm_about_continuation current_chunk c)
              (fun should_continue : bool =>
                 if should_continue then ret (chunks, current_chunk ++ [c])
                 else ret (chunks ++ [current_chunk], [c])) w
            = (Returns (if yes then continued else split), asked)).
  { unfold bind. rewrite Hask. by destruct yes. }
  assert (Hfar : (inject_Z 240 < gap_minutes td)%Q ->
                 Qltb (gap_minutes td) (inject_Z 15) = false
                 /\ Qle_bool (gap_minutes td) (inject_Z 240) = false).
  { intros Hgt. split; [|by apply Qle_bool_gt].
    apply Qltb_ge, Qlt_le_weak. eapply Qlt_trans; [|exact Hgt]. reflexivity. }
  split; [|split; [|split]].
  - intros Hlt. apply Qltb_lt in Hlt. by rewrite Hlt.
  - intros Hge Hle. apply Qltb_ge in Hge. apply Qle_bool_iff in Hle.
    exists yes. split; [done|]. by rewrite Hge, Hle.
  - intros Hgt Hsleep. destruct (Hfar Hgt) as [H15 H240].
    exists yes. split; [done|].
    by rewrite H15, H240, (proj2 (is_in_sleep_hours_spec tc) Hsleep).
  - intros Hgt Hawake. destruct (Hfar Hgt) as [H15 H240]. rewrite H15, H240.
    destruct (is_in_sleep_hours tc) eqn:Hs; [|done].
    by apply is_in_sleep_hours_spec in Hs.
Qed.

(** The loop over a list and one more message: the rounds on the list, and
    one round more. *)
Lemma for_each_app {S A X} (body : A -> X -> M S A) (xs ys : list X) st s :
  for_each body (xs ++ ys) st s
  = bind (for_each body xs st) (fun st' => for_each body ys st') s.
Proof.
  revert st s. induction xs as [|x xs IH]; intros st s; [done|].
  cbn [for_each app]. unfold bind.
  destruct (body st x s) as [[st1|e] s1]; [exact (IH st1 s1) | done].
Qed.

Lemma for_each_ext {S A X} (body1 body2 : A -> X -> M S A) (xs : list X) st s :
  (forall x st s, x ∈ xs -> body1 st x s = body2 st x s) ->
  for_each body1 xs st s = for_each body2 xs st s.
Proof.
  revert st s. induction xs as [|x xs IH]; intros st s Hext; [done|].
  cbn [for_each]. unfold bind. rewrite Hext by left.
  destruct (body2 st x s) as [[st1|e] s1]; [|done].
  apply IH. intros y st' s' Hy. apply Hext. by right.
Qed.

Lemma chunk_step_prefix init c st i w :
  (0 < i < length init)%nat -> chunk_step (init ++ [c]) st i w = chunk_step init st i w.
Proof.
  intros Hi. unfold chunk_step. destruct st as [chunks current_chunk].
  by rewrite !lookup_app_l by lia.
Qed.

(** What [chunk_by_llm] returns is where its loop has come to. *)
Lemma chunk_by_llm_state first rest w chunks current_chunk w1 :
  chunk_by_llm (first :: rest) w = (Returns (chunks ++ [current_chunk]), w1) ->
  for_each (chunk_step (first :: rest)) (seq 1 (length (first :: rest) - 1)) ([], [first]) w
  = (Returns (chunks, current_chunk), w1).
Proof.
  unfold chunk_by_llm. destruct (length (first :: rest) <? 2)%nat eqn:Hlen.
  - apply Nat.ltb_lt in Hlen. destruct rest; [|simpl in Hlen; lia].
    intros Hrun. cbv [ret] in Hrun. injection Hrun as Hrun <-.
    change [[first]] with ([] ++ [[first]]) in Hrun.
    apply app_inj_tail in Hrun as [<- <-]. done.
  - intros Hrun. apply bind_inv in Hrun as ([cs cur] & w' & Hloop & Hrun).
    pose proof (chunk_loop_partition first rest cs cur w w' Hloop) as (_ & Hcur & _).
    destruct cur as [|m cur]; [done|]. cbv [ret] in Hrun. injection Hrun as Hrun <-.
    apply app_inj_tail in Hrun as [<- <-]. done.
Qed.

(** One more message at the end: one more round, from where the loop has
    come to on the messages before. *)
Lemma chunk_by_llm_snoc init c w chunks current_chunk w1 :
  chunk_by_llm init w = (Returns (chunks ++ [current_chunk]), w1) ->
  chunk_by_llm (init ++ [c]) w
  = match chunk_step (init ++ [c]) (chunks, current_chunk) (length init) w1 with
    | (Returns (chunks', current'), w') =>
        (Returns (match current' with
                  | [] => chunks'
                  | _ :: _ => chunks' ++ [current']
                  end), w')
    | (Raises e, w') => (Raises e, w')
    end.
Proof.
  destruct init as [|first rest].
  { intros Hrun. cbv [chunk_by_llm ret] in Hrun. injection Hrun as Hrun _.
    by destruct chunks. }
  intros Hrun. apply chunk_by_llm_state in Hrun.
  change ((first :: rest) ++ [c]) with (first :: (rest ++ [c])).
  unfold chunk_by_llm.
  assert (Hlen : length (first :: rest ++ [c]) = S (length (first :: rest)))
    by (simpl; rewrite length_app; simpl; lia).
  rewrite Hlen.
  replace (S (length (first :: rest)) <? 2)%nat with false
    by (symmetry; apply Nat.ltb_ge; simpl; lia).
  replace (S (length (first :: rest)) - 1)%nat
    with ((length (first :: rest) - 1) + 1)%nat by (simpl; lia).
  rewrite seq_app. unfold bind at 1. rewrite for_each_app.
  replace (1 + (length (first :: rest) - 1))%nat with (length (first :: rest))
    by (simpl; lia).
  unfold bind at 1.
  rewrite (for_each_ext _ (chunk_step (first :: rest))).
  - rewrite Hrun. cbn [seq for_each]. unfold bind, ret.
    change (first :: rest ++ [c]) with ((first :: rest) ++ [c]).
    by destruct (chunk_step _ _ _ w1) as [[[cs cur]|e] w'].
  - intros i st s Hi. apply elem_of_seq in Hi.
    change (first :: rest ++ [c]) with ((first :: rest) ++ [c]).
    apply chunk_step_prefix. simpl in *. lia.
Qed.

(** C2. For two messages [p] and [c] that follow each other, [p] the last of
    [init], with the gap from [p] to [c] in microseconds: what
    [chunk_by_llm] returns on [init ++ [c]] comes from what it returns on
    [init], whose last chunk is the chunk under way, by one round more.  A
    gap below 15 minutes puts [c] into this chunk and leaves the endpoint
    alone; a gap from 15 to 240 minutes asks the endpoint once, with the
    chunk and [c], and puts [c] into the chunk exactly when the answer is
    yes; a gap above 240 minutes does the same when the hour of [c] is in
    [0, 10), and otherwise opens a chunk with [c] and leaves the endpoint
    alone.  So every two neighbours of a list are decided in this way, one
    after the other. *)
Theorem chunk_by_llm_gap_policy (init : list Message) (p c : Message)
    (tp tc : datetime) (td : Z)
    (chunks : list (list Message)) (first : Message) (rest : list Message)
    (w w1 : World) :
  last init = Some p ->
  chunk_by_llm init w = (Returns (chunks ++ [first :: rest]), w1) ->
  fromisoformat (timestamp p) = Some tp -> fromisoformat (timestamp c) = Some tc ->
  datetime_sub tc tp = Some td ->
  let minute := 60 * 1000000 in
  let current_chunk := first :: rest in
  let run := chunk_by_llm (init ++ [c]) w in
  let continued := chunks ++ [current_chunk ++ [c]] in
  let split := chunks ++ [current_chunk; [c]] in
  let asked := consulted w1 first current_chunk c in
  let consult :=
    exists yes : bool,
      ask_llm_about_continuation current_chunk c w1 = (Returns yes, asked)
      /\ run = (Returns (if yes then continued else split), asked) in
  (td < 15 * minute -> run = (Returns continued, w1))
  /\ (15 * minute <= td <= 240 * minute -> consult)
  /\ (240 * minute < td -> 0 <= hour tc < 10 -> consult)
  /\ (240 * minute < td -> ~ (0 <= hour tc < 10) -> run = (Returns split, w1)).
Proof.
  intros Hlast Hinit Htp Htc Htd minute current_chunk run continued split asked consult.
  subst run consult.
  rewrite (chunk_by_llm_snoc init c w chunks current_chunk w1 Hinit).
  assert (Hp : (init ++ [c]) !! (length init - 1)%nat = Some p).
  { rewrite last_lookup in Hlast. rewrite lookup_app_l; [|destruct init; simpl in *; [done|lia]].
    by replace (length init - 1)%nat with (pred (length init)) by lia. }
  assert (Hc : (init ++ [c]) !! length init = Some c).
  { by rewrite lookup_app_r, Nat.sub_diag by lia. }
  destruct (chunk_step_policy (init ++ [c]) (length init) p c tp tc td chunks first rest w1
              Hp Hc Htp Htc Htd) as (Hnear & Hask & Hsleep & Hawake).
  fold current_chunk in Hnear, Hask, Hsleep, Hawake.
  assert (Hcont : forall w',
             chunk_step (init ++ [c]) (chunks, current_chunk) (length init) w1
             = (Returns (chunks, current_chunk ++ [c]), w') ->
             match chunk_step (init ++ [c]) (chunks, current_chunk) (length init) w1 with
             | (Returns (chunks', current'), w'0) =>
                 (Returns (match current' with
                           | [] => chunks'
                           | _ :: _ => chunks' ++ [current']
                           end), w'0)
             | (Raises e, w'0) => (Raises e, w'0)
             end = (Returns continued, w')).
  { intros w' ->. done. }
  assert (Hsplit : forall w',
             chunk_step (init ++ [c]) (chunks, current_chunk) (length init) w1
             = (Returns (chunks ++ [current_chunk], [c]), w') ->
             match chunk_step (init ++ [c]) (chunks, current_chunk) (length init) w1 with
             | (Returns (chunks', current'), w'0) =>
                 (Returns (match current' with
                           | [] => chunks'
                           | _ :: _ => chunks' ++ [current']
                           end), w'0)
             | (Raises e, w'0) => (Raises e, w'0)
             end = (Returns split, w')).
  { intros w' ->. subst split. by rewrite <- app_assoc. }
  assert (Hyes : (exists yes : bool,
                     ask_llm_about_continuation current_chunk c w1 = (Returns yes, asked)
                     /\ chunk_step (init ++ [c]) (chunks, current_chunk) (length init) w1
                        = (Returns (if yes then (chunks, current_chunk ++ [c])
                                    else (chunks ++ [current_chunk], [c])), asked)) ->
                 exists yes : bool,
                   ask_llm_about_continuation current_chunk c w1 = (Returns yes, asked)
                   /\ match chunk_step (init ++ [c]) (chunks, current_chunk)
                              (length init) w1 with
                      | (Returns (chunks', current'), w'0) =>
                          (Returns (match current' with
                                    | [] => chunks'
                                    | _ :: _ => chunks' ++ [current']
                                    end), w'0)
                      | (Raises e, w'0) => (Raises e, w'0)
                      end = (Returns (if yes then continued else split), asked)).
  { intros (yes & Hanswer & Hround). exists yes. split; [done|].
    destruct yes; [by apply Hcont | by apply Hsplit]. }
  split; [|split; [|split]].
  - intros Hlt. apply Hcont, Hnear, gap_lt. subst minute. lia.
  - intros [Hge Hle]. apply Hyes, Hask; [apply gap_ge | apply gap_le]; subst minute; lia.
  - intros Hgt Hhour. apply Hyes, Hsleep; [apply gap_gt; subst minute; lia | done].
  - intros Hgt Hhour. apply Hsplit, Hawake; [apply gap_gt; subst minute; lia | done].
Qed.

(** C3, as the code has it. For two messages [p] and [c]: a gap of exactly 15
    minutes asks the endpoint once (a gap below 15 minutes is what keeps the
    two together without a call); a gap of 15 minutes and a second with [c]
    at 14 o'clock asks the endpoint once; a gap of 5 hours with [c] at 14
    o'clock splits without a call; a gap of 5 hours with [c] at 3 o'clock
    asks the endpoint once. *)
Theorem gap_boundaries (p c : Message) (tp tc : datetime) (td : Z) (w : World) :
  fromisoformat (timestamp p) = Some tp -> fromisoformat (timestamp c) = Some tc ->
  datetime_sub tc tp = Some td ->
  let run := chunk_by_llm [p; c] w in
  let asked := consulted w p [p] c in
  let consult :=
    exists yes : bool,
      ask_llm_about_continuation [p] c w = (Returns yes, asked)
      /\ run = (Returns (if yes then [[p; c]] else [[p]; [c]]), asked) in
  (td = 15 * 60 * 1000000 -> consult)
  /\ (td < 15 * 60 * 1000000 -> run = (Returns [[p; c]], w))
  /\ (td = (15 * 60 + 1) * 1000000 -> hour tc = 14 -> consult)
  /\ (td = 5 * 3600 * 1000000 -> hour tc = 14 -> run = (Returns [[p]; [c]], w))
  /\ (td = 5 * 3600 * 1000000 -> hour tc = 3 -> consult).
Proof.
  intros Htp Htc Htd run asked consult.
  destruct (chunk_step_policy [p; c] 1 p c tp tc td [] p [] w)
    as (Hlow & Hmid & Hsleep & Hday); try done.
  assert (Hrun : forall yes,
             chunk_step [p; c] ([], [p]) 1 w
             = (Returns (if yes : bool then ([], [p] ++ [c]) else ([] ++ [[p]], [c])), asked) ->
             run = (Returns (if yes then [[p; c]] else [[p]; [c]]), asked)).
  { intros yes H. subst run. rewrite chunk_by_llm_pair, H. by destruct yes. }
  assert (Hconsult :
            (exists yes : bool,
                ask_llm_about_continuation [p] c w = (Returns yes, asked)
                /\ chunk_step [p; c] ([], [p]) 1 w
                   = (Returns (if yes then ([], [p] ++ [c]) else ([] ++ [[p]], [c])), asked))
            -> consult).
  { intros (yes & Hask & Hstep). exists yes. split; [done|]. by apply Hrun. }
  repeat split.
  - intros ->. apply Hconsult, Hmid; [by apply gap_ge | by apply gap_le].
  - intros Hlt. subst run. rewrite chunk_by_llm_pair, Hlow; [done|].
    apply gap_lt. lia.
  - intros -> _. apply Hconsult, Hmid; [by apply gap_ge | by apply gap_le].
  - intros -> Hh. subst run. rewrite chunk_by_llm_pair, Hday; [done | by apply gap_gt | lia].
  - intros -> Hh. apply Hconsult, Hsleep; [by apply gap_gt | lia].
Qed.

Ltac ask_unfold :=
  unfold ask_llm_about_continuation, try_except;
  unfold bind at 1; rewrite build_prompt_cons;
  unfold bind at 1, post.


(** C5, as the code has it. In the prompt every context message and the
    candidate carry the label [User] when their sender is the sender of the
    first message of the chunk, and [Assistant] otherwise; the configured
    name plays no part.  The labels agree with the converter's roles when
    the chunk is opened by somebody other than [YOUR_NAME] and the message is
    sent by that somebody or by [YOUR_NAME]. *)
Theorem prompt_labels_follow_first_sender (first : Message) (rest : list Message)
    (new_message : Message) (w : World) :
  let conversation_so_far := first :: rest in
  build_prompt conversation_so_far new_message w
  = (Returns (render_prompt first (Py.last_n 10 conversation_so_far) new_message), w)
  /\ (forall msg, prompt_sender conversation_so_far msg w = (Returns (label_of first msg), w))
  /\ (forall msg, label_of first msg = "Assistant" <-> sender msg <> sender first)
  /\ (forall msg, label_of first msg = "User" <-> sender msg = sender first)
  /\ (forall msg, sender first <> YOUR_NAME ->
                  sender msg = sender first \/ sender msg = YOUR_NAME ->
                  (label_of first msg = "Assistant" <-> role_of msg = "assistant")).
Proof.
  intros conversation_so_far.
  split; [apply build_prompt_cons|]. split; [intros msg; apply prompt_sender_cons|].
  unfold label_of, role_of.
  split; [|split]; intros msg;
    destruct (decide (sender msg = sender first)) as [He|He];
    destruct (decide (sender msg = YOUR_NAME)) as [Hn|Hn];
    try (split; (done || congruence));
    intros Hf [Hs|Hs]; split; intros; (done || congruence).
Qed.

(** *** The converter *)

Lemma role_of_cases msg :
  (sender msg = YOUR_NAME /\ role_of msg = "assistant")
  \/ (sender msg <> YOUR_NAME /\ role_of msg = "user").
Proof. unfold role_of. case_decide; eauto. Qed.

Lemma role_of_assistant msg : role_of msg = "assistant" <-> sender msg = YOUR_NAME.
Proof. destruct (role_of_cases msg) as [[? ->] | [? ->]]; split; (done || congruence). Qed.

Lemma role_of_user msg : role_of msg = "user" <-> sender msg <> YOUR_NAME.
Proof. destruct (role_of_cases msg) as [[? ->] | [? ->]]; split; (done || congruence). Qed.

(** [trim] takes a leading run of self-sent messages away and stops at the
    first message of somebody else. *)
Lemma trim_spec chunk :
  exists lead, chunk = lead ++ trim chunk
               /\ Forall (fun msg => sender msg = YOUR_NAME) lead
               /\ (forall first, head (trim chunk) = Some first -> sender first <> YOUR_NAME).
Proof.
  induction chunk as [|msg chunk (lead & Heq & Hlead & Hhead)]; [by exists []|].
  simpl. case_decide as Hself.
  - exists (msg :: lead). split; [by rewrite <- app_comm_cons, <- Heq|].
    split; [by constructor | done].
  - exists []. split; [done|]. split; [done|]. intros first [= <-]. done.
Qed.

Lemma trim_nil chunk :
  trim chunk = [] <-> Forall (fun msg => sender msg = YOUR_NAME) chunk.
Proof.
  induction chunk as [|msg chunk IH]; [done|]. simpl. case_decide as Hself.
  - rewrite IH. split; [by constructor | by inversion 1].
  - split; [done | by inversion 1].
Qed.

(** The search loop finds the index at which [trim] cuts. *)
Lemma find_start_trim chunk i :
  match find_start i chunk with
  | Some start_idx =>
      (i <= start_idx)%nat /\ drop (start_idx - i) chunk = trim chunk /\ trim chunk <> []
  | None => trim chunk = []
  end.
Proof.
  revert i. induction chunk as [|msg chunk IH]; intros i; [done|]. simpl.
  destruct (decide (sender msg <> YOUR_NAME)) as [Hother | Hself].
  - rewrite decide_False by done. by rewrite Nat.sub_diag.
  - apply dec_stable in Hself. rewrite decide_True by done.
    specialize (IH (S i)). destruct (find_start (S i) chunk) as [k|]; [|done].
    destruct IH as (Hle & Hdrop & Hne). split; [lia|]. split; [|done].
    replace (k - i)%nat with (S (k - S i)) by lia. done.
Qed.

Lemma runs_cons msg rest :
  exists run others, runs (msg :: rest) = (msg :: run) :: others.
Proof.
  simpl. destruct (runs rest) as [|[|next run] others]; [by eexists _, _ ..|].
  case_decide; by eexists _, _.
Qed.

Lemma run_role_cons msg run : run_role (msg :: run) = role_of msg.
Proof. reflexivity. Qed.

(** [runs] cuts a chunk into runs of one role each, with a change of role
    between any two neighbours. *)
Lemma runs_spec chunk :
  concat (runs chunk) = chunk /\ Forall uniform (runs chunk) /\ alternating (runs chunk).
Proof.
  induction chunk as [|msg rest (Hcat & Huni & Halt)]; [by split; [|split]; [| |intros [|?] ??]|].
  simpl. destruct (runs rest) as [|[|next run] others] eqn:Hruns.
  - simpl in *. subst rest. split; [done|]. split.
    + repeat constructor; done.
    + intros [|i] r1 r2 H1 H2; simplify_eq/=.
  - apply Forall_cons in Huni as [[Hne _] _]. done.
  - pose proof Huni as Huni'. apply Forall_cons in Huni' as [[_ Hrun] Hothers].
    rewrite run_role_cons in Hrun. case_decide as Hrole.
    + split; [by simpl in *; rewrite <- Hcat|]. split.
      * constructor; [|done]. split; [done|]. rewrite run_role_cons.
        constructor; [done|]. by rewrite Hrole.
      * intros [|i] r1 r2 H1 H2; simplify_eq/=.
        -- rewrite run_role_cons, Hrole, <- (run_role_cons next run).
           by apply (Halt 0%nat).
        -- by apply (Halt (S i)).
    + split; [by simpl in *; rewrite <- Hcat|]. split.
      * constructor; [|done]. split; [done|]. by repeat constructor.
      * intros [|i] r1 r2 H1 H2; simplify_eq/=; [done|]. by apply (Halt i).
Qed.

Lemma runs_uniform run : uniform run -> runs run = [run].
Proof.
  intros [Hne Hall]. induction run as [|a run IH]; [done|].
  destruct run as [|b run]; [done|].
  inversion Hall as [|?? _ Hrest]; subst. rewrite run_role_cons in Hrest.
  change (runs (a :: b :: run)) with
    (match runs (b :: run) with
     | (next :: r) :: others =>
         if decide (role_of a = role_of next) then (a :: next :: r) :: others
         else [a] :: (next :: r) :: others
     | others => [a] :: others
     end).
  rewrite IH; [|done|].
  - inversion Hrest as [|?? Hb _]; subst. by rewrite decide_True.
  - rewrite run_role_cons. inversion Hrest as [|?? Hb Hrun]; subst.
    constructor; [done|]. eapply Forall_impl; [exact Hrun|]. simpl. congruence.
Qed.

(** A run in front of a message of the other role stays a run of its own. *)
Lemma runs_app run msg rest :
  uniform run -> role_of msg <> run_role run ->
  runs (run ++ msg :: rest) = run :: runs (msg :: rest).
Proof.
  intros [Hne Hall] Hrole. induction run as [|a run IH]; [done|].
  destruct (runs_cons msg rest) as (r & others & Hr).
  destruct run as [|b run].
  - simpl app.
    change (runs (a :: msg :: rest)) with
      (match runs (msg :: rest) with
       | (next :: r) :: others =>
           if decide (role_of a = role_of next) then (a :: next :: r) :: others
           else [a] :: (next :: r) :: others
       | others => [a] :: others
       end).
    rewrite Hr. rewrite run_role_cons in Hrole. by rewrite decide_False.
  - inversion Hall as [|?? _ Hrest]; subst. rewrite run_role_cons in Hrest, Hrole.
    inversion Hrest as [|?? Hb Hrun]; subst.
    change (runs ((a :: b :: run) ++ msg :: rest)) with
      (match runs ((b :: run) ++ msg :: rest) with
       | (next :: r) :: others =>
           if decide (role_of a = role_of next) then (a :: next :: r) :: others
           else [a] :: (next :: r) :: others
       | others => [a] :: others
       end).
    rewrite IH; [by rewrite decide_True | done | |].
    + rewrite run_role_cons. constructor; [done|].
      eapply Forall_impl; [exact Hrun|]. simpl. congruence.
    + rewrite run_role_cons. congruence.
Qed.

(** The merge loop with a run under way. *)
Lemma merge_loop chunk done pending :
  uniform pending ->
  flush (fold_left merge_step chunk
           (mk_merge_state done (Some (run_role pending)) (map message pending)))
  = done ++ map turn_of (runs (pending ++ chunk)).
Proof.
  revert done pending. induction chunk as [|msg chunk IH]; intros done pending Huni.
  - rewrite app_nil_r, (runs_uniform _ Huni). done.
  - simpl fold_left. unfold merge_step at 2. simpl current_role.
    destruct (decide (Some (role_of msg) = Some (run_role pending))) as [Hsame | Hother].
    + simplify_eq. destruct Huni as [Hne Hall]. destruct pending as [|a pending]; [done|].
      specialize (IH done ((a :: pending) ++ [msg])).
      rewrite map_app, <- app_assoc in IH. apply IH. split; [done|].
      change (run_role ((a :: pending) ++ [msg])) with (run_role (a :: pending)).
      apply Forall_app. split; [done|]. by repeat constructor.
    + transitivity ((done ++ [turn_of pending]) ++ map turn_of (runs ([msg] ++ chunk))).
      * rewrite <- IH by (split; [done | by repeat constructor]). reflexivity.
      * rewrite (runs_app pending msg chunk Huni) by congruence.
        by rewrite <- app_assoc.
Qed.

(** The merge loop computes the turns of the runs. *)
Lemma merge_runs chunk : merge chunk = map turn_of (runs chunk).
Proof.
  destruct chunk as [|msg chunk]; [done|]. unfold merge. simpl fold_left.
  unfold merge_step at 2. simpl current_role. rewrite decide_False by done.
  apply (merge_loop chunk [] [msg]). split; [done | by repeat constructor].
Qed.

Lemma elem_of_concat {A} (x : A) (ls : list (list A)) :
  x ∈ concat ls <-> exists l, x ∈ l /\ l ∈ ls.
Proof.
  rewrite list_elem_of_In, in_concat. setoid_rewrite list_elem_of_In.
  split; intros (l & ? & ?); by exists l.
Qed.

(** There is an assistant turn exactly when there is a self-sent message. *)
Lemma assistant_turn chunk :
  existsb (fun turn => bool_decide (role turn = "assistant")) (map turn_of (runs chunk)) = true
  <-> exists msg, msg ∈ chunk /\ sender msg = YOUR_NAME.
Proof.
  destruct (runs_spec chunk) as (Hcat & Huni & _).
  rewrite existsb_exists. setoid_rewrite in_map_iff. split.
  - intros (turn & (run & <- & Hin) & Hrole). apply bool_decide_eq_true in Hrole.
    apply list_elem_of_In in Hin. rewrite Forall_forall in Huni.
    destruct (Huni run Hin) as [Hne Hall]. destruct run as [|msg run]; [done|].
    exists msg. split; [|by apply role_of_assistant].
    rewrite <- Hcat. apply elem_of_concat. exists (msg :: run). split; [left|done].
  - intros (msg & Hin & Hself). rewrite <- Hcat in Hin.
    apply elem_of_concat in Hin as (run & Hmsg & Hrun).
    exists (turn_of run). split; [exists run; split; [done | by apply list_elem_of_In]|].
    apply bool_decide_eq_true. rewrite Forall_forall in Huni.
    destruct (Huni run Hrun) as [_ Hall]. rewrite Forall_forall in Hall.
    simpl. rewrite <- (Hall msg Hmsg). by apply role_of_assistant.
Qed.

Lemma no_assistant_turn (turns : list Turn) :
  existsb (fun turn => bool_decide (role turn = "assistant")) turns = false
  <-> Forall (fun turn => role turn <> "assistant") turns.
Proof.
  rewrite <- not_true_iff_false, existsb_exists, Forall_forall. split.
  - intros Hnone turn Hin Hrole. apply Hnone. exists turn.
    split; [by apply list_elem_of_In | by apply bool_decide_eq_true].
  - intros Hall (turn & Hin & Hrole). apply bool_decide_eq_true in Hrole.
    by apply (Hall turn); [apply list_elem_of_In|].
Qed.

(** [chunk_to_chatml] on a chunk of two messages or more, by way of [trim]. *)
Lemma chunk_to_chatml_trim chunk persona :
  (2 <= length chunk)%nat ->
  chunk_to_chatml chunk persona
  = match head (trim chunk), last (trim chunk) with
    | Some first, Some final =>
        if existsb (fun turn => bool_decide (role turn = "assistant"))
                   (map turn_of (runs (trim chunk)))
        then Some (mk_ChatML (map turn_of (runs (trim chunk))) persona
                             (timestamp first) (timestamp final))
        else None
    | _, _ => None
    end.
Proof.
  intros Hlen. unfold chunk_to_chatml.
  rewrite (proj2 (Nat.ltb_ge _ _) Hlen).
  pose proof (find_start_trim chunk 0) as Hfind.
  destruct (find_start 0 chunk) as [start_idx|].
  - destruct Hfind as (_ & Hdrop & Hne). rewrite Nat.sub_0_r in Hdrop.
    rewrite Hdrop, merge_runs.
    destruct (existsb _ _); simpl; [done|].
    by destruct (head (trim chunk)), (last (trim chunk)).
  - by rewrite Hfind.
Qed.

(** C6. [chunk_to_chatml] rejects a chunk exactly when it has fewer than two
    messages, or no message of somebody other than [YOUR_NAME], or no
    assistant turn among the merged turns.  Otherwise the record holds the
    turns of the chunk without its leading self-sent messages, one turn for
    each maximal run of messages of one role, the texts of a run joined by
    newlines, with the persona and the first and last timestamps of what
    was kept; it opens with a user turn and has an assistant turn.  There is
    no assistant turn exactly when the kept messages are all of somebody
    else. *)
Theorem chunk_to_chatml_spec (chunk : list Message) (persona : string) :
  (chunk_to_chatml chunk persona = None <->
     (length chunk < 2)%nat
     \/ Forall (fun msg => sender msg = YOUR_NAME) chunk
     \/ Forall (fun turn => role turn <> "assistant") (map turn_of (runs (trim chunk))))
  /\ (forall record,
        chunk_to_chatml chunk persona = Some record ->
        exists lead first final,
          chunk = lead ++ trim chunk
          /\ Forall (fun msg => sender msg = YOUR_NAME) lead
          /\ head (trim chunk) = Some first /\ sender first <> YOUR_NAME
          /\ last (trim chunk) = Some final
          /\ record = mk_ChatML (map turn_of (runs (trim chunk))) persona
                                (timestamp first) (timestamp final)
          /\ concat (runs (trim chunk)) = trim chunk
          /\ Forall uniform (runs (trim chunk))
          /\ alternating (runs (trim chunk))
          /\ (exists turn, head (rec_messages record) = Some turn /\ role turn = "user")
          /\ (exists turn, turn ∈ rec_messages record /\ role turn = "assistant"))
  /\ (Forall (fun turn => role turn <> "assistant") (map turn_of (runs (trim chunk)))
      <-> Forall (fun msg => sender msg <> YOUR_NAME) (trim chunk)).
Proof.
  apply and_assoc. split; cycle 1.
  { rewrite <- no_assistant_turn, <- not_true_iff_false, assistant_turn, Forall_forall.
    split; [intros Hnone msg Hin Hself; apply Hnone; by exists msg|].
    intros Hall (msg & Hin & Hself). by apply (Hall msg). }
  destruct (trim_spec chunk) as (lead & Hchunk & Hlead & Hfirst).
  destruct (runs_spec (trim chunk)) as (Hcat & Huni & Halt).
  destruct (decide (length chunk < 2)%nat) as [Hshort | Hlong].
  { assert (Hnone : chunk_to_chatml chunk persona = None).
    { unfold chunk_to_chatml. by rewrite (proj2 (Nat.ltb_lt _ _) Hshort). }
    rewrite Hnone. split; [by split; [left|] | done]. }
  rewrite chunk_to_chatml_trim by lia.
  destruct (trim chunk) as [|first kept] eqn:Htrim.
  { split; [|done]. split; [|done]. intros _. right. left. by apply trim_nil. }
  assert (Hnotall : ~ Forall (fun msg => sender msg = YOUR_NAME) chunk).
  { intros Hall. apply trim_nil in Hall. congruence. }
  destruct (runs_cons first kept) as (run & others & Hruns).
  set (rs := runs (first :: kept)) in *. clearbody rs.
  destruct (last (first :: kept)) as [final|] eqn:Hlast;
    [|by apply last_None in Hlast].
  cbn [head].
  destruct (existsb _ _) eqn:Hhas.
  - split.
    + split; [done|]. intros [? | [? | Hno]]; [done..|].
      apply no_assistant_turn in Hno. congruence.
    + intros record [= <-]. exists lead, first, final.
      repeat (split; [by eauto|]). split.
      * rewrite Hruns. eexists. split; [done|]. simpl. apply role_of_user.
        by apply Hfirst.
      * apply existsb_exists in Hhas as (turn & Hin & Hrole).
        exists turn. split; [by apply list_elem_of_In | by apply bool_decide_eq_true in Hrole].
  - split; [|done]. split; [|done]. intros _. right. right. by apply no_assistant_turn.
Qed.

(** *** The shuffle *)

Lemma swap_returns {A} (x : list A) i j xi xj s :
  x !! i = Some xi -> x !! j = Some xj ->
  swap x i j s = (Returns (<[j := xi]> (<[i := xj]> x)), s).
Proof. intros Hi Hj. unfold swap, bind. by rewrite Hj, Hi. Qed.

Lemma swap_perm {A} (x : list A) i j xi xj :
  x !! i = Some xi -> x !! j = Some xj -> <[j := xi]> (<[i := xj]> x) ≡ₚ x.
Proof.
  intros Hi Hj. apply Permutation_inj. split; [by rewrite !length_insert|].
  exists (fun k => if decide (k = j) then i else if decide (k = i) then j else k).
  split.
  - intros a b. repeat case_decide; congruence.
  - intros k. pose proof (lookup_lt_Some _ _ _ Hi). pose proof (lookup_lt_Some _ _ _ Hj).
    destruct (decide (k = j)) as [->|Hkj].
    + rewrite list_lookup_insert_eq by (by rewrite length_insert). done.
    + rewrite list_lookup_insert_ne by done.
      destruct (decide (k = i)) as [->|Hki].
      * by rewrite list_lookup_insert_eq.
      * by rewrite list_lookup_insert_ne.
Qed.

(** [shuffle] returns, and what it returns is a permutation of its
    argument. *)
Lemma shuffle_perm {A} (x : list A) s :
  exists x' s', shuffle x s = (Returns x', s') /\ x' ≡ₚ x.
Proof using randbelow_lt.
  unfold shuffle.
  apply (for_each_total shuffle_step (fun _ x' _ => x' ≡ₚ x)); [|done].
  intros done i rest x' s1 Hxs Hperm.
  assert (Hi : (1 <= i < length x)%nat).
  { assert (Hin : i ∈ reverse (seq 1 (length x - 1))).
    { rewrite Hxs. apply elem_of_app. right. left. }
    apply elem_of_reverse, elem_of_seq in Hin. lia. }
  unfold shuffle_step, bind.
  pose proof (randbelow_lt s1 (i + 1) ltac:(lia)) as Hj.
  destruct (randbelow s1 (i + 1)) as [j s2]. simpl in Hj.
  apply Permutation_length in Hperm as Hlen.
  destruct (lookup_lt_is_Some_2 x' i) as [xi Hxi]; [lia|].
  destruct (lookup_lt_is_Some_2 x' j) as [xj Hxj]; [lia|].
  rewrite (swap_returns _ _ _ _ _ _ Hxi Hxj).
  eexists _, _. split; [done|]. by rewrite (swap_perm _ _ _ _ _ Hxi Hxj).
Qed.

(** *** Selecting rows *)

Lemma omap_filter {A B} (P : A -> Prop) `{!forall a, Decision (P a)} (f : A -> B)
    (l : list A) :
  omap (fun a => if bool_decide (P a) then Some (f a) else None) l = f <$> filter P l.
Proof.
  induction l as [|a l IH]; [done|]. rewrite filter_cons.
  destruct (decide (P a)) as [Ha | Ha].
  - rewrite fmap_cons, <- IH. simpl. by rewrite bool_decide_eq_true_2.
  - rewrite <- IH. simpl. by rewrite bool_decide_eq_false_2.
Qed.

Lemma filter_all {A} (P : A -> Prop) `{!forall a, Decision (P a)} (l : list A) :
  Forall P l -> filter P l = l.
Proof.
  induction 1 as [|a l Ha _ IH]; [done|]. by rewrite filter_cons_True, IH.
Qed.

Lemma filter_none {A} (P : A -> Prop) `{!forall a, Decision (P a)} (l : list A) :
  Forall (fun a => ~ P a) l -> filter P l = [].
Proof.
  induction 1 as [|a l Ha _ IH]; [done|]. by rewrite filter_cons_False.
Qed.

Lemma filter_fst_length {A B} (P : A -> Prop) `{!forall a, Decision (P a)}
    (l : list (A * B)) :
  length (filter (fun p => P p.1) l) = length (filter P (l.*1)).
Proof.
  induction l as [|[a b] l IH]; [done|]. rewrite fmap_cons, !filter_cons. simpl.
  destruct (decide (P a)); simpl; by rewrite IH.
Qed.

Lemma select_rows_at rows (P : nat -> Prop) `{!forall i, Decision (P i)} :
  select rows (fun i => bool_decide (P i)) = rows_at rows P.
Proof.
  unfold select, rows_at.
  rewrite <- (omap_filter (fun p : nat * json => P p.1) snd).
  apply list_omap_ext, Forall2_same_length_lookup_2.
  - rewrite length_zip_with, !length_seq. lia.
  - intros i a [b r] Ha Hz. apply lookup_seq in Ha as [-> _].
    apply lookup_zip_with_Some in Hz as (b' & r' & [= -> ->] & Hb & Hr).
    apply lookup_seq in Hb as [-> _]. simpl. by rewrite Hr.
Qed.

(** The two selections cut [rows] in two, each in the order of [rows]. *)
Lemma rows_at_partition rows (P : nat -> Prop) `{!forall i, Decision (P i)} :
  rows_at rows P ++ rows_at rows (fun i => ~ P i) ≡ₚ rows
  /\ rows_at rows P `sublist_of` rows
  /\ rows_at rows (fun i => ~ P i) `sublist_of` rows.
Proof.
  unfold rows_at.
  assert (Hsnd : (zip (seq 0 (length rows)) rows).*2 = rows)
    by (apply snd_zip; rewrite length_seq; lia).
  split; [|split].
  - rewrite <- fmap_app.
    rewrite (filter_app_complement (fun p : nat * json => P p.1)). by rewrite Hsnd.
  - pose proof (fmap_sublist snd _ _
                  (sublist_filter (fun p : nat * json => P p.1)
                                  (zip (seq 0 (length rows)) rows))) as Hsub.
    by rewrite Hsnd in Hsub.
  - pose proof (fmap_sublist snd _ _
                  (sublist_filter (fun p : nat * json => ~ P p.1)
                                  (zip (seq 0 (length rows)) rows))) as Hsub.
    by rewrite Hsnd in Hsub.
Qed.

Lemma rows_at_length rows (P : nat -> Prop) `{!forall i, Decision (P i)} :
  length (rows_at rows P) = length (filter P (seq 0 (length rows))).
Proof.
  unfold rows_at. rewrite length_fmap, filter_fst_length.
  rewrite fst_zip; [done|]. rewrite length_seq. lia.
Qed.

Lemma rows_at_all rows (P : nat -> Prop) `{!forall i, Decision (P i)} :
  (forall i, (i < length rows)%nat -> P i) -> rows_at rows P = rows.
Proof.
  intros HP. unfold rows_at. rewrite filter_all.
  - apply snd_zip. rewrite length_seq. lia.
  - apply Forall_forall. intros [i r] Hin. simpl.
    apply list_elem_of_lookup in Hin as [k Hk].
    apply lookup_zip_with_Some in Hk as (i' & r' & [= -> ->] & Hi & _).
    apply lookup_seq in Hi as [-> ?]. by apply HP.
Qed.

Lemma rows_at_none rows (P : nat -> Prop) `{!forall i, Decision (P i)} :
  (forall i, (i < length rows)%nat -> ~ P i) -> rows_at rows P = [].
Proof.
  intros HP. unfold rows_at. rewrite filter_none; [done|].
  apply Forall_forall. intros [i r] Hin. simpl.
  apply list_elem_of_lookup in Hin as [k Hk].
  apply lookup_zip_with_Some in Hk as (i' & r' & [= -> ->] & Hi & _).
  apply lookup_seq in Hi as [-> ?]. by apply HP.
Qed.

(** The rows at the positions listed in [picked]: as many as [picked] lists,
    when it lists positions of [rows] and none twice. *)
Lemma rows_at_picked rows (picked : list nat) :
  NoDup picked -> (forall i, i ∈ picked -> (i < length rows)%nat) ->
  length (rows_at rows (fun i => i ∈ picked)) = length picked.
Proof.
  intros Hnd Hin. rewrite rows_at_length. apply Permutation_length.
  apply NoDup_Permutation; [apply NoDup_filter, NoDup_seq | done |].
  intros i. rewrite list_elem_of_filter, elem_of_seq.
  split; [by intros [? _]|]. intros Hi. split; [done|]. specialize (Hin i Hi). lia.
Qed.

Lemma rows_at_iff rows (P Q : nat -> Prop)
    `{!forall i, Decision (P i)} `{!forall i, Decision (Q i)} :
  (forall i, P i <-> Q i) -> rows_at rows P = rows_at rows Q.
Proof. intros HPQ. unfold rows_at. f_equal. apply list_filter_iff. intros [i r]. apply HPQ. Qed.

Lemma rows_at_elem_of rows (P : nat -> Prop) `{!forall i, Decision (P i)} row :
  row ∈ rows_at rows P <-> exists i, P i /\ rows !! i = Some row.
Proof.
  unfold rows_at. rewrite list_elem_of_fmap. split.
  - intros ([i r] & -> & Hin). apply list_elem_of_filter in Hin as [HP Hin].
    apply list_elem_of_lookup in Hin as [k Hk].
    apply lookup_zip_with_Some in Hk as (i' & r' & [= -> ->] & Hi & Hr).
    apply lookup_seq in Hi as [-> _]. by exists k.
  - intros (i & HP & Hr). exists (i, row). split; [done|].
    apply list_elem_of_filter. split; [done|].
    apply list_elem_of_lookup. exists i. apply lookup_zip_with_Some.
    exists i, row. split; [done|]. split; [|done].
    apply lookup_seq. split; [done|]. by eapply lookup_lt_Some.
Qed.

(** *** The split *)

Lemma desired_eval_clamped n cfg r s :
  round (float_mul (float_of_int (Z.of_nat n)) (eval_ratio cfg)) = Returns r ->
  desired_eval n cfg s = (Returns (clamped r n cfg), s).
Proof.
  intros Hr. unfold desired_eval, bind, lift, clamped. rewrite Hr.
  by destruct (max_eval_per_persona cfg).
Qed.

(** [split_eval] on rows that are there: the shuffled positions, and the
    two selections. *)
Lemma split_eval_rows rows cfg r s :
  rows <> [] ->
  round (float_mul (float_of_int (Z.of_nat (length rows))) (eval_ratio cfg)) = Returns r ->
  exists indices s',
    shuffle (seq 0 (length rows)) s = (Returns indices, s')
    /\ indices ≡ₚ seq 0 (length rows)
    /\ split_eval rows cfg s
       = (Returns (rows_at rows (fun i => i ∈ Py.slice_to (clamped r (length rows) cfg) indices),
                   rows_at rows (fun i => i ∉ Py.slice_to (clamped r (length rows) cfg) indices)),
          s').
Proof using randbelow_lt.
  intros Hne Hr. destruct (shuffle_perm (seq 0 (length rows)) s) as (indices & s' & Hsh & Hperm).
  exists indices, s'. split; [done|]. split; [done|].
  destruct rows as [|row rows]; [done|]. unfold split_eval.
  rewrite (bind_returns _ _ _ _ _ Hsh).
  rewrite (bind_returns _ _ _ _ _ (desired_eval_clamped _ _ _ _ Hr)).
  unfold ret. rewrite !select_rows_at. do 2 f_equal. f_equal.
  - apply rows_at_iff. intros i. apply elem_of_list_to_set.
  - apply rows_at_iff. intros i. by rewrite elem_of_list_to_set.
Qed.

Lemma shuffled_indices (indices : list nat) n :
  indices ≡ₚ seq 0 n ->
  length indices = n /\ NoDup indices /\ (forall i, i ∈ indices <-> (i < n)%nat).
Proof.
  intros Hperm. split; [by rewrite Hperm, length_seq|].
  split; [rewrite Hperm; apply NoDup_seq|].
  intros i. rewrite Hperm, elem_of_seq. lia.
Qed.

(** C7. On rows that are there, the size [split_eval] settles on is the
    rounded product of the number of rows and [eval_ratio], raised to
    [min_eval_per_persona], then lowered to the number of rows, then
    lowered to [max_eval_per_persona] if there is one, in this order: a
    maximum below the minimum wins.  The eval subset has this size when it
    is not negative (a negative size, which takes a negative minimum or
    maximum, is a slice bound that counts from the end).  With a ratio of 0.1
    and a minimum of 25, 40 rows give 25 and 300 rows give 30. *)
Theorem desired_eval_clamp (rows : list json) (cfg : EvalSplitConfig) (r : Z)
    (s : rng_state) :
  rows <> [] ->
  round (float_mul (float_of_int (Z.of_nat (length rows))) (eval_ratio cfg)) = Returns r ->
  let n := length rows in
  let desired := clamped r n cfg in
  desired_eval n cfg s = (Returns desired, s)
  /\ desired = (let raised := Z.max r (min_eval_per_persona cfg) in
                let lowered := Z.min raised (Z.of_nat n) in
                match max_eval_per_persona cfg with
                | Some mx => Z.min lowered mx
                | None => lowered
                end)
  /\ (forall mx, max_eval_per_persona cfg = Some mx ->
                 desired <= mx
                 /\ (mx <= min_eval_per_persona cfg -> mx <= Z.of_nat n -> desired = mx))
  /\ (exists eval_rows remaining_rows s',
        split_eval rows cfg s = (Returns (eval_rows, remaining_rows), s')
        /\ (0 <= desired -> Z.of_nat (length eval_rows) = desired)
        /\ (desired < 0 -> Z.of_nat (length eval_rows) = Z.max 0 (Z.of_nat n + desired)))
  /\ (eval_ratio cfg = float_0_1 -> min_eval_per_persona cfg = 25 ->
      max_eval_per_persona cfg = None ->
      (n = 40%nat -> desired = 25) /\ (n = 300%nat -> desired = 30)).
Proof using randbelow_lt.
  intros Hne Hr n desired.
  split; [by apply desired_eval_clamped|]. split; [done|]. split; [|split].
  - intros mx Hmx. subst desired. unfold clamped. rewrite Hmx. lia.
  - destruct (split_eval_rows rows cfg r s Hne Hr) as (indices & s' & _ & Hperm & Hsplit).
    destruct (shuffled_indices _ _ Hperm) as (Hlen & Hnd & Hin).
    eexists _, _, s'. split; [exact Hsplit|]. fold n desired.
    assert (Hle : desired <= Z.of_nat n).
    { subst desired. unfold clamped. destruct (max_eval_per_persona cfg); lia. }
    assert (Hsize : forall k, length (rows_at rows (fun i => i ∈ take k indices)) = min k n).
    { intros k. rewrite rows_at_picked.
      - by rewrite length_take, Hlen.
      - rewrite <- (take_drop k indices) in Hnd. by apply NoDup_app in Hnd as [? _].
      - intros i Hi. apply Hin. apply elem_of_take in Hi as (j & Hj & _).
        by eapply list_elem_of_lookup_2. }
    unfold Py.slice_to. split.
    + intros Hpos. rewrite (proj2 (Z.leb_le _ _) Hpos), Hsize. lia.
    + intros Hneg. rewrite (proj2 (Z.leb_gt _ _) Hneg), Hlen, Hsize. fold n. lia.
  - intros Hratio Hmin Hmax. subst desired. unfold clamped. rewrite Hmin, Hmax.
    subst n. rewrite Hratio in Hr.
    split; intros Hn; rewrite Hn in *; vm_compute in Hr; by simplify_eq.
Qed.

(** C8. [split_eval] on no rows returns two empty lists.  On rows that are
    there it shuffles the positions and returns the rows at the first
    [desired] shuffled positions, in the order of [rows], and all the other
    rows, in the order of [rows] as well; the two lists cut [rows] in two. *)
Theorem split_eval_partition (rows : list json) (cfg : EvalSplitConfig) (s : rng_state) :
  split_eval [] cfg s = (Returns ([], []), s)
  /\ (forall r,
        rows <> [] ->
        round (float_mul (float_of_int (Z.of_nat (length rows))) (eval_ratio cfg))
        = Returns r ->
        exists indices s',
          shuffle (seq 0 (length rows)) s = (Returns indices, s')
          /\ indices ≡ₚ seq 0 (length rows)
          /\ let desired := clamped r (length rows) cfg in
             let picked := Py.slice_to desired indices in
             let eval_rows := rows_at rows (fun i => i ∈ picked) in
             let remaining_rows := rows_at rows (fun i => i ∉ picked) in
             split_eval rows cfg s = (Returns (eval_rows, remaining_rows), s')
             /\ (0 <= desired -> picked = take (Z.to_nat desired) indices)
             /\ (forall row, row ∈ eval_rows <->
                             exists i, i ∈ picked /\ rows !! i = Some row)
             /\ (forall row, row ∈ remaining_rows <->
                             exists i, (i ∉ picked) /\ rows !! i = Some row)
             /\ (eval_rows ++ remaining_rows ≡ₚ rows)
             /\ (eval_rows `sublist_of` rows)
             /\ (remaining_rows `sublist_of` rows)).
Proof using randbelow_lt.
  split; [done|]. intros r Hne Hr.
  destruct (split_eval_rows rows cfg r s Hne Hr) as (indices & s' & Hsh & Hperm & Hsplit).
  exists indices, s'. split; [done|]. split; [done|].
  intros desired picked eval_rows remaining_rows.
  split; [exact Hsplit|]. split.
  { intros Hpos. subst picked. unfold Py.slice_to. by rewrite (proj2 (Z.leb_le _ _) Hpos). }
  split; [intros row; apply rows_at_elem_of|].
  split; [intros row; apply rows_at_elem_of|].
  apply (rows_at_partition rows (fun i => i ∈ picked)).
Qed.

(** C10. A persona with at least one row and no more rows than
    [min_eval_per_persona], and no maximum configured: all of its rows go to
    the eval subset, and none is left for training. *)
Theorem small_persona_all_eval (rows : list json) (cfg : EvalSplitConfig) (r : Z)
    (s : rng_state) :
  (1 <= length rows)%nat ->
  Z.of_nat (length rows) <= min_eval_per_persona cfg ->
  max_eval_per_persona cfg = None ->
  round (float_mul (float_of_int (Z.of_nat (length rows))) (eval_ratio cfg)) = Returns r ->
  exists s', split_eval rows cfg s = (Returns (rows, []), s').
Proof using randbelow_lt.
  intros Hone Hmin Hmax Hr.
  assert (Hne : rows <> []) by (destruct rows; [simpl in Hone; lia | done]).
  destruct (split_eval_rows rows cfg r s Hne Hr) as (indices & s' & _ & Hperm & Hsplit).
  destruct (shuffled_indices _ _ Hperm) as (Hlen & _ & Hin).
  exists s'. rewrite Hsplit.
  assert (Hd : clamped r (length rows) cfg = Z.of_nat (length rows)).
  { unfold clamped. rewrite Hmax. lia. }
  rewrite Hd. unfold Py.slice_to. rewrite (proj2 (Z.leb_le _ _)) by lia.
  rewrite Nat2Z.id, take_ge by lia.
  rewrite rows_at_all by (intros i Hi; by apply Hin).
  rewrite rows_at_none; [done|]. intros i Hi Hnot. by apply Hnot, Hin.
Qed.

(** *** The run over all personas *)

Lemma bind_related {S1 S2 A1 A2 B1 B2} (Rs : S1 -> S2 -> Prop)
    (Ra : A1 -> A2 -> Prop) (Rb : B1 -> B2 -> Prop)
    (m1 : M S1 A1) (m2 : M S2 A2) (k1 : A1 -> M S1 B1) (k2 : A2 -> M S2 B2) s1 s2 :
  related Rs Ra (m1 s1) (m2 s2) ->
  (forall a1 a2 t1 t2, Ra a1 a2 -> Rs t1 t2 -> related Rs Rb (k1 a1 t1) (k2 a2 t2)) ->
  related Rs Rb (bind m1 k1 s1) (bind m2 k2 s2).
Proof.
  unfold related, bind. intros [Hs Ha] Hk.
  destruct (m1 s1) as [[a1|e1] t1], (m2 s2) as [[a2|e2] t2]; simpl in *; try done.
  by apply Hk.
Qed.

Lemma for_each_related {S1 S2 A1 A2 X} (Rs : S1 -> S2 -> Prop) (Ra : A1 -> A2 -> Prop)
    (body1 : A1 -> X -> M S1 A1) (body2 : A2 -> X -> M S2 A2) (xs : list X) :
  (forall x a1 a2 s1 s2, Ra a1 a2 -> Rs s1 s2 -> related Rs Ra (body1 a1 x s1) (body2 a2 x s2)) ->
  forall a1 a2 s1 s2,
    Ra a1 a2 -> Rs s1 s2 ->
    related Rs Ra (for_each body1 xs a1 s1) (for_each body2 xs a2 s2).
Proof.
  intros Hbody. induction xs as [|x xs IH]; intros a1 a2 s1 s2 Ha Hs; [done|].
  simpl. eapply bind_related; [by apply Hbody | done].
Qed.

(** Reading a file leaves the state alone. *)
Lemma iter_jsonl_state {S} (lines : list string) (s : S) :
  iter_jsonl lines s = (persona_rows lines, s).
Proof.
  unfold persona_rows, iter_jsonl. generalize (@nil json).
  induction lines as [|line lines IH]; intros rows; [done|].
  simpl. unfold bind, iter_jsonl_step.
  destruct (decide (Py.strip line = "")); [apply IH|].
  destruct (json_loads (Py.strip line)); simpl; [apply IH | done].
Qed.

Lemma split_eval_settings cfg1 cfg2 rows :
  same_split_settings cfg1 cfg2 -> split_eval rows cfg1 = split_eval rows cfg2.
Proof.
  intros (_ & Hratio & Hmin & Hmax). unfold split_eval, desired_eval.
  by rewrite Hratio, Hmin, Hmax.
Qed.

Lemma persona_partition_settings cfg1 cfg2 persona lines :
  same_split_settings cfg1 cfg2 ->
  persona_partition cfg1 persona lines = persona_partition cfg2 persona lines.
Proof.
  intros Hsame. unfold persona_partition.
  destruct (persona_rows lines) as [rows|e]; [|done].
  rewrite (split_eval_settings _ _ _ Hsame). by destruct Hsame as [-> _].
Qed.

(** One round of the loop over the personas: what it writes and returns
    comes from the persona's own partition. *)
Lemma persona_step_spec cfg st persona lines rs :
  persona_step cfg st (persona, lines) rs
  = match persona_rows lines with
    | Raises e => (Raises e, rs)
    | Returns rows =>
        match persona_partition cfg persona lines with
        | Raises e => (Raises e, rs)
        | Returns (eval_rows, remaining_rows) =>
            (Returns (mk_build_state
                        (sft_eval_all st ++ eval_rows)
                        (sft_train_all st ++ remaining_rows)
                        (personas st ++ [mk_PersonaSummary persona (length rows)
                                           (length eval_rows) (length remaining_rows)
                                           (lora_eval_file cfg persona)
                                           (lora_train_file cfg persona)])),
             mk_run_state (rng rs)
               ((fs_log rs ++ [WriteJsonl (lora_eval_file cfg persona) eval_rows])
                ++ [WriteJsonl (lora_train_file cfg persona) remaining_rows]))
        end
    end.
Proof.
  unfold persona_step, persona_partition. unfold bind at 1.
  rewrite iter_jsonl_state. destruct (persona_rows lines) as [rows|e]; [|done].
  unfold bind at 1, on_local_rng.
  by destruct (fst (split_eval rows cfg _)) as [[eval_rows remaining_rows]|e].
Qed.

Lemma same_writes_step log1 log2 out1 out2 op1 op2 :
  same_writes log1 log2 out1 out2 -> written [op1] = written [op2] ->
  same_writes log1 log2 (out1 ++ [op1]) (out2 ++ [op2]).
Proof.
  intros (new1 & new2 & -> & -> & Hw) Hop. exists (new1 ++ [op1]), (new2 ++ [op2]).
  rewrite !app_assoc. split; [done|]. split; [done|].
  unfold written in *. by rewrite !omap_app, Hw, Hop.
Qed.

Lemma fs_do_related log1 log2 op1 op2 rs1 rs2 :
  run_alike log1 log2 rs1 rs2 -> written [op1] = written [op2] ->
  related (run_alike log1 log2) (fun _ _ => True) (fs_do op1 rs1) (fs_do op2 rs2).
Proof.
  intros [Hrng Hlog] Hop. split; [|done]. split; [done|]. by apply same_writes_step.
Qed.

Lemma on_rng_related {A} log1 log2 (m : M rng_state A) rs1 rs2 :
  run_alike log1 log2 rs1 rs2 ->
  related (run_alike log1 log2) eq (on_rng m rs1) (on_rng m rs2).
Proof.
  intros [Hrng Hlog]. unfold related, on_rng. rewrite Hrng.
  destruct (m (rng rs2)) as [[a|e] g]; by split.
Qed.

Lemma persona_step_related cfg1 cfg2 log1 log2 file st1 st2 rs1 rs2 :
  same_split_settings cfg1 cfg2 -> pools_alike st1 st2 -> run_alike log1 log2 rs1 rs2 ->
  related (run_alike log1 log2) pools_alike
          (persona_step cfg1 st1 file rs1) (persona_step cfg2 st2 file rs2).
Proof.
  intros Hsame [Heval Htrain] [Hrng Hlog]. destruct file as [persona lines].
  rewrite !persona_step_spec, (persona_partition_settings _ _ _ _ Hsame).
  destruct (persona_rows lines) as [rows|e]; [|by split].
  destruct (persona_partition cfg2 persona lines) as [[eval_rows remaining_rows]|e];
    [|by split].
  split; [|split; simpl; congruence]. split; [done|]. simpl.
  by repeat apply same_writes_step.
Qed.

Lemma build_body_related cfg1 cfg2 listing log1 log2 rs1 rs2 :
  same_split_settings cfg1 cfg2 -> run_alike log1 log2 rs1 rs2 ->
  related (run_alike log1 log2) totals_alike
          (build_body cfg1 listing rs1) (build_body cfg2 listing rs2).
Proof.
  intros Hsame Hrs. unfold build_body.
  destruct (discover_persona_files listing) as [|file files]; [by split|].
  eapply bind_related.
  { apply (for_each_related (run_alike log1 log2) pools_alike); [|done|done].
    intros. by apply persona_step_related. }
  intros st1 st2 t1 t2 [Heval Htrain] Ht. rewrite Heval, Htrain.
  eapply bind_related; [by apply on_rng_related|]. intros ? sft_eval ? ? -> ?.
  eapply bind_related; [by apply fs_do_related|]. intros _ _ ? ? _ ?.
  eapply bind_related; [by apply on_rng_related|]. intros ? sft_train ? ? -> ?.
  eapply bind_related; [by apply fs_do_related|]. intros _ _ ? ? _ ?.
  do 5 (eapply bind_related; [by apply fs_do_related|]; intros _ _ ? ? _ ?).
  by split.
Qed.

(** A loop over the personas that returns has written the partition of each
    of them. *)
Lemma persona_loop_writes cfg files st rs st' rs' :
  for_each (persona_step cfg) files st rs = (Returns st', rs') ->
  exists ops,
    fs_log rs' = fs_log rs ++ ops
    /\ forall persona lines,
        (persona, lines) ∈ files ->
        exists eval_rows remaining_rows,
          persona_partition cfg persona lines = Returns (eval_rows, remaining_rows)
          /\ WriteJsonl (lora_eval_file cfg persona) eval_rows ∈ ops
          /\ WriteJsonl (lora_train_file cfg persona) remaining_rows ∈ ops.
Proof.
  intros Hrun.
  pose (P := fun (done : list (string * list string)) (_ : build_state) (t : run_state) =>
               exists ops,
                 fs_log t = fs_log rs ++ ops
                 /\ forall persona lines,
                     (persona, lines) ∈ done ->
                     exists eval_rows remaining_rows,
                       persona_partition cfg persona lines
                       = Returns (eval_rows, remaining_rows)
                       /\ WriteJsonl (lora_eval_file cfg persona) eval_rows ∈ ops
                       /\ WriteJsonl (lora_train_file cfg persona) remaining_rows ∈ ops).
  refine (for_each_ind (persona_step cfg) P files _ st rs st' rs' _ Hrun).
  - intros done [persona lines] rest a t a' t' _ (ops & Hlog & Hdone) Hstep.
    rewrite persona_step_spec in Hstep.
    destruct (persona_rows lines) as [rows|e]; [|done].
    destruct (persona_partition cfg persona lines) as [[eval_rows remaining_rows]|e] eqn:Hpart;
      [|done].
    simplify_eq.
    exists (ops ++ [WriteJsonl (lora_eval_file cfg persona) eval_rows;
                    WriteJsonl (lora_train_file cfg persona) remaining_rows]).
    split; [simpl; rewrite Hlog, <- !app_assoc; done|].
    intros persona' lines' Hin. apply elem_of_app in Hin as [Hin | Hin].
    + destruct (Hdone _ _ Hin) as (e & r & ? & ? & ?).
      exists e, r. rewrite !elem_of_app. eauto.
    + apply list_elem_of_singleton in Hin as [= -> ->].
      exists eval_rows, remaining_rows. split; [done|].
      rewrite !elem_of_app, !elem_of_cons. split; [right; by left | right; right; by left].
  - exists []. split; [by rewrite app_nil_r|]. intros ?? Hin. by apply elem_of_nil in Hin.
Qed.

Lemma fs_do_inv op rs u rs' :
  fs_do op rs = (Returns u, rs') -> fs_log rs' = fs_log rs ++ [op].
Proof. unfold fs_do. intros [= <- <-]. done. Qed.

Lemma on_rng_inv {A} (m : M rng_state A) rs a rs' :
  on_rng m rs = (Returns a, rs') -> fs_log rs' = fs_log rs.
Proof.
  unfold on_rng. destruct (m (rng rs)) as [o g]. intros [= -> <-]. done.
Qed.

Lemma build_body_writes cfg listing rs summary rs' :
  build_body cfg listing rs = (Returns summary, rs') ->
  exists ops,
    fs_log rs' = fs_log rs ++ ops
    /\ forall persona lines,
        (persona, lines) ∈ discover_persona_files listing ->
        exists eval_rows remaining_rows,
          persona_partition cfg persona lines = Returns (eval_rows, remaining_rows)
          /\ WriteJsonl (lora_eval_file cfg persona) eval_rows ∈ ops
          /\ WriteJsonl (lora_train_file cfg persona) remaining_rows ∈ ops.
Proof.
  unfold build_body.
  destruct (discover_persona_files listing) as [|file files] eqn:Hfiles; [done|].
  intros H. apply bind_inv in H as (st & t0 & Hloop & H).
  apply persona_loop_writes in Hloop as (ops & Hlog & Hwrites).
  apply bind_inv in H as (? & t1 & H1 & H). apply on_rng_inv in H1.
  apply bind_inv in H as (? & t2 & H2 & H). apply fs_do_inv in H2.
  apply bind_inv in H as (? & t3 & H3 & H). apply on_rng_inv in H3.
  apply bind_inv in H as (? & t4 & H4 & H). apply fs_do_inv in H4.
  apply bind_inv in H as (? & t5 & H5 & H). apply fs_do_inv in H5.
  apply bind_inv in H as (? & t6 & H6 & H). apply fs_do_inv in H6.
  apply bind_inv in H as (? & t7 & H7 & H). apply fs_do_inv in H7.
  apply bind_inv in H as (? & t8 & H8 & H). apply fs_do_inv in H8.
  apply bind_inv in H as (? & t9 & H9 & H). apply fs_do_inv in H9.
  cbv [ret] in H. simplify_eq.
  eexists (ops ++ _). split.
  - rewrite H9, H8, H7, H6, H5, H4, H3, H2, H1, Hlog. rewrite <- !app_assoc. done.
  - intros persona lines Hin. destruct (Hwrites _ _ Hin) as (e & r & ? & ? & ?).
    exists e, r. rewrite !elem_of_app. eauto.
Qed.

(** C9. Two runs of [build_eval_datasets] over the same files, with the same
    seed, ratio and clamp settings, write the same row lists in the same
    order, whatever the directories and whatever was written before, and
    end alike.  The seed of a persona is the number that the first 8 bytes
    of the SHA-256 digest of the seed, a colon and the name of the persona
    are in base 256, the first byte the most significant.  What a run writes
    for a persona are the two parts that [split_eval] makes of the rows of
    the persona's file with a generator of this seed: they come from the
    seed, the name, the lines of the persona's file and the settings,
    whatever other personas the run goes through. *)
Theorem build_eval_datasets_deterministic (cfg1 cfg2 : EvalSplitConfig)
    (listing : list (string * list string)) (log1 log2 : list fs_op) :
  same_split_settings cfg1 cfg2 ->
  related (same_writes log1 log2) totals_alike
          (build_eval_datasets cfg1 listing log1)
          (build_eval_datasets cfg2 listing log2)
  /\ (forall persona b0 b1 b2 b3 b4 b5 b6 b7 more,
        sha256 (pretty (seed cfg1) +:+ ":" +:+ persona)
        = b0 :: b1 :: b2 :: b3 :: b4 :: b5 :: b6 :: b7 :: more ->
        let n b := Z.of_N (Byte.to_N b) in
        persona_seed (seed cfg1) persona
        = n b0 * 256 ^ 7 + n b1 * 256 ^ 6 + n b2 * 256 ^ 5 + n b3 * 256 ^ 4
          + n b4 * 256 ^ 3 + n b5 * 256 ^ 2 + n b6 * 256 + n b7)
  /\ (forall listing2 persona lines summary1 summary2 out1 out2,
        (persona, lines) ∈ discover_persona_files listing ->
        (persona, lines) ∈ discover_persona_files listing2 ->
        build_eval_datasets cfg1 listing log1 = (Returns summary1, out1) ->
        build_eval_datasets cfg2 listing2 log2 = (Returns summary2, out2) ->
        exists rows eval_rows remaining_rows new1 new2,
          persona_rows lines = Returns rows
          /\ fst (split_eval rows cfg1 (Random (persona_seed (seed cfg1) persona)))
             = Returns (eval_rows, remaining_rows)
          /\ out1 = log1 ++ new1 /\ out2 = log2 ++ new2
          /\ WriteJsonl (lora_eval_file cfg1 persona) eval_rows ∈ new1
          /\ WriteJsonl (lora_train_file cfg1 persona) remaining_rows ∈ new1
          /\ WriteJsonl (lora_eval_file cfg2 persona) eval_rows ∈ new2
          /\ WriteJsonl (lora_train_file cfg2 persona) remaining_rows ∈ new2).
Proof.
  intros Hsame. split; [|split].
  - unfold build_eval_datasets.
    pose proof (build_body_related cfg1 cfg2 listing log1 log2
                  (mk_run_state (Random (seed cfg1)) log1)
                  (mk_run_state (Random (seed cfg2)) log2) Hsame) as Hrel.
    destruct (build_body cfg1 listing _) as [o1 t1], (build_body cfg2 listing _) as [o2 t2].
    destruct Hrel as [[_ Hlog] Hres]; [|by split].
    split; [by destruct Hsame as [-> _]; simpl|].
    exists [], []. by rewrite !app_nil_r.
  - intros persona b0 b1 b2 b3 b4 b5 b6 b7 more Hdigest n.
    unfold persona_seed. rewrite Hdigest. cbn [firstn]. rewrite take_0.
    unfold int_from_bytes_big. cbn [fold_left]. subst n. cbn beta. ring.
  - intros listing2 persona lines summary1 summary2 out1 out2 Hin1 Hin2 Hrun1 Hrun2.
    unfold build_eval_datasets in Hrun1, Hrun2.
    destruct (build_body cfg1 listing _) as [o1 t1] eqn:Hb1.
    destruct (build_body cfg2 listing2 _) as [o2 t2] eqn:Hb2.
    simplify_eq.
    apply build_body_writes in Hb1 as (new1 & Hlog1 & Hw1).
    apply build_body_writes in Hb2 as (new2 & Hlog2 & Hw2).
    destruct (Hw1 _ _ Hin1) as (eval_rows & remaining_rows & Hpart & He1 & Ht1).
    destruct (Hw2 _ _ Hin2) as (eval_rows' & remaining_rows' & Hpart' & He2 & Ht2).
    rewrite <- (persona_partition_settings _ _ _ _ Hsame), Hpart in Hpart'.
    simplify_eq. unfold persona_partition in Hpart.
    destruct (persona_rows lines) as [rows|e]; [|done].
    by exists rows, eval_rows', remaining_rows', new1, new2.
Qed.

(** ** Further properties of the code *)

(** *** Dicts in insertion order *)

Lemma dict_set_keys {V} (d : list (string * V)) key value :
  (dict_set d key value).*1 = if decide (key ∈ d.*1) then d.*1 else d.*1 ++ [key].
Proof.
  induction d as [|[k v] d IH]; [done|]. cbn [dict_set].
  destruct (decide (k = key)) as [->|Hne].
  - rewrite !fmap_cons. cbn [fst]. by rewrite decide_True by left.
  - rewrite !fmap_cons, IH. cbn [fst]. destruct (decide (key ∈ d.*1)) as [Hin|Hout].
    + by rewrite decide_True by (by right).
    + rewrite decide_False; [done|]. intros Hin. apply elem_of_cons in Hin as [?|?]; congruence.
Qed.

Lemma dict_set_elem_of {V} (d : list (string * V)) key value k v :
  (k, v) ∈ dict_set d key value -> (k, v) = (key, value) \/ (k, v) ∈ d.
Proof.
  induction d as [|[k' v'] d IH]; simpl.
  - intros Hin. apply list_elem_of_singleton in Hin. by left.
  - destruct (decide (k' = key)) as [->|Hne]; intros Hin;
      apply elem_of_cons in Hin as [Heq|Hin].
    + by left.
    + right. by right.
    + right. rewrite Heq. left.
    + destruct (IH Hin); [by left | right; by right].
Qed.

Lemma dict_set_fresh {V} (d : list (string * V)) key value :
  key ∉ d.*1 -> dict_set d key value = d ++ [(key, value)].
Proof.
  induction d as [|[k v] d IH]; [done|]. simpl. intros Hout.
  apply not_elem_of_cons in Hout as [Hne Hout].
  rewrite decide_False by done. by rewrite IH.
Qed.

Lemma dict_lookup_set {V} (d : list (string * V)) key value k :
  dict_lookup (dict_set d key value) k
  = if decide (key = k) then Some value else dict_lookup d k.
Proof.
  induction d as [|[k' v'] d IH]; simpl.
  - destruct (decide (key = k)); done.
  - destruct (decide (k' = key)) as [->|Hne]; simpl.
    + destruct (decide (key = k)); done.
    + rewrite IH. destruct (decide (k' = k)) as [->|]; [|done].
      by rewrite decide_False.
Qed.

(** *** [discover_persona_files] *)

Lemma discover_fold listing (acc : list (string * list string)) :
  let result :=
    fold_left (fun persona_files p =>
                 if decide (fst p = "conversations") then persona_files
                 else dict_set persona_files (fst p) (snd p)) listing acc in
  (NoDup acc.*1 -> NoDup result.*1)
  /\ ("conversations" ∉ acc.*1 -> "conversations" ∉ result.*1)
  /\ (forall stem lines, (stem, lines) ∈ result -> (stem, lines) ∈ acc \/ (stem, lines) ∈ listing)
  /\ (forall stem, stem ∈ acc.*1 \/ (stem ∈ listing.*1 /\ stem <> "conversations") ->
                   stem ∈ result.*1)
  /\ (NoDup (acc.*1 ++ listing.*1) ->
      result = acc ++ filter (fun p => p.1 <> "conversations") listing).
Proof.
  revert acc. induction listing as [|[stem lines] listing IH]; intros acc; simpl.
  { split; [done|]. split; [done|]. split; [by left|]. split.
    - intros stem [? | [Hin _]]; [done | by apply elem_of_nil in Hin].
    - intros _. by rewrite app_nil_r. }
  destruct (decide (stem = "conversations")) as [->|Hstem].
  - destruct (IH acc) as (Hnd & Hconv & Hsub & Hkeys & Hfilter).
    split; [done|]. split; [done|]. split; [|split].
    + intros s l Hin. destruct (Hsub s l Hin); [by left | right; by right].
    + intros s [? | [Hin Hne]]; apply Hkeys; [by left|].
      apply elem_of_cons in Hin as [?|?]; [done | by right].
    + intros Hnodup. rewrite filter_cons_False by (simpl; by intros []).
      apply Hfilter. apply NoDup_app in Hnodup as (? & Hdisj & Htail).
      apply NoDup_app. split; [done|]. split; [|by apply NoDup_cons in Htail as [_ ?]].
      intros x Hx Hin. apply (Hdisj x Hx). by right.
  - destruct (IH (dict_set acc stem lines)) as (Hnd & Hconv & Hsub & Hkeys & Hfilter).
    assert (Hset : forall x, x ∈ (dict_set acc stem lines).*1 <-> x ∈ acc.*1 \/ x = stem).
    { intros x. rewrite dict_set_keys. destruct (decide (stem ∈ acc.*1)).
      - split; [by left | by intros [?| ->]].
      - by rewrite elem_of_app, list_elem_of_singleton. }
    split; [|split; [|split; [|split]]].
    + intros Hacc. apply Hnd. rewrite dict_set_keys.
      destruct (decide (stem ∈ acc.*1)); [done|].
      apply NoDup_app. split; [done|]. split; [|apply NoDup_singleton].
      intros x Hx Hin. apply list_elem_of_singleton in Hin. by subst.
    + intros Hacc. apply Hconv. intros Hin. apply Hset in Hin as [?| ?]; congruence.
    + intros s l Hin. destruct (Hsub s l Hin) as [Hin' | Hin']; [|right; by right].
      apply dict_set_elem_of in Hin' as [[= -> ->] | ?]; [right; left | by left].
    + intros s Hs. apply Hkeys. destruct Hs as [Hs | [Hs Hne]].
      * left. apply Hset. by left.
      * apply elem_of_cons in Hs as [-> | Hs]; [left; apply Hset; by right | by right].
    + intros Hnodup. rewrite filter_cons_True by done.
      apply NoDup_app in Hnodup as (Hacc & Hdisj & Htail).
      apply NoDup_cons in Htail as [Hfresh Htail].
      assert (Hout : stem ∉ acc.*1) by (intros Hin; apply (Hdisj stem Hin); left).
      rewrite Hfilter.
      * rewrite dict_set_fresh by done. by rewrite <- app_assoc.
      * rewrite dict_set_fresh by done. rewrite fmap_app. simpl.
        apply NoDup_app. split; [|split; [|done]].
        -- apply NoDup_app. split; [done|]. split; [|apply NoDup_singleton].
           intros x Hx Hin. apply list_elem_of_singleton in Hin. by subst.
        -- intros x Hx Hin. apply elem_of_app in Hx as [Hx | Hx].
           ++ apply (Hdisj x Hx). by right.
           ++ apply list_elem_of_singleton in Hx. by subst.
Qed.

(** X1. The persona files [discover_persona_files] returns: no stem twice,
    never the combined file [conversations.jsonl], every one of them a file
    of the directory with its lines, and every other file of the directory
    among them; for a directory, where no name occurs twice, they are the
    files of the directory without the combined file, in the order of the
    directory. *)
Theorem discover_persona_files_spec (listing : list (string * list string)) :
  NoDup (discover_persona_files listing).*1
  /\ ("conversations" ∉ (discover_persona_files listing).*1)
  /\ (forall stem lines,
        (stem, lines) ∈ discover_persona_files listing -> (stem, lines) ∈ listing)
  /\ (forall stem,
        stem ∈ listing.*1 -> stem <> "conversations" ->
        stem ∈ (discover_persona_files listing).*1)
  /\ (NoDup listing.*1 ->
      discover_persona_files listing
      = filter (fun p => p.1 <> "conversations") listing).
Proof.
  unfold discover_persona_files.
  destruct (discover_fold listing []) as (Hnd & Hconv & Hsub & Hkeys & Hfilter).
  split; [apply Hnd; constructor|]. split; [apply Hconv; apply not_elem_of_nil|].
  split; [|split].
  - intros stem lines Hin. destruct (Hsub stem lines Hin) as [Hnil | ?]; [|done].
    by apply elem_of_nil in Hnil.
  - intros stem Hin Hne. apply Hkeys. by right.
  - intros Hnodup. by apply Hfilter.
Qed.

(** *** [_iter_jsonl] *)

Lemma iter_jsonl_acc {S} (lines : list string) (acc : list json) (s : S) :
  for_each iter_jsonl_step lines acc s
  = (match mapM json_loads (filter (fun line => line <> "") (Py.strip <$> lines)) with
     | Some rows => Returns (acc ++ rows)
     | None => Raises JSONDecodeError
     end, s).
Proof.
  revert acc. induction lines as [|line lines IH]; intros acc.
  { simpl. by rewrite app_nil_r. }
  rewrite fmap_cons, filter_cons. simpl for_each. unfold bind, iter_jsonl_step.
  destruct (decide (Py.strip line = "")) as [Hblank | Hline].
  - rewrite decide_False by (by intros []). apply IH.
  - rewrite decide_True by done. simpl.
    destruct (json_loads (Py.strip line)) as [row|]; simpl; [|done].
    rewrite IH. destruct (mapM _ _); simpl; [|done]. by rewrite <- app_assoc.
Qed.

Lemma iter_jsonl_run {S} (lines : list string) (s : S) :
  iter_jsonl lines s
  = (match mapM json_loads (filter (fun line => line <> "") (Py.strip <$> lines)) with
     | Some rows => Returns rows
     | None => Raises JSONDecodeError
     end, s).
Proof. unfold iter_jsonl. by rewrite iter_jsonl_acc. Qed.


(** *** What [_write_jsonl] writes, [_iter_jsonl] reads *)

Lemma append_nl_cons c (s : string) : String c s +:+ Py.nl = String c (s +:+ Py.nl).
Proof. reflexivity. Qed.

Lemma lstrip_length (s : string) : (String.length (Py.lstrip s) <= String.length s)%nat.
Proof. induction s as [|c s IH]; simpl; [done|]. destruct (Py.isspace c); simpl; lia. Qed.

Lemma rstrip_length (s : string) : (String.length (Py.rstrip s) <= String.length s)%nat.
Proof.
  induction s as [|c s IH]; simpl; [done|].
  destruct (Py.rstrip s); [destruct (Py.isspace c)|]; simpl in *; lia.
Qed.

Lemma rstrip_nl (s : string) : Py.rstrip (s +:+ Py.nl) = Py.rstrip s.
Proof.
  induction s as [|c s IH]; [done|]. rewrite append_nl_cons.
  change (Py.rstrip (String c (s +:+ Py.nl)))
    with (match Py.rstrip (s +:+ Py.nl) with
          | EmptyString => if Py.isspace c then EmptyString else String c EmptyString
          | r => String c r
          end).
  by rewrite IH.
Qed.

(** A text without white space at its ends comes back from being written as
    a line and stripped. *)
Lemma strip_written_line (s : string) :
  Py.strip s = s -> s <> "" -> Py.strip (s +:+ Py.nl) = s.
Proof.
  intros Hs Hne. destruct s as [|c s]; [done|]. unfold Py.strip in *.
  rewrite append_nl_cons.
  change (Py.lstrip (String c s))
    with (if Py.isspace c then Py.lstrip s else String c s) in Hs.
  change (Py.lstrip (String c (s +:+ Py.nl)))
    with (if Py.isspace c then Py.lstrip (s +:+ Py.nl) else String c (s +:+ Py.nl)).
  destruct (Py.isspace c).
  - exfalso. pose proof (rstrip_length (Py.lstrip s)). pose proof (lstrip_length s).
    rewrite Hs in *. simpl in *. lia.
  - by rewrite <- append_nl_cons, rstrip_nl.
Qed.

(** X3. The rows [_write_jsonl] has written come back from [_iter_jsonl], in
    the same order, when [json.loads] reads what [json.dumps] writes and what
    it writes is a text without white space at its ends. *)
Theorem jsonl_round_trip {S} (rows : list json) (s : S) :
  (forall row, row ∈ rows ->
               json_loads (json_dumps row) = Some row
               /\ Py.strip (json_dumps row) = json_dumps row
               /\ json_dumps row <> "") ->
  iter_jsonl (jsonl_lines rows) s = (Returns rows, s).
Proof.
  intros Hrows. rewrite iter_jsonl_run.
  assert (Hmap : mapM json_loads
                   (filter (fun line => line <> "") (Py.strip <$> jsonl_lines rows))
                 = Some rows); [|by rewrite Hmap].
  induction rows as [|row rows IH]; [done|].
  destruct (Hrows row) as (Hload & Hstrip & Hne); [left|].
  unfold jsonl_lines. rewrite map_cons, fmap_cons.
  rewrite (strip_written_line _ Hstrip Hne), filter_cons_True by done.
  cbn [mapM]. rewrite Hload. simpl.
  unfold jsonl_lines in IH. rewrite IH; [done|]. intros r Hr. apply Hrows. by right.
Qed.

(** *** The seed of a persona *)

Lemma int_from_bytes_big_acc (bs : list Byte.byte) (acc : Z) :
  0 <= acc ->
  acc * 256 ^ Z.of_nat (length bs)
  <= fold_left (fun acc b => acc * 256 + Z.of_N (Byte.to_N b)) bs acc
  < (acc + 1) * 256 ^ Z.of_nat (length bs).
Proof.
  revert acc. induction bs as [|b bs IH]; intros acc Hacc; [simpl; lia|].
  cbn [fold_left length]. rewrite Nat2Z.inj_succ, Z.pow_succ_r by lia.
  pose proof (Byte.to_N_bounded b) as Hb.
  specialize (IH (acc * 256 + Z.of_N (Byte.to_N b)) ltac:(lia)).
  assert (0 < 256 ^ Z.of_nat (length bs)) by (apply Z.pow_pos_nonneg; lia).
  nia.
Qed.

(** X4. The seed of a persona is a number of 64 bits: it is not negative and
    it is below 2^64, whatever the digest. *)
Theorem persona_seed_bounds (seed : Z) (persona : string) :
  0 <= persona_seed seed persona < 2 ^ 64.
Proof.
  unfold persona_seed, int_from_bytes_big.
  pose proof (int_from_bytes_big_acc
                (take 8 (sha256 (pretty seed +:+ ":" +:+ persona))) 0 ltac:(lia)) as Hb.
  assert (Hlen : (length (take 8 (sha256 (pretty seed +:+ ":" +:+ persona))) <= 8)%nat)
    by (rewrite length_take; lia).
  assert (256 ^ Z.of_nat (length (take 8 (sha256 (pretty seed +:+ ":" +:+ persona))))
          <= 256 ^ 8) by (apply Z.pow_le_mono_r; lia).
  change (2 ^ 64) with (256 ^ 8). lia.
Qed.

(** *** The run over all personas, write by write *)

(** A split that returns has cut the rows in two. *)
Lemma split_eval_inv rows cfg s eval_rows remaining_rows :
  fst (split_eval rows cfg s) = Returns (eval_rows, remaining_rows) ->
  eval_rows ++ remaining_rows ≡ₚ rows
  /\ eval_rows `sublist_of` rows /\ remaining_rows `sublist_of` rows.
Proof using randbelow_lt.
  destruct rows as [|row rows]; [by intros [= <- <-]|].
  set (all := row :: rows). assert (Hne : all <> []) by done. clearbody all.
  destruct (round (float_mul (float_of_int (Z.of_nat (length all))) (eval_ratio cfg)))
    as [r|e] eqn:Hr.
  - destruct (split_eval_rows all cfg r s Hne Hr) as (indices & s' & _ & _ & Hsplit).
    rewrite Hsplit. intros [= <- <-]. apply rows_at_partition.
  - destruct (shuffle_perm (seq 0 (length all)) s) as (indices & s' & Hsh & _).
    destruct all as [|? ?]; [done|]. unfold split_eval.
    rewrite (bind_returns _ _ _ _ _ Hsh). unfold desired_eval, bind, lift.
    by rewrite Hr.
Qed.

Lemma partitioned_rows cfg file part :
  partitioned cfg file part ->
  exists rows, persona_rows file.2 = Returns rows
               /\ part.1 ++ part.2 ≡ₚ rows
               /\ part.1 `sublist_of` rows /\ part.2 `sublist_of` rows.
Proof using randbelow_lt.
  unfold partitioned, persona_partition. destruct part as [eval_rows remaining_rows].
  destruct (persona_rows file.2) as [rows|e]; [|done].
  intros Hsplit. exists rows. split; [done|]. by eapply split_eval_inv.
Qed.

(** The loop over the personas, when it returns, has split every file and
    has written the two parts of each, in the order of the files. *)
Lemma persona_loop_returns cfg files st rs st' rs' :
  for_each (persona_step cfg) files st rs = (Returns st', rs') ->
  exists parts,
    Forall2 (partitioned cfg) files parts
    /\ rs' = mk_run_state (rng rs)
               (fs_log rs ++ concat (zip_with (fun file => partition_writes cfg file.1)
                                              files parts))
    /\ st' = mk_build_state (sft_eval_all st ++ concat parts.*1)
                            (sft_train_all st ++ concat parts.*2)
                            (personas st ++ zip_with (summary_entry cfg) files parts).
Proof using randbelow_lt.
  revert st rs. induction files as [|[persona lines] files IH]; intros st rs Hrun.
  - cbv [for_each ret] in Hrun. injection Hrun as <- <-. exists []. split; [done|].
    simpl. rewrite !app_nil_r. by destruct st, rs.
  - cbn [for_each] in Hrun. apply bind_inv in Hrun as (st1 & rs1 & Hstep & Hrun).
    rewrite persona_step_spec in Hstep.
    destruct (persona_rows lines) as [rows|e] eqn:Hrows; [|done].
    destruct (persona_partition cfg persona lines) as [[eval_rows remaining_rows]|e] eqn:Hpart;
      [|done].
    assert (Hp : partitioned cfg (persona, lines) (eval_rows, remaining_rows)) by done.
    destruct (partitioned_rows _ _ _ Hp) as (rows' & Hrows' & Hperm & _).
    cbn [fst snd] in Hrows', Hperm. rewrite Hrows in Hrows'. simplify_eq.
    destruct (IH _ _ Hrun) as (parts & Hparts & -> & ->).
    exists ((eval_rows, remaining_rows) :: parts). split; [by constructor|].
    cbn [rng fs_log sft_eval_all sft_train_all personas zip_with concat fmap list_fmap fst snd].
    rewrite <- !app_assoc. unfold summary_entry at 2, partition_writes at 2.
    cbn [fst snd app]. rewrite <- Hperm, length_app. done.
Qed.

(** The loop, when it raises, has done so at the first file that cannot be
    read or split, after it has written the two parts of each file before. *)
Lemma persona_loop_raises cfg files st rs e rs' :
  for_each (persona_step cfg) files st rs = (Raises e, rs') ->
  exists done file rest parts,
    files = done ++ file :: rest
    /\ Forall2 (partitioned cfg) done parts
    /\ persona_partition cfg file.1 file.2 = Raises e
    /\ rs' = mk_run_state (rng rs)
               (fs_log rs ++ concat (zip_with (fun file => partition_writes cfg file.1)
                                              done parts)).
Proof.
  revert st rs. induction files as [|[persona lines] files IH]; intros st rs Hrun; [done|].
  cbn [for_each] in Hrun. unfold bind in Hrun.
  destruct (persona_step cfg st (persona, lines) rs) as [[st1|e1] rs1] eqn:Hstep.
  - rewrite persona_step_spec in Hstep.
    destruct (persona_rows lines) as [rows|e0] eqn:Hrows; [|done].
    destruct (persona_partition cfg persona lines) as [[eval_rows remaining_rows]|e0] eqn:Hpart;
      [|done].
    simplify_eq. destruct (IH _ _ Hrun) as (done & file & rest & parts & -> & Hparts & Hfile & ->).
    exists ((persona, lines) :: done), file, rest, ((eval_rows, remaining_rows) :: parts).
    split; [done|]. split; [by constructor|]. split; [done|].
    cbn [rng fs_log zip_with concat fst]. by rewrite <- !app_assoc.
  - simplify_eq. rewrite persona_step_spec in Hstep.
    exists [], (persona, lines), files, []. split; [done|]. split; [done|].
    cbn [fst snd zip_with concat]. rewrite app_nil_r.
    unfold persona_partition in *.
    destruct (persona_rows lines) as [rows|e0] eqn:Hrows.
    + destruct (fst (split_eval rows cfg _)) as [[eval_rows remaining_rows]|e0]; [done|].
      simplify_eq. split; [done|]. by destruct rs'.
    + simplify_eq. split; [done|]. by destruct rs'.
Qed.

Lemma on_rng_shuffle {A} (x : list A) rs :
  exists y g, on_rng (shuffle x) rs = (Returns y, mk_run_state g (fs_log rs)) /\ y ≡ₚ x.
Proof using randbelow_lt.
  destruct (shuffle_perm x (rng rs)) as (y & g & Hsh & Hperm).
  exists y, g. unfold on_rng. by rewrite Hsh.
Qed.

(** The part of [build_eval_datasets] after the loop returns. *)
Lemma build_body_run cfg listing rs :
  build_body cfg listing rs
  = match discover_persona_files listing with
    | [] => (Raises FileNotFoundError, rs)
    | files =>
        match for_each (persona_step cfg) files (mk_build_state [] [] []) rs with
        | (Raises e, rs') => (Raises e, rs')
        | (Returns st, rs') =>
            let '(r1, g1) := shuffle (sft_eval_all st) (rng rs') in
            match r1 with
            | Raises e => (Raises e, mk_run_state g1 (fs_log rs'))
            | Returns sft_eval =>
                let '(r2, g2) := shuffle (sft_train_all st) g1 in
                match r2 with
                | Raises e =>
                    (Raises e,
                     mk_run_state g2 (fs_log rs' ++ [WriteJsonl (sft_eval_file cfg) sft_eval]))
                | Returns sft_train =>
                    let summary := mk_Summary cfg (personas st)
                                     (length sft_eval) (sft_eval_file cfg)
                                     (length sft_train) (sft_train_file cfg) in
                    (Returns summary,
                     mk_run_state g2
                       (fs_log rs' ++ closing_writes cfg sft_eval sft_train summary))
                end
            end
        end
    end.
Proof.
  unfold build_body. destruct (discover_persona_files listing) as [|file files]; [done|].
  unfold bind at 1.
  destruct (for_each (persona_step cfg) (file :: files) _ rs) as [[st|e] rs']; [|done].
  unfold bind at 1, on_rng at 1.
  destruct (shuffle (sft_eval_all st) (rng rs')) as [[sft_eval|e] g1]; [|done].
  unfold bind at 1, write_jsonl at 1, fs_do at 1. cbn [rng fs_log].
  unfold bind at 1, on_rng at 1. cbn [rng fs_log].
  destruct (shuffle (sft_train_all st) g1) as [[sft_train|e] g2]; [|done].
  unfold bind, write_jsonl, fs_do, ret, closing_writes. cbn [rng fs_log].
  by rewrite <- !app_assoc.
Qed.

(** What a returning run has done, in full. *)
Lemma build_eval_datasets_inv cfg listing log summary out :
  build_eval_datasets cfg listing log = (Returns summary, out) ->
  exists parts sft_eval sft_train,
    Forall2 (partitioned cfg) (discover_persona_files listing) parts
    /\ sft_eval ≡ₚ concat parts.*1
    /\ sft_train ≡ₚ concat parts.*2
    /\ summary = mk_Summary cfg
                   (zip_with (summary_entry cfg) (discover_persona_files listing) parts)
                   (length sft_eval) (sft_eval_file cfg)
                   (length sft_train) (sft_train_file cfg)
    /\ out = log
             ++ concat (zip_with (fun file => partition_writes cfg file.1)
                                 (discover_persona_files listing) parts)
             ++ closing_writes cfg sft_eval sft_train summary.
Proof using randbelow_lt.
  intros Hrun. unfold build_eval_datasets in Hrun. rewrite build_body_run in Hrun.
  destruct (discover_persona_files listing) as [|file files]; [done|].
  destruct (for_each _ _ _ _) as [[st|e] rs'] eqn:Hloop; [|done].
  apply persona_loop_returns in Hloop as (parts & Hparts & -> & ->).
  cbn [rng fs_log sft_eval_all sft_train_all personas app] in Hrun.
  destruct (shuffle_perm (concat parts.*1) (Random (seed cfg))) as (sft_eval & g1 & H1 & Hp1).
  rewrite H1 in Hrun.
  destruct (shuffle_perm (concat parts.*2) g1) as (sft_train & g2 & H2 & Hp2).
  rewrite H2 in Hrun. cbn [fs_log] in Hrun. simplify_eq.
  exists parts, sft_eval, sft_train. by rewrite <- app_assoc.
Qed.

(** The parts of all files, taken together, are the rows of all files. *)
Lemma partitioned_all cfg files parts :
  Forall2 (partitioned cfg) files parts ->
  exists rowss,
    Forall2 (fun file rows => persona_rows file.2 = Returns rows) files rowss
    /\ concat parts.*1 ++ concat parts.*2 ≡ₚ concat rowss.
Proof using randbelow_lt.
  induction 1 as [|file part files parts Hpart _ (rowss & Hrows & Hperm)]; [by exists []|].
  destruct (partitioned_rows _ _ _ Hpart) as (rows & Hfile & Hcut & _).
  exists (rows :: rowss). split; [by constructor|].
  rewrite !fmap_cons. cbn [concat]. rewrite <- Hcut, <- Hperm.
  rewrite <- !app_assoc. f_equiv. rewrite !app_assoc. f_equiv. apply Permutation_app_comm.
Qed.

(** What a file that cannot be read or split raises. *)
Lemma persona_partition_raises cfg persona lines e :
  persona_partition cfg persona lines = Raises e ->
  (persona_rows lines = Raises JSONDecodeError /\ e = JSONDecodeError)
  \/ (exists rows, persona_rows lines = Returns rows /\ rows <> []
                   /\ round (float_mul (float_of_int (Z.of_nat (length rows)))
                                       (eval_ratio cfg)) = Raises e
                   /\ (e = OverflowError \/ e = ValueError)).
Proof using randbelow_lt.
  unfold persona_partition, persona_rows.
  rewrite iter_jsonl_run. cbn [fst].
  destruct (mapM json_loads _) as [rows|]; [|intros [= <-]; by left].
  intros Hsplit. right. exists rows. split; [done|].
  destruct rows as [|row rows]; [done|]. split; [done|].
  set (all := row :: rows) in *. assert (Hne : all <> []) by done. clearbody all.
  destruct (round (float_mul (float_of_int (Z.of_nat (length all))) (eval_ratio cfg)))
    as [r|e'] eqn:Hr.
  - destruct (split_eval_rows all cfg r (Random (persona_seed (seed cfg) persona)) Hne Hr)
      as (indices & s' & _ & _ & Hrun).
    by rewrite Hrun in Hsplit.
  - destruct (shuffle_perm (seq 0 (length all)) (Random (persona_seed (seed cfg) persona)))
      as (indices & s' & Hsh & _).
    assert (Hrun : fst (split_eval all cfg (Random (persona_seed (seed cfg) persona)))
                   = Raises e').
    { destruct all as [|? ?]; [done|]. unfold split_eval.
      rewrite (bind_returns _ _ _ _ _ Hsh). unfold desired_eval, bind, lift.
      by rewrite Hr. }
    rewrite Hrun in Hsplit. simplify_eq. split; [done|].
    unfold round in Hr. destruct (float_mul _ _); simplify_eq; eauto.
Qed.

(** What a raising run has done, in full. *)
Lemma build_eval_datasets_raises cfg listing log e out :
  build_eval_datasets cfg listing log = (Raises e, out) ->
  (discover_persona_files listing = [] /\ e = FileNotFoundError /\ out = log)
  \/ (exists done file rest parts,
        discover_persona_files listing = done ++ file :: rest
        /\ Forall2 (partitioned cfg) done parts
        /\ persona_partition cfg file.1 file.2 = Raises e
        /\ out = log ++ concat (zip_with (fun file => partition_writes cfg file.1)
                                         done parts)).
Proof using randbelow_lt.
  intros Hrun. unfold build_eval_datasets in Hrun. rewrite build_body_run in Hrun.
  destruct (discover_persona_files listing) as [|file files]; [left; by simplify_eq|].
  right. destruct (for_each _ _ _ _) as [[st|e'] rs'] eqn:Hloop.
  - exfalso.
    destruct (shuffle_perm (sft_eval_all st) (rng rs')) as (sft_eval & g1 & H1 & _).
    rewrite H1 in Hrun.
    destruct (shuffle_perm (sft_train_all st) g1) as (sft_train & g2 & H2 & _).
    by rewrite H2 in Hrun.
  - simplify_eq.
    apply persona_loop_raises in Hloop as (done & f & rest & parts & Hfiles & Hparts & Hf & ->).
    by exists done, f, rest, parts.
Qed.

(** X5. When the directory has no persona file, that is no [*.jsonl] file
    other than [conversations.jsonl], [build_eval_datasets] raises
    [FileNotFoundError] and has written nothing; [discover_persona_files]
    finds no file in this case, and in no other. *)
Theorem build_eval_datasets_no_persona (cfg : EvalSplitConfig)
    (listing : list (string * list string)) (log : list fs_op) :
  (Forall (fun file => file.1 = "conversations") listing ->
   build_eval_datasets cfg listing log = (Raises FileNotFoundError, log))
  /\ (discover_persona_files listing = []
      <-> Forall (fun file => file.1 = "conversations") listing).
Proof.
  destruct (discover_fold listing []) as (_ & Hnot & Hsub & Hall & _).
  fold (discover_persona_files listing) in Hnot, Hsub, Hall.
  assert (Hnone : Forall (fun file => file.1 = "conversations") listing ->
                  discover_persona_files listing = []).
  { intros Hconv.
    destruct (discover_persona_files listing) as [|[stem lines] files] eqn:Hfiles; [done|].
    exfalso. rewrite Forall_forall in Hconv. apply Hnot; [apply not_elem_of_nil|].
    rewrite <- (Hconv (stem, lines)); [left|].
    destruct (Hsub stem lines) as [Hin|Hin]; [left | by apply elem_of_nil in Hin | done]. }
  split; [|split; [|exact Hnone]].
  - intros Hconv. unfold build_eval_datasets. rewrite build_body_run.
    by rewrite (Hnone Hconv).
  - intros Hfiles. apply Forall_forall. intros [stem lines] Hin.
    destruct (decide (stem = "conversations")) as [|Hstem]; [done|].
    exfalso. specialize (Hall stem). rewrite Hfiles in Hall.
    eapply elem_of_nil, Hall. right. split; [|done].
    apply list_elem_of_fmap. by exists (stem, lines).
Qed.

(** X6. A run of [build_eval_datasets] that returns has written, in this
    order and nothing else: for each persona file, in the order of the file
    names, the eval rows and then the train rows that the file is split
    into; the combined eval file and the combined train file; the four
    directories; and [meta.json] with the summary it returns.  The combined
    files hold the eval rows, and the train rows, of all personas in a
    shuffled order; between them, they hold every row of every persona file
    as often as the files have it. *)
Theorem build_eval_datasets_writes (cfg : EvalSplitConfig)
    (listing : list (string * list string)) (log out : list fs_op) (summary : Summary) :
  build_eval_datasets cfg listing log = (Returns summary, out) ->
  let files := discover_persona_files listing in
  exists parts sft_eval sft_train rowss,
    Forall2 (partitioned cfg) files parts
    /\ out = log
             ++ concat (zip_with (fun file => partition_writes cfg file.1) files parts)
             ++ closing_writes cfg sft_eval sft_train summary
    /\ sft_eval ≡ₚ concat parts.*1
    /\ sft_train ≡ₚ concat parts.*2
    /\ Forall2 (fun file rows => persona_rows file.2 = Returns rows) files rowss
    /\ sft_eval ++ sft_train ≡ₚ concat rowss.
Proof using randbelow_lt.
  intros Hrun files. subst files.
  apply build_eval_datasets_inv in Hrun
    as (parts & sft_eval & sft_train & Hparts & Hp1 & Hp2 & _ & Hout).
  destruct (partitioned_all _ _ _ Hparts) as (rowss & Hrows & Hall).
  exists parts, sft_eval, sft_train, rowss.
  repeat (split; [done|]). by rewrite Hp1, Hp2.
Qed.

(** The file of a persona under a directory, under the current directory
    and under the root. *)
Lemma path_join_examples :
  lora_eval_file default_cfg "brother" = "chats_evals/lora/brother.jsonl"
  /\ path_join (path_join "." "lora") "brother.jsonl" = "lora/brother.jsonl"
  /\ path_join (path_join "/" "lora") "brother.jsonl" = "/lora/brother.jsonl".
Proof. split; [reflexivity|]. split; reflexivity. Qed.

Lemma sum_list_lengths {A} (ls : list (list A)) :
  length (concat ls) = sum_list (length <$> ls).
Proof. induction ls as [|l ls IH]; [done|]. simpl. by rewrite length_app, IH. Qed.

(** X7. The summary a run of [build_eval_datasets] over persona files of
    ASCII text returns: it holds the configuration and one entry for each
    persona file, in the order of the file names, with the name of the
    persona and the number of rows of its file; in each entry the total is
    the sum of the eval count and the remaining count; and the two combined
    totals are the sums of the eval counts and of the remaining counts of the
    entries. *)
Theorem build_eval_datasets_summary (cfg : EvalSplitConfig)
    (listing : list (string * list string)) (log out : list fs_op) (summary : Summary) :
  Forall (fun file => Forall (fun line => Py.isascii line = true) file.2) listing ->
  build_eval_datasets cfg listing log = (Returns summary, out) ->
  sum_config summary = cfg
  /\ Forall2 (fun file entry =>
                sum_persona entry = file.1
                /\ (exists rows, persona_rows file.2 = Returns rows
                                 /\ sum_total entry = length rows))
             (discover_persona_files listing) (sum_personas summary)
  /\ Forall (fun entry => sum_total entry = (sum_eval entry + sum_remaining entry)%nat)
            (sum_personas summary)
  /\ sft_eval_total summary = sum_list (sum_eval <$> sum_personas summary)
  /\ sft_train_total summary = sum_list (sum_remaining <$> sum_personas summary).
Proof using randbelow_lt.
  intros _ Hrun.
  apply build_eval_datasets_inv in Hrun
    as (parts & sft_eval & sft_train & Hparts & Hp1 & Hp2 & -> & _).
  cbn [sum_config sum_personas sft_eval_total sft_train_total].
  split; [done|].
  rewrite Hp1, Hp2, !sum_list_lengths. clear Hp1 Hp2.
  generalize dependent (discover_persona_files listing). intros files Hparts.
  induction Hparts as [|file part files parts Hpart _ IH]; [by repeat split; constructor|].
  destruct IH as (Hentries & Htotals & He & Ht).
  destruct (partitioned_rows _ _ _ Hpart) as (rows & Hrows & Hcut & _).
  cbn [zip_with]. rewrite !fmap_cons. cbn [sum_list sum_list_with].
  split; [|split; [|split]].
  - constructor; [|done]. cbn. split; [done|].
    exists rows. split; [done|]. by rewrite <- Hcut, length_app.
  - by constructor.
  - cbn. by rewrite He.
  - cbn. by rewrite Ht.
Qed.

(** X8. A run of [build_eval_datasets] over persona files of ASCII text that
    raises [JSONDecodeError] or [OverflowError] has stopped at the first
    persona file that cannot be read or split.  It has written the eval rows
    and the train rows of each persona before that one, and nothing else: no
    combined file, no directory and no [meta.json].  A [JSONDecodeError]
    comes from a line of the file that is not empty and that [json.loads]
    refuses, an [OverflowError] from [round], on a product of the number of
    rows and the ratio that is infinite. *)
Theorem build_eval_datasets_failure (cfg : EvalSplitConfig)
    (listing : list (string * list string)) (log out : list fs_op) (e : exn) :
  Forall (fun file => Forall (fun line => Py.isascii line = true) file.2) listing ->
  build_eval_datasets cfg listing log = (Raises e, out) ->
  e = JSONDecodeError \/ e = OverflowError ->
  exists done file rest parts,
    discover_persona_files listing = done ++ file :: rest
    /\ Forall2 (partitioned cfg) done parts
    /\ out = log ++ concat (zip_with (fun file => partition_writes cfg file.1) done parts)
    /\ ((e = JSONDecodeError /\ persona_rows file.2 = Raises JSONDecodeError)
        \/ (e = OverflowError
            /\ exists rows,
                persona_rows file.2 = Returns rows /\ rows <> []
                /\ round (float_mul (float_of_int (Z.of_nat (length rows))) (eval_ratio cfg))
                   = Raises OverflowError)).
Proof using randbelow_lt.
  intros _ Hrun Hkind.
  apply build_eval_datasets_raises in Hrun
    as [(_ & -> & _) | (before & file & rest & parts & Hfiles & Hparts & Hfile & ->)];
    [by destruct Hkind|].
  exists before, file, rest, parts. repeat (split; [done|]).
  apply persona_partition_raises in Hfile as [[? ->] | (rows & ? & ? & Hround & Hcase)];
    [by left|].
  right. destruct Hkind as [-> | ->]; [by destruct Hcase|].
  split; [done|]. by exists rows.
Qed.


(** *** The segmentation, over the whole list *)

Lemma chunk_step_inv messages chunks current_chunk i w st' w' :
  chunk_step messages (chunks, current_chunk) i w = (Returns st', w') ->
  exists p c td,
    messages !! (i - 1)%nat = Some p /\ messages !! i = Some c
    /\ gap_between p c = Some td
    /\ bind (if Qltb (gap_minutes td) (inject_Z 15) then ret true
             else if Qle_bool (gap_minutes td) (inject_Z 240)
                  then ask_llm_about_continuation current_chunk c
                  else match fromisoformat (timestamp c) with
                       | Some tc =>
                           if is_in_sleep_hours tc
                           then ask_llm_about_continuation current_chunk c
                           else ret false
                       | None => ret false
                       end)
            (fun should_continue : bool =>
               if should_continue then ret (chunks, current_chunk ++ [c])
               else ret (chunks ++ [current_chunk], [c])) w
       = (Returns st', w').
Proof.
  intros H. pose proof H as Hrun. unfold chunk_step in H.
  apply bind_inv in H as (p & w1 & Hp & H). apply or_raise_inv in Hp as [Hp ->].
  apply bind_inv in H as (c & w1 & Hc & H). apply or_raise_inv in Hc as [Hc ->].
  apply bind_inv in H as (tp & w1 & Htp & H). apply or_raise_inv in Htp as [Htp ->].
  apply bind_inv in H as (tc & w1 & Htc & H). apply or_raise_inv in Htc as [Htc ->].
  apply bind_inv in H as (td & w1 & Htd & _). apply or_raise_inv in Htd as [Htd ->].
  exists p, c, td. split; [done|]. split; [done|].
  split; [unfold gap_between; by rewrite Htp, Htc|].
  rewrite (chunk_step_tiers _ _ _ _ _ _ _ _ _ _ Hp Hc Htp Htc Htd) in Hrun.
  by rewrite Htc.
Qed.

(** A question to the endpoint leaves the record of calls as it is, or adds
    one call to the configured endpoint and model. *)
Lemma ask_world conversation_so_far new_message w :
  exists b w', ask_llm_about_continuation conversation_so_far new_message w = (Returns b, w')
               /\ (w' = w \/ exists prompt, w' = w ++ [mk_post_call LLM_ENDPOINT LLM_MODEL prompt]).
Proof.
  destruct conversation_so_far as [|first rest].
  - exists false, w. split; [|by left].
    unfold ask_llm_about_continuation, try_except, bind. by rewrite build_prompt_nil.
  - destruct (ask_consults first rest new_message w) as [b Hask].
    exists b, (consulted w first (first :: rest) new_message).
    split; [exact Hask|]. right. by eexists.
Qed.

Lemma chunk_step_world messages st i w st' w' :
  chunk_step messages st i w = (Returns st', w') ->
  w' = w \/ exists prompt, w' = w ++ [mk_post_call LLM_ENDPOINT LLM_MODEL prompt].
Proof.
  destruct st as [chunks current_chunk]. intros H.
  apply chunk_step_inv in H as (p & c & td & _ & _ & _ & H).
  apply bind_inv in H as (yes & w1 & Hyes & H).
  assert (w' = w1) as -> by (destruct yes; cbv [ret] in H; by simplify_eq).
  destruct (ask_world current_chunk c w) as (b & w2 & Hask & Hw).
  destruct (Qltb _ _); [left; cbv [ret] in Hyes; by simplify_eq|].
  destruct (Qle_bool _ _); [rewrite Hask in Hyes; by simplify_eq|].
  destruct (fromisoformat (timestamp c)) as [tc|]; [|left; cbv [ret] in Hyes; by simplify_eq].
  destruct (is_in_sleep_hours tc); [rewrite Hask in Hyes; by simplify_eq|].
  left. cbv [ret] in Hyes. by simplify_eq.
Qed.

(** What a run of [chunk_by_llm] does to the record of calls. *)
Lemma chunk_by_llm_world messages w w' chunks :
  chunk_by_llm messages w = (Returns chunks, w') ->
  exists calls,
    w' = w ++ calls
    /\ (length calls <= length messages - 1)%nat
    /\ Forall (fun call => post_url call = LLM_ENDPOINT /\ post_model call = LLM_MODEL) calls.
Proof.
  destruct messages as [|first rest].
  { intros [= <- <-]. exists []. by rewrite app_nil_r. }
  unfold chunk_by_llm. destruct (length (first :: rest) <? 2)%nat.
  { intros [= <- <-]. exists []. rewrite app_nil_r. split; [done|]. split; [simpl; lia|done]. }
  intros H. apply bind_inv in H as ([cs cur] & w1 & Hloop & H).
  assert (w' = w1) as -> by (destruct cur; cbv [ret] in H; by simplify_eq).
  pose (P := fun (done : list nat) (_ : list (list Message) * list Message) (t : World) =>
               exists calls,
                 t = w ++ calls /\ (length calls <= length done)%nat
                 /\ Forall (fun call => post_url call = LLM_ENDPOINT
                                        /\ post_model call = LLM_MODEL) calls).
  assert (HP : P (seq 1 (length (first :: rest) - 1)) (cs, cur) w1).
  { eapply (for_each_ind (chunk_step (first :: rest)) P); [| | exact Hloop].
    - intros done x todo st s st' s' _ (calls & -> & Hlen & Hall) Hstep.
      apply chunk_step_world in Hstep as [-> | [prompt ->]].
      + exists calls. split; [done|]. split; [rewrite length_app; lia | done].
      + exists (calls ++ [mk_post_call LLM_ENDPOINT LLM_MODEL prompt]).
        split; [by rewrite app_assoc|]. split; [rewrite !length_app; simpl; lia|].
        apply Forall_app. split; [done|]. by repeat constructor.
    - exists []. by rewrite app_nil_r. }
  destruct HP as (calls & -> & Hlen & Hall). exists calls.
  rewrite length_seq in Hlen. done.
Qed.

(** X9. On messages whose timestamps parse, [chunk_by_llm] returns and has
    only added to the record of calls: a run over [n] messages makes [n - 1]
    calls at most, one per pair of neighbours, each of them to the
    configured endpoint with the configured model; and it returns [n] chunks
    at most. *)
Theorem chunk_by_llm_calls (messages : list Message) (w : World) :
  well_timed messages ->
  exists chunks calls,
    chunk_by_llm messages w = (Returns chunks, w ++ calls)
    /\ (length calls <= length messages - 1)%nat
    /\ Forall (fun call => post_url call = LLM_ENDPOINT /\ post_model call = LLM_MODEL) calls
    /\ (length chunks <= length messages)%nat.
Proof.
  intros Hwt. destruct (chunk_by_llm_returns messages w Hwt) as (chunks & w' & Hrun).
  destruct (chunk_by_llm_world _ _ _ _ Hrun) as (calls & -> & Hlen & Hall).
  exists chunks, calls. repeat (split; [done|]).
  apply chunk_by_llm_partial in Hrun as [Hcat Hne]. rewrite <- Hcat.
  clear Hcat. induction Hne as [|chunk chunks Hchunk _ IH]; [done|].
  simpl. rewrite length_app. destruct chunk; [done|]. simpl. lia.
Qed.

(** X10. Messages each of which comes less than 15 minutes after the one
    before it stay together: [chunk_by_llm] returns the one chunk that holds
    them all, and does not call the endpoint. *)
Theorem chunk_by_llm_close_messages (messages : list Message) (w : World) :
  messages <> [] ->
  (forall i p c, messages !! i = Some p -> messages !! S i = Some c -> close_in_time p c) ->
  chunk_by_llm messages w = (Returns [messages], w).
Proof.
  intros Hne Hclose. destruct messages as [|first rest]; [done|].
  unfold chunk_by_llm. destruct (length (first :: rest) <? 2)%nat; [done|].
  set (messages := first :: rest) in *.
  assert (Hhead : take 1 messages = [first]) by done.
  clearbody messages.
  destruct (for_each_total (chunk_step messages)
              (fun done st t => st = ([], take (1 + length done) messages) /\ t = w)
              (seq 1 (length messages - 1))) with (st := ([] : list (list Message), [first])) (s := w)
    as ([cs cur] & w1 & Hloop & Hst & ->).
  - intros done x todo st s Hxs [-> ->].
    apply seq_split_nth in Hxs as [-> Hlt].
    destruct (lookup_lt_is_Some_2 messages (length done)) as [p Hp]; [lia|].
    destruct (lookup_lt_is_Some_2 messages (S (length done))) as [c Hc]; [lia|].
    destruct (Hclose _ _ _ Hp Hc) as (td & Hgap & Hfar). apply Qltb_lt in Hfar.
    unfold gap_between in Hgap.
    destruct (fromisoformat (timestamp p)) as [tp|] eqn:Htp; [|done].
    destruct (fromisoformat (timestamp c)) as [tc|] eqn:Htc; [|done].
    eexists _, _. split.
    + rewrite (chunk_step_tiers _ (1 + length done) p c tp tc td);
        [|by replace (1 + length done - 1)%nat with (length done) by lia|done..].
      rewrite Hfar. reflexivity.
    + split; [|done]. f_equal. rewrite length_app. cbn [length].
      replace (1 + (length done + 1))%nat with (S (S (length done))) by lia.
      replace (1 + length done)%nat with (S (length done)) by lia.
      by rewrite (take_S_r _ _ _ Hc).
  - cbn [length Nat.add]. by rewrite Hhead.
  - rewrite (bind_returns _ _ _ _ _ Hloop). simplify_eq.
    rewrite length_seq, take_ge by lia.
    destruct messages; [done|]. reflexivity.
Qed.

(** One more message at the end of a list that is cut by time: it opens a
    chunk when it is far from the last message, and joins the last chunk
    otherwise. *)
Lemma time_split_snoc messages p c chunks current :
  time_split messages = chunks ++ [current] -> last messages = Some p ->
  time_split (messages ++ [c])
  = if far_apart p c then chunks ++ [current; [c]] else chunks ++ [current ++ [c]].
Proof.
  revert chunks current. induction messages as [|a messages IH]; intros chunks current; [done|].
  destruct messages as [|b messages].
  - intros Hsplit [= <-]. simpl in Hsplit.
    destruct chunks as [|? [|? ?]]; simplify_eq/=. by destruct (far_apart a c).
  - intros Hsplit Hlast. rewrite last_cons_cons in Hlast.
    change (time_split ((a :: b :: messages) ++ [c]))
      with (match time_split ((b :: messages) ++ [c]) with
            | (n :: chunk) :: others =>
                if far_apart a n then [a] :: (n :: chunk) :: others
                else (a :: n :: chunk) :: others
            | others => [a] :: others
            end).
    change (time_split (a :: b :: messages))
      with (match time_split (b :: messages) with
            | (n :: chunk) :: others =>
                if far_apart a n then [a] :: (n :: chunk) :: others
                else (a :: n :: chunk) :: others
            | others => [a] :: others
            end) in Hsplit.
    assert (Hb : exists chunk others, time_split (b :: messages) = (b :: chunk) :: others).
    { simpl. destruct (time_split messages) as [|[|n chunk] others]; [by eexists _, _ ..|].
      destruct (far_apart b n); by eexists _, _. }
    destruct Hb as (chunk & others & Hb). rewrite Hb in Hsplit.
    destruct others as [|final others' _] using rev_ind.
    + specialize (IH [] (b :: chunk) Hb Hlast). rewrite IH.
      destruct (far_apart a b) eqn:Hab.
      * destruct chunks as [|? [|? [|? ?]]]; simplify_eq/=.
        destruct (far_apart p c); simpl; by rewrite Hab.
      * destruct chunks as [|? [|? ?]]; simplify_eq/=.
        destruct (far_apart p c); simpl; by rewrite Hab.
    + specialize (IH ((b :: chunk) :: others') final Hb Hlast). rewrite IH.
      destruct (far_apart a b) eqn:Hab.
      * change ([a] :: (b :: chunk) :: others' ++ [final])
          with (([a] :: (b :: chunk) :: others') ++ [final]) in Hsplit.
        apply app_inj_tail in Hsplit as [<- <-].
        destruct (far_apart p c); simpl; by rewrite Hab.
      * change ((a :: b :: chunk) :: others' ++ [final])
          with (((a :: b :: chunk) :: others') ++ [final]) in Hsplit.
        apply app_inj_tail in Hsplit as [<- <-].
        destruct (far_apart p c); simpl; by rewrite Hab.
Qed.

Lemma time_split_cons p rest :
  exists chunk others, time_split (p :: rest) = (p :: chunk) :: others.
Proof.
  simpl. destruct (time_split rest) as [|[|c chunk] others]; [by eexists _, _ ..|].
  destruct (far_apart p c); by eexists _, _.
Qed.

(** The cut by time: the chunks, joined, are the list; inside a chunk no two
    neighbours are far apart; and where one chunk ends and the next begins,
    the two messages are far apart. *)
Lemma time_split_spec messages :
  concat (time_split messages) = messages
  /\ Forall (fun chunk =>
               chunk <> []
               /\ forall i p c, chunk !! i = Some p -> chunk !! S i = Some c ->
                                far_apart p c = false)
            (time_split messages)
  /\ (forall i chunk next p c,
         time_split messages !! i = Some chunk -> time_split messages !! S i = Some next ->
         last chunk = Some p -> head next = Some c -> far_apart p c = true).
Proof.
  induction messages as [|a rest (Hcat & Hin & Hout)].
  { split; [done|]. split; [done|]. by intros [|?]. }
  simpl. destruct (time_split rest) as [|[|b chunk] others] eqn:Hsplit.
  - simpl in *. subst rest. split; [done|]. split.
    + constructor; [|done]. split; [done|]. by intros [|?].
    + by intros [|[|?]].
  - apply Forall_cons in Hin as [[Hne _] _]. done.
  - pose proof Hin as Hin'. apply Forall_cons in Hin' as [[_ Hchunk] Hothers].
    destruct (far_apart a b) eqn:Hab.
    + split; [by simpl in *; rewrite <- Hcat|]. split.
      * constructor; [|done]. split; [done|]. by intros [|?].
      * intros [|i] c1 c2 p c H1 H2 Hp Hc; simplify_eq/=; [done|].
        by apply (Hout i c1 c2).
    + split; [by simpl in *; rewrite <- Hcat|]. split.
      * constructor; [|done]. split; [done|].
        intros [|i] p c Hp Hc; simplify_eq/=; [done|]. by apply (Hchunk i).
      * intros [|i] c1 c2 p c H1 H2 Hp Hc; simplify_eq/=.
        -- apply (Hout 0%nat (b :: chunk) c2); try done.
        -- by apply (Hout (S i) c1 c2).
Qed.

(** With the endpoint down, a question gets no for an answer. *)
Lemma ask_down conversation_so_far new_message w :
  endpoint_down ->
  exists w', ask_llm_about_continuation conversation_so_far new_message w = (Returns false, w').
Proof.
  intros Hdown. destruct conversation_so_far as [|first rest].
  - exists w. unfold ask_llm_about_continuation, try_except, bind.
    by rewrite build_prompt_nil.
  - eexists. ask_unfold.
    match goal with |- context [requests_post w ?call] =>
      specialize (Hdown w call); destruct (requests_post w call) as [|r] end; [done|].
    apply Z.eqb_neq in Hdown. simpl. by rewrite Hdown.
Qed.

(** X11. With the endpoint out of reach or answering with an error status,
    the segmentation falls back to time alone, on messages whose timestamps
    parse: [chunk_by_llm] cuts the messages exactly between the neighbours
    that are 15 minutes or more apart, the hour of the day playing no part.
    Inside a chunk each message comes less than 15 minutes after the one
    before it, and where a chunk ends and the next begins the two messages
    are 15 minutes or more apart. *)
Theorem chunk_by_llm_endpoint_down (messages : list Message) (w : World) :
  endpoint_down -> well_timed messages ->
  exists chunks w',
    chunk_by_llm messages w = (Returns chunks, w')
    /\ chunks = time_split messages
    /\ Forall (fun chunk =>
                 forall i p c, chunk !! i = Some p -> chunk !! S i = Some c ->
                               close_in_time p c)
              chunks
    /\ (forall i chunk next p c,
           chunks !! i = Some chunk -> chunks !! S i = Some next ->
           last chunk = Some p -> head next = Some c ->
           exists td, gap_between p c = Some td /\ (inject_Z 15 <= gap_minutes td)%Q).
Proof.
  intros Hdown Hwt.
  cut (exists w', chunk_by_llm messages w = (Returns (time_split messages), w')).
  { intros [w' Hrun]. exists (time_split messages), w'. split; [done|]. split; [done|].
    destruct (time_split_spec messages) as (Hcat & Hin & Hout).
    assert (Hgap : forall p c, p ∈ messages -> c ∈ messages -> is_Some (gap_between p c)).
    { intros p c Hp Hc.
      destruct (well_timed_sub _ p c Hwt Hp Hc) as (tp & tc & td & Htp & Htc & Htd).
      exists td. unfold gap_between. by rewrite Htp, Htc. }
    split.
    - apply Forall_forall. intros chunk Hchunk. rewrite Forall_forall in Hin.
      destruct (Hin _ Hchunk) as [_ Hnear]. intros i p c Hp Hc.
      destruct (Hgap p c) as [td Htd].
      { rewrite <- Hcat. apply elem_of_concat. exists chunk.
        split; [by eapply list_elem_of_lookup_2 | done]. }
      { rewrite <- Hcat. apply elem_of_concat. exists chunk.
        split; [by eapply list_elem_of_lookup_2 | done]. }
      exists td. split; [done|]. specialize (Hnear i p c Hp Hc).
      unfold far_apart in Hnear. rewrite Htd in Hnear.
      apply negb_false_iff in Hnear. by apply Qltb_lt.
    - intros i chunk next p c Hi HSi Hp Hc.
      destruct (Hgap p c) as [td Htd].
      { rewrite <- Hcat. apply elem_of_concat. exists chunk.
        split; [|by eapply list_elem_of_lookup_2].
        rewrite last_lookup in Hp. by eapply list_elem_of_lookup_2. }
      { rewrite <- Hcat. apply elem_of_concat. exists next.
        split; [|by eapply list_elem_of_lookup_2].
        destruct next; simplify_eq/=. left. }
      exists td. split; [done|]. specialize (Hout i chunk next p c Hi HSi Hp Hc).
      unfold far_apart in Hout. rewrite Htd in Hout.
      apply negb_true_iff in Hout. by apply Qltb_ge. }
  destruct (chunk_by_llm_returns messages w Hwt) as (chunks & w' & Hrun).
  exists w'. rewrite Hrun. do 2 f_equal.
  destruct messages as [|first rest]; [cbv in Hrun; by simplify_eq|].
  unfold chunk_by_llm in Hrun.
  destruct (length (first :: rest) <? 2)%nat eqn:Hlen.
  { apply Nat.ltb_lt in Hlen. destruct rest; [|simpl in Hlen; lia].
    cbv [ret] in Hrun. by simplify_eq. }
  apply bind_inv in Hrun as ([cs cur] & w1 & Hloop & Hrun).
  pose proof (chunk_loop_partition first rest cs cur w w1 Hloop) as (_ & Hcur & _).
  set (messages := first :: rest) in *.
  assert (Hhead : take 1 messages = [first]) by done.
  assert (Hlen1 : (1 <= length messages)%nat) by (simpl; lia).
  clearbody messages.
  pose (P := fun (done : list nat) (st : list (list Message) * list Message) (_ : World) =>
               time_split (take (1 + length done) messages) = st.1 ++ [st.2]).
  assert (HP : P (seq 1 (length messages - 1)) (cs, cur) w1).
  { eapply (for_each_ind (chunk_step messages) P); [| | exact Hloop].
    - intros done x todo [cs0 cur0] s st' s' Hxs Hinv Hstep. unfold P in *.
      cbn [fst snd] in Hinv.
      apply seq_split_nth in Hxs as [-> Hlt].
      apply chunk_step_inv in Hstep as (p & c & td & Hp & Hc & Hgap & Hstep).
      replace (1 + length done - 1)%nat with (length done) in Hp by lia.
      rewrite length_app. cbn [length].
      replace (1 + (length done + 1))%nat with (S (1 + length done)) by lia.
      rewrite (take_S_r _ _ _ Hc).
      rewrite (time_split_snoc _ p c cs0 cur0 Hinv);
        [|rewrite last_lookup, length_take, Nat.min_l by lia;
          rewrite lookup_take_lt by lia; exact Hp].
      unfold far_apart. rewrite Hgap.
      apply bind_inv in Hstep as (yes & w2 & Hyes & Hstep).
      destruct (ask_down cur0 c s Hdown) as (w3 & Hask).
      destruct (Qltb _ _); simpl.
      + cbv [ret] in Hyes, Hstep. by simplify_eq.
      + assert (yes = false) as ->.
        { destruct (Qle_bool _ _); [rewrite Hask in Hyes; by simplify_eq|].
          destruct (fromisoformat (timestamp c)) as [tc|];
            [|cbv [ret] in Hyes; by simplify_eq].
          destruct (is_in_sleep_hours tc); [rewrite Hask in Hyes; by simplify_eq|].
          cbv [ret] in Hyes. by simplify_eq. }
        cbv [ret] in Hstep. simplify_eq. cbn [fst snd]. by rewrite <- app_assoc.
    - unfold P. cbn [length Nat.add fst snd]. by rewrite Hhead. }
  unfold P in HP. cbn [fst snd] in HP.
  rewrite length_seq, take_ge in HP by lia.
  destruct cur; [done|]. cbv [ret] in Hrun. by simplify_eq.
Qed.

(** A loop that raises has done so in one of its rounds, after the rounds
    before have returned. *)
Lemma for_each_raises {S A X} (body : A -> X -> M S A) (xs : list X) st s e s' :
  for_each body xs st s = (Raises e, s') ->
  exists before x rest st1 s1,
    xs = before ++ x :: rest
    /\ for_each body before st s = (Returns st1, s1)
    /\ body st1 x s1 = (Raises e, s').
Proof.
  revert st s. induction xs as [|x xs IH]; intros st s Hrun; [done|].
  cbn [for_each] in Hrun. unfold bind in Hrun.
  destruct (body st x s) as [[st1|e1] s1] eqn:Hbody.
  - destruct (IH _ _ Hrun) as (before & y & rest & st2 & s2 & -> & Hbefore & Hy).
    exists (x :: before), y, rest, st2, s2. split; [done|]. split; [|done].
    cbn [for_each]. by rewrite (bind_returns _ _ _ _ _ Hbody).
  - simplify_eq. by exists [], x, xs, st, s.
Qed.

(** A round raises on a timestamp that does not parse, or on two timestamps
    of which one has an offset and the other has none. *)
Lemma chunk_step_raises messages st i w e w' :
  chunk_step messages st i w = (Raises e, w') ->
  (0 < i < length messages)%nat ->
  exists p c,
    messages !! (i - 1)%nat = Some p /\ messages !! i = Some c
    /\ gap_between p c = None
    /\ (e = ValueError \/ e = TypeError).
Proof.
  destruct st as [chunks current_chunk]. intros Hrun Hi.
  destruct (lookup_lt_is_Some_2 messages (i - 1)) as [p Hp]; [lia|].
  destruct (lookup_lt_is_Some_2 messages i) as [c Hc]; [lia|].
  exists p, c. split; [done|]. split; [done|].
  unfold gap_between.
  destruct (fromisoformat (timestamp p)) as [tp|] eqn:Htp; cycle 1.
  { split; [done|]. left. unfold chunk_step, bind, or_raise in Hrun.
    rewrite Hp in Hrun. cbv [ret raise] in Hrun. rewrite Hc in Hrun.
    cbv [ret raise] in Hrun. rewrite Htp in Hrun. by simplify_eq. }
  destruct (fromisoformat (timestamp c)) as [tc|] eqn:Htc; cycle 1.
  { split; [done|]. left. unfold chunk_step, bind, or_raise in Hrun.
    rewrite Hp in Hrun. cbv [ret raise] in Hrun. rewrite Hc in Hrun.
    cbv [ret raise] in Hrun. rewrite Htp in Hrun. cbv [ret raise] in Hrun.
    rewrite Htc in Hrun. by simplify_eq. }
  destruct (datetime_sub tc tp) as [td|] eqn:Htd; cycle 1.
  { split; [done|]. right. unfold chunk_step, bind, or_raise in Hrun.
    rewrite Hp in Hrun. cbv [ret raise] in Hrun. rewrite Hc in Hrun.
    cbv [ret raise] in Hrun. rewrite Htp in Hrun. cbv [ret raise] in Hrun.
    rewrite Htc in Hrun. cbv [ret raise] in Hrun. rewrite Htd in Hrun. by simplify_eq. }
  exfalso.
  destruct (chunk_step_returns _ _ _ _ _ _ _ chunks current_chunk w Hp Hc Htp Htc Htd)
    as (st' & w1 & Hret).
  congruence.
Qed.

(** X18. [chunk_by_llm] raises only on two messages or more, and only a
    [ValueError] or a [TypeError]: a timestamp of two neighbours does not
    parse, or the two cannot be subtracted.  With two messages or more, one
    timestamp that does not parse is enough for it to raise. *)
Theorem chunk_by_llm_bad_timestamp (messages : list Message) (w : World) :
  (forall e w',
      chunk_by_llm messages w = (Raises e, w') ->
      (e = ValueError \/ e = TypeError)
      /\ (2 <= length messages)%nat
      /\ exists i p c, messages !! i = Some p /\ messages !! S i = Some c
                       /\ gap_between p c = None)
  /\ ((2 <= length messages)%nat ->
      (exists m, m ∈ messages /\ fromisoformat (timestamp m) = None) ->
      exists e w', chunk_by_llm messages w = (Raises e, w')).
Proof.
  split.
  - intros e w' Hrun. destruct messages as [|first rest]; [done|].
    unfold chunk_by_llm in Hrun.
    destruct (length (first :: rest) <? 2)%nat eqn:Hlen; [done|].
    apply Nat.ltb_ge in Hlen. unfold bind in Hrun.
    destruct (for_each _ _ _ w) as [[[cs cur]|e1] w1] eqn:Hloop;
      [destruct cur; done|].
    simplify_eq.
    apply for_each_raises in Hloop as (before & i & rest' & st1 & s1 & Hseq & _ & Hstep).
    apply seq_split_nth in Hseq as [-> Hlt].
    apply chunk_step_raises in Hstep as (p & c & Hp & Hc & Hgap & He); [|lia].
    split; [done|]. split; [done|]. exists (length before), p, c.
    replace (1 + length before - 1)%nat with (length before) in Hp by lia. done.
  - intros Hlen (bad & Hbad & Hnone).
    destruct (chunk_by_llm messages w) as [[chunks|e] w'] eqn:Hrun; [|by eexists _, _].
    exfalso. destruct messages as [|first rest]; [simpl in Hlen; lia|].
    unfold chunk_by_llm in Hrun.
    rewrite (proj2 (Nat.ltb_ge _ _) Hlen) in Hrun.
    apply bind_inv in Hrun as ([cs cur] & w1 & Hloop & _).
    set (messages := first :: rest) in *. clearbody messages.
    pose (P := fun (done : list nat) (_ : list (list Message) * list Message) (_ : World) =>
                 done = []
                 \/ forall j m, (j < 1 + length done)%nat -> messages !! j = Some m ->
                                is_Some (fromisoformat (timestamp m))).
    assert (HP : P (seq 1 (length messages - 1)) (cs, cur) w1).
    { eapply (for_each_ind (chunk_step messages) P); [| | exact Hloop]; [|by left].
      intros done x todo [cs0 cur0] s st' s' Hxs Hinv Hstep. right.
      apply seq_split_nth in Hxs as [-> Hlt].
      apply chunk_step_inv in Hstep as (p & c & td & Hp & Hc & Hgap & _).
      replace (1 + length done - 1)%nat with (length done) in Hp by lia.
      unfold gap_between in Hgap.
      destruct (fromisoformat (timestamp p)) as [tp|] eqn:Htp; [|done].
      destruct (fromisoformat (timestamp c)) as [tc|] eqn:Htc; [|done].
      intros j m Hj Hm. rewrite length_app in Hj. cbn [length] in Hj.
      destruct (decide (j = 1 + length done)%nat) as [->|Hne]; [by simplify_eq|].
      destruct (decide (j = length done)) as [->|Hne']; [by simplify_eq|].
      destruct Hinv as [-> | Hinv]; [simpl in *; lia|].
      apply (Hinv j m); [lia | done]. }
    destruct HP as [Hnil | Hall].
    { apply (f_equal length) in Hnil. rewrite length_seq in Hnil. simpl in Hnil. lia. }
    apply list_elem_of_lookup in Hbad as [j Hj].
    destruct (Hall j bad) as [dt Hdt]; [|done|congruence].
    rewrite length_seq. apply lookup_lt_Some in Hj. lia.
Qed.

(** *** The records of the converter *)

(** What [chunk_to_chatml] has found in a chunk it accepts. *)
Lemma chunk_to_chatml_some chunk persona record :
  chunk_to_chatml chunk persona = Some record ->
  exists first final,
    (2 <= length chunk)%nat
    /\ head (trim chunk) = Some first /\ last (trim chunk) = Some final
    /\ record = mk_ChatML (map turn_of (runs (trim chunk))) persona
                          (timestamp first) (timestamp final)
    /\ exists msg, msg ∈ trim chunk /\ sender msg = YOUR_NAME.
Proof.
  intros Hsome.
  destruct (decide (length chunk < 2)%nat) as [Hshort | Hlong].
  { unfold chunk_to_chatml in Hsome. by rewrite (proj2 (Nat.ltb_lt _ _) Hshort) in Hsome. }
  rewrite chunk_to_chatml_trim in Hsome by lia.
  destruct (head (trim chunk)) as [first|]; [|done].
  destruct (last (trim chunk)) as [final|]; [|done].
  destruct (existsb _ _) eqn:Hhas; [|done]. simplify_eq.
  exists first, final. split; [lia|]. repeat (split; [done|]).
  by apply assistant_turn.
Qed.

(** The runs of a list that a message of somebody else opens: user runs at
    the even positions, assistant runs at the odd ones. *)
Lemma runs_roles chunk first :
  head chunk = Some first -> sender first <> YOUR_NAME ->
  forall i run, runs chunk !! i = Some run ->
                run_role run = if Nat.even i then "user" else "assistant".
Proof.
  intros Hhead Hfirst. destruct chunk as [|msg rest]; [done|].
  injection Hhead as ->.
  destruct (runs_spec (first :: rest)) as (_ & Huni & Halt).
  destruct (runs_cons first rest) as (run0 & others & Hruns).
  set (rs := runs (first :: rest)) in *. clearbody rs.
  assert (Hroles : forall run, run ∈ rs -> run_role run = "user" \/ run_role run = "assistant").
  { intros run Hin. rewrite Forall_forall in Huni. destruct (Huni run Hin) as [Hne _].
    destruct run as [|msg run]; [done|]. rewrite run_role_cons.
    destruct (role_of_cases msg) as [[_ ->] | [_ ->]]; eauto. }
  induction i as [|i IH]; intros run Hrun.
  - rewrite Hruns in Hrun. simplify_eq/=. rewrite run_role_cons. by apply role_of_user.
  - destruct (lookup_lt_is_Some_2 rs i) as [prev Hprev];
      [apply lookup_lt_Some in Hrun; lia|].
    specialize (IH prev Hprev). specialize (Halt i prev run Hprev Hrun).
    rewrite Nat.even_succ, <- Nat.negb_even.
    destruct (Hroles run) as [Hr | Hr]; [by eapply list_elem_of_lookup_2 | |];
      destruct (Nat.even i); simpl; congruence.
Qed.

Lemma trim_last chunk : trim chunk <> [] -> last (trim chunk) = last chunk.
Proof.
  intros Hne. destruct (trim_spec chunk) as (lead & Hchunk & _).
  rewrite Hchunk at 2. destruct (trim chunk) as [|msg kept] eqn:Htrim; [done|].
  clear. induction lead as [|a lead IH]; [done|].
  rewrite <- app_comm_cons. destruct (lead ++ msg :: kept) eqn:Heq; [by destruct lead|].
  by rewrite last_cons_cons.
Qed.

Lemma runs_length chunk : (length (runs chunk) <= length chunk)%nat.
Proof.
  induction chunk as [|msg rest IH]; [done|]. simpl.
  destruct (runs rest) as [|[|next run] others]; simpl in *; [lia..|].
  case_decide; simpl; lia.
Qed.

Lemma trim_length chunk : (length (trim chunk) <= length chunk)%nat.
Proof.
  destruct (trim_spec chunk) as (lead & Hchunk & _). rewrite Hchunk at 2.
  rewrite length_app. lia.
Qed.

(** X12. The turns of a record [chunk_to_chatml] returns change between the
    two roles from one turn to the next, and the first is a user turn: the
    turns at the even positions are user turns, those at the odd positions
    assistant turns.  There are two turns at least and no more than the
    chunk has messages.  The record carries the persona it was given, its
    end is the timestamp of the last message of the chunk, and its start is
    the timestamp of the first message of the chunk that somebody else has
    sent. *)
Theorem chunk_to_chatml_turns (chunk : list Message) (persona : string) (record : ChatML) :
  chunk_to_chatml chunk persona = Some record ->
  (forall i turn, rec_messages record !! i = Some turn ->
                  role turn = if Nat.even i then "user" else "assistant")
  /\ (2 <= length (rec_messages record) <= length chunk)%nat
  /\ rec_persona record = persona
  /\ (exists final, last chunk = Some final /\ timestamp_end record = timestamp final)
  /\ (exists lead first rest,
         chunk = lead ++ first :: rest
         /\ Forall (fun msg => sender msg = YOUR_NAME) lead
         /\ sender first <> YOUR_NAME
         /\ timestamp_start record = timestamp first).
Proof.
  intros Hsome.
  apply chunk_to_chatml_some in Hsome
    as (first & final & Hlen & Hhead & Hlast & -> & (self & Hself & Hsender)).
  destruct (trim_spec chunk) as (lead & Hchunk & Hlead & Hother).
  specialize (Hother first Hhead). cbn [rec_messages rec_persona timestamp_end timestamp_start].
  assert (Hroles : forall i turn,
             map turn_of (runs (trim chunk)) !! i = Some turn ->
             role turn = if Nat.even i then "user" else "assistant").
  { intros i turn Hturn. change map with (@fmap list _) in Hturn.
    apply list_lookup_fmap_Some in Hturn as (run & -> & Hrun).
    by apply (runs_roles (trim chunk) first Hhead Hother). }
  split; [done|]. split; [|split; [done|split]].
  - split.
    + destruct (map turn_of (runs (trim chunk))) as [|t0 [|t1 turns]] eqn:Hturns;
        [| |simpl; lia].
      * exfalso. apply (f_equal length) in Hturns. rewrite length_map in Hturns.
        destruct (runs_cons first (tail (trim chunk))) as (r & o & Hr).
        destruct (trim chunk) as [|? ?]; simplify_eq/=. by rewrite Hr in Hturns.
      * exfalso. pose proof (proj2 (assistant_turn (trim chunk))) as Hhas.
        rewrite Hturns in Hhas. specialize (Hhas (ex_intro _ self (conj Hself Hsender))).
        simpl in Hhas. rewrite orb_false_r in Hhas. apply bool_decide_eq_true in Hhas.
        specialize (Hroles 0%nat t0 eq_refl). simpl in Hroles. congruence.
    + rewrite length_map. etrans; [apply runs_length | apply trim_length].
  - exists final. split; [|done]. rewrite <- trim_last; [done|].
    intros Hnil. by rewrite Hnil in Hhead.
  - destruct (trim chunk) as [|first' rest] eqn:Htrim; simplify_eq/=.
    by exists lead, first, rest.
Qed.

(** *** The order of strings, and sorting *)

Lemma leb_cases (a b : string) :
  String.leb a b = true <-> OrderedTypeEx.String_as_OT.lt a b \/ a = b.
Proof.
  unfold String.leb. rewrite <- OrderedTypeEx.String_as_OT.cmp_lt,
    <- OrderedTypeEx.String_as_OT.cmp_eq.
  unfold OrderedTypeEx.String_as_OT.cmp.
  destruct (String.compare a b); (split; [intros ?; (by left) || (by right) || done
                                           | by intros [?|?]]).
Qed.

Lemma leb_refl (a : string) : String.leb a a = true.
Proof. apply leb_cases. by right. Qed.

Lemma leb_trans (a b c : string) :
  String.leb a b = true -> String.leb b c = true -> String.leb a c = true.
Proof.
  rewrite !leb_cases. intros [Hab | ->] [Hbc | ->]; eauto.
  left. by eapply OrderedTypeEx.String_as_OT.lt_trans.
Qed.

Lemma leb_false (a b : string) : String.leb a b = false -> String.leb b a = true.
Proof. intros Hab. destruct (String.leb_total a b); congruence. Qed.

Lemma pair_leb_trans (a b c : string * string) :
  Py.pair_leb a b = true -> Py.pair_leb b c = true -> Py.pair_leb a c = true.
Proof.
  unfold Py.pair_leb.
  destruct (decide (a.1 = b.1)) as [Hab|Hab], (decide (b.1 = c.1)) as [Hbc|Hbc].
  - rewrite decide_True by congruence. apply leb_trans.
  - rewrite decide_False by congruence. by rewrite Hab.
  - rewrite decide_False by congruence. by rewrite Hbc.
  - intros H1 H2. destruct (decide (a.1 = c.1)) as [Hac|Hac]; [|by eapply leb_trans].
    exfalso. apply Hab. apply String.leb_antisym; [done|]. by rewrite Hac.
Qed.

Lemma pair_leb_false (a b : string * string) :
  Py.pair_leb a b = false -> Py.pair_leb b a = true.
Proof.
  unfold Py.pair_leb. destruct (decide (a.1 = b.1)) as [Hab|Hab].
  - rewrite decide_True by done. apply leb_false.
  - rewrite decide_False by congruence. apply leb_false.
Qed.

Lemma insert_by_perm {A K} (le : K -> K -> bool) (key : A -> K) (x : A) (l : list A) :
  Py.insert_by le key x l ≡ₚ x :: l.
Proof.
  induction l as [|y l IH]; [done|]. simpl. destruct (le (key x) (key y)); [done|].
  rewrite IH. apply Permutation_swap.
Qed.

(** A sort puts the elements in another order, and nothing else. *)
Lemma sort_by_perm {A K} (le : K -> K -> bool) (key : A -> K) (l : list A) :
  Py.sort_by le key l ≡ₚ l.
Proof.
  induction l as [|x l IH]; [done|]. unfold Py.sort_by in *. simpl.
  by rewrite insert_by_perm, IH.
Qed.

Lemma insert_by_sorted {A K} (le : K -> K -> bool) (key : A -> K) (x : A) (l : list A) :
  (forall a b c, le a b = true -> le b c = true -> le a c = true) ->
  (forall a b, le a b = false -> le b a = true) ->
  StronglySorted (fun a b => le (key a) (key b) = true) l ->
  StronglySorted (fun a b => le (key a) (key b) = true) (Py.insert_by le key x l).
Proof.
  intros le_trans le_false.
  induction 1 as [|y l Hsorted IH Hall]; simpl; [by repeat constructor|].
  destruct (le (key x) (key y)) eqn:Hxy.
  - constructor; [by constructor|]. constructor; [done|].
    eapply Forall_impl; [exact Hall|]. intros z Hyz. by eapply le_trans.
  - constructor; [done|]. rewrite insert_by_perm. constructor; [|done].
    by apply le_false.
Qed.

(** With keys in a total order, the sorted list has every element before
    all that follow it. *)
Lemma sort_by_sorted {A K} (le : K -> K -> bool) (key : A -> K) (l : list A) :
  (forall a b c, le a b = true -> le b c = true -> le a c = true) ->
  (forall a b, le a b = false -> le b a = true) ->
  StronglySorted (fun a b => le (key a) (key b) = true) (Py.sort_by le key l).
Proof.
  intros le_trans le_false.
  induction l as [|x l IH]; [constructor|]. by apply insert_by_sorted.
Qed.

(** A sorted list that is cut into pieces: the pieces are sorted, and each
    element of a piece comes before each element of a later piece. *)
Lemma sorted_concat {A} (R : A -> A -> Prop) (pieces : list (list A)) :
  StronglySorted R (concat pieces) ->
  Forall (StronglySorted R) pieces
  /\ StronglySorted (fun p q => forall a b, a ∈ p -> b ∈ q -> R a b) pieces.
Proof.
  induction pieces as [|p pieces IH]; [by split; constructor|]. simpl. intros Hsorted.
  apply StronglySorted_app in Hsorted as (Hcross & Hp & Hrest).
  destruct (IH Hrest) as [Hall Hpieces]. split; [by constructor|].
  constructor; [done|]. apply Forall_forall. intros q Hq a b Ha Hb.
  apply Hcross; [done|]. apply elem_of_concat. by exists q.
Qed.

Lemma sorted_omap {A B} (R : A -> A -> Prop) (R' : B -> B -> Prop) (f : A -> option B)
    (l : list A) :
  (forall a b a' b', R a b -> f a = Some a' -> f b = Some b' -> R' a' b') ->
  StronglySorted R l -> StronglySorted R' (omap f l).
Proof.
  intros Hf. induction 1 as [|a l Hsorted IH Hall]; [constructor|]. simpl.
  destruct (f a) as [a'|] eqn:Ha; [|done]. constructor; [done|].
  apply Forall_forall. intros b' Hb'. apply list_elem_of_omap in Hb' as (b & Hb & Hfb).
  rewrite Forall_forall in Hall. by eapply Hf; [apply Hall| |].
Qed.

Lemma sorted_impl {A} (R R' : A -> A -> Prop) (l : list A) :
  (forall a b, R a b -> R' a b) -> StronglySorted R l -> StronglySorted R' l.
Proof.
  intros Himpl. induction 1 as [|a l Hsorted IH Hall]; constructor; [done|].
  eapply Forall_impl; [exact Hall|]. apply Himpl.
Qed.

(** *** [process_cleaned_file] *)

(** The messages [process_cleaned_file] hands to the segmentation. *)
Lemma process_messages_perm (TEST_MODE : bool) (messages : list Message) :
  let taken := if TEST_MODE then take TEST_MESSAGE_LIMIT messages else messages in
  Py.sort_by String.leb timestamp taken ≡ₚ taken
  /\ taken `sublist_of` messages
  /\ (length taken <= length messages)%nat
  /\ (TEST_MODE = true -> (length taken <= TEST_MESSAGE_LIMIT)%nat).
Proof.
  intros taken. split; [apply sort_by_perm|]. subst taken.
  destruct TEST_MODE.
  - split; [apply sublist_take|]. rewrite length_take. split; [lia|]. intros _. lia.
  - done.
Qed.

Lemma process_cleaned_file_inv TEST_MODE stem first rest st records st' :
  process_cleaned_file TEST_MODE stem (first :: rest) st = (Returns records, st') ->
  let messages := first :: rest in
  let taken := if TEST_MODE then take TEST_MESSAGE_LIMIT messages else messages in
  exists chunks,
    chunk_by_llm (Py.sort_by String.leb timestamp taken) (endpoint st)
    = (Returns chunks, endpoint st')
    /\ records = omap (fun chunk => chunk_to_chatml chunk (Py.lower stem)) chunks
    /\ processed st' = processed st ++ [(Py.lower stem +:+ ".jsonl", records)].
Proof.
  intros Hrun messages taken. unfold process_cleaned_file in Hrun.
  fold messages in Hrun. fold taken in Hrun.
  apply bind_inv in Hrun as (chunks & st1 & Hchunks & Hrun).
  unfold on_endpoint in Hchunks.
  destruct (chunk_by_llm _ (endpoint st)) as [[chunks'|e] w1] eqn:Hllm; [|done].
  simplify_eq. exists chunks. unfold bind, write_records, ret in Hrun. simplify_eq.
  done.
Qed.

Lemma well_timed_perm (l1 l2 : list Message) :
  (forall m, m ∈ l2 -> m ∈ l1) -> well_timed l1 -> well_timed l2.
Proof.
  intros Hsub [aware Hall]. exists aware. rewrite Forall_forall in *. eauto.
Qed.

(** X13. [process_cleaned_file], for a file whose stem is ASCII text.  On a
    file without messages it returns no record and writes no file.  When it
    returns on a file with messages, it has written one file, named by the
    stem of the cleaned file in lower case with the suffix [.jsonl], and
    this file holds the records it returns; the calls it has made to the
    endpoint are fewer than the messages, and fewer than
    [TEST_MESSAGE_LIMIT] in test mode.  When the segmentation of the
    messages, taken in the order of their timestamps, raises, it raises the
    same exception and has written no file. *)
Theorem process_cleaned_file_writes (TEST_MODE : bool) (stem : string)
    (messages : list Message) (st : proc_state) :
  Py.isascii stem = true ->
  (messages = [] -> process_cleaned_file TEST_MODE stem messages st = (Returns [], st))
  /\ (forall records st',
        process_cleaned_file TEST_MODE stem messages st = (Returns records, st') ->
        messages <> [] ->
        processed st' = processed st ++ [(Py.lower stem +:+ ".jsonl", records)]
        /\ exists calls,
             endpoint st' = endpoint st ++ calls
             /\ (length calls < length messages)%nat
             /\ (TEST_MODE = true -> (length calls < TEST_MESSAGE_LIMIT)%nat))
  /\ (forall e w',
        messages <> [] ->
        let taken := if TEST_MODE then take TEST_MESSAGE_LIMIT messages else messages in
        chunk_by_llm (Py.sort_by String.leb timestamp taken) (endpoint st) = (Raises e, w') ->
        process_cleaned_file TEST_MODE stem messages st
        = (Raises e, mk_proc_state w' (processed st))).
Proof.
  intros _. split; [by intros ->|]. split.
  - intros records st' Hrun Hne. destruct messages as [|first rest]; [done|].
    apply process_cleaned_file_inv in Hrun as (chunks & Hllm & _ & Hfile).
    split; [done|].
    apply chunk_by_llm_world in Hllm as (calls & Hcalls & Hlen & _).
    destruct (process_messages_perm TEST_MODE (first :: rest)) as (Hperm & _ & Hle & Htest).
    rewrite Hperm in Hlen. exists calls. split; [done|].
    assert (Hpos : (0 < length (if TEST_MODE then take TEST_MESSAGE_LIMIT (first :: rest)
                                else first :: rest))%nat).
    { destruct TEST_MODE; simpl; lia. }
    split; [lia|]. intros Ht. specialize (Htest Ht). lia.
  - intros e w' Hne taken Hllm. destruct messages as [|first rest]; [done|].
    unfold process_cleaned_file, bind, on_endpoint. fold taken. by rewrite Hllm.
Qed.

Lemma elem_of_sublist_concat {A} (piece : list A) (pieces : list (list A)) :
  piece ∈ pieces -> piece `sublist_of` concat pieces.
Proof.
  intros Hin. apply list_elem_of_split in Hin as (l1 & l2 & ->).
  rewrite concat_app. simpl. apply sublist_inserts_l, sublist_inserts_r. done.
Qed.

Lemma omap_pairs {A B} (f : list A -> option B) (pieces : list (list A)) :
  (forall piece b, f piece = Some b -> (2 <= length piece)%nat) ->
  (2 * length (omap f pieces) <= length (concat pieces))%nat.
Proof.
  intros Hf. induction pieces as [|piece pieces IH]; [done|].
  change (omap f (piece :: pieces))
    with (match f piece with Some b => b :: omap f pieces | None => omap f pieces end).
  cbn [concat]. rewrite length_app. destruct (f piece) as [b|] eqn:Hb; [|lia].
  specialize (Hf piece b Hb). cbn [length]. lia.
Qed.

Lemma sorted_head_last {A} (R : A -> A -> Prop) (l : list A) a b :
  (forall x, R x x) -> StronglySorted R l -> head l = Some a -> last l = Some b -> R a b.
Proof.
  intros Hrefl Hsorted Hhead Hlast. destruct l as [|x l]; simplify_eq/=.
  apply StronglySorted_inv in Hsorted as [_ Hall].
  destruct l as [|y l]; [by simplify_eq/=|]. rewrite last_cons_cons in Hlast.
  rewrite Forall_forall in Hall. apply Hall.
  rewrite last_lookup in Hlast. by eapply list_elem_of_lookup_2.
Qed.

Lemma trim_suffix chunk : trim chunk `suffix_of` chunk.
Proof. destruct (trim_spec chunk) as (lead & Hchunk & _). by exists lead. Qed.

(** X14. The records [process_cleaned_file] returns, for a file whose stem
    is ASCII text, come, in this order, from chunks of the messages in the
    order of their timestamps: each record is what [chunk_to_chatml] makes of
    such a chunk, with the stem of the file in lower case for its persona.
    No record starts after it ends, and each record ends before the next one
    starts, or at the same timestamp, the timestamps compared as strings.
    There are half as many records as messages at most, and at most 100 in
    test mode. *)
Theorem process_cleaned_file_records (TEST_MODE : bool) (stem : string)
    (messages : list Message) (st st' : proc_state) (records : list ChatML) :
  Py.isascii stem = true ->
  process_cleaned_file TEST_MODE stem messages st = (Returns records, st') ->
  Forall (fun record =>
            rec_persona record = Py.lower stem
            /\ String.leb (timestamp_start record) (timestamp_end record) = true
            /\ exists chunk, chunk_to_chatml chunk (Py.lower stem) = Some record
                             /\ chunk ⊆+ messages)
         records
  /\ StronglySorted (fun r1 r2 => String.leb (timestamp_end r1) (timestamp_start r2) = true)
                    records
  /\ (2 * length records <= length messages)%nat
  /\ (TEST_MODE = true -> (2 * length records <= TEST_MESSAGE_LIMIT)%nat).
Proof.
  intros _.
  intros Hrun. destruct messages as [|first rest].
  { cbv [process_cleaned_file ret] in Hrun. simplify_eq.
    split; [done|]. split; [constructor|]. split; [done|]. intros _. simpl. lia. }
  apply process_cleaned_file_inv in Hrun as (chunks & Hllm & -> & _).
  destruct (process_messages_perm TEST_MODE (first :: rest)) as (Hperm & Hsub & Hle & Htest).
  set (taken := if TEST_MODE then _ else _) in *. clearbody taken.
  apply chunk_by_llm_partial in Hllm as [Hcat _].
  pose proof (sort_by_sorted String.leb timestamp taken leb_trans leb_false) as Hsorted.
  rewrite <- Hcat in Hsorted. apply sorted_concat in Hsorted as [Hchunks Hcross].
  assert (Hlen : (2 * length (omap (fun chunk => chunk_to_chatml chunk (Py.lower stem)) chunks)
                  <= length taken)%nat).
  { rewrite <- Hperm, <- Hcat. apply omap_pairs. intros chunk record Hrec.
    by apply chunk_to_chatml_some in Hrec as (? & ? & ? & _). }
  split; [|split; [|split; [lia|intros Ht; specialize (Htest Ht); lia]]].
  - apply Forall_forall. intros record Hin.
    apply list_elem_of_omap in Hin as (chunk & Hchunk & Hrec).
    pose proof Hrec as Hsome.
    apply chunk_to_chatml_some in Hsome as (a & b & _ & Hhead & Hlast & -> & _).
    split; [done|]. split.
    + cbn [timestamp_start timestamp_end].
      rewrite Forall_forall in Hchunks. specialize (Hchunks chunk Hchunk).
      destruct (trim_suffix chunk) as [lead Hlead]. rewrite Hlead in Hchunks.
      apply StronglySorted_app in Hchunks as (_ & _ & Htrim).
      apply (sorted_head_last (fun a b => String.leb (timestamp a) (timestamp b) = true)
                              (trim chunk) a b); [intros x; apply leb_refl | done..].
    + exists chunk. split; [done|].
      etrans; [apply sublist_submseteq, elem_of_sublist_concat, Hchunk|].
      rewrite Hcat, Hperm. by apply sublist_submseteq.
  - eapply sorted_omap; [|exact Hcross]. cbn beta.
    intros c1 c2 r1 r2 Hc Hr1 Hr2.
    apply chunk_to_chatml_some in Hr1 as (a1 & b1 & _ & _ & Hlast1 & -> & _).
    apply chunk_to_chatml_some in Hr2 as (a2 & b2 & _ & Hhead2 & _ & -> & _).
    cbn [timestamp_start timestamp_end]. apply Hc.
    + destruct (trim_suffix c1) as [lead ->]. apply elem_of_app. right.
      rewrite last_lookup in Hlast1. by eapply list_elem_of_lookup_2.
    + destruct (trim_suffix c2) as [lead ->]. apply elem_of_app. right.
      destruct (trim c2); simplify_eq/=. left.
Qed.

(** *** The summary by persona *)

Lemma count_fold convs (d : list (string * nat)) persona :
  dict_lookup (fold_left count_step convs d) persona
  = let n := length (of_persona persona convs) in
    if decide (n = 0%nat) then dict_lookup d persona
    else Some (default 0%nat (dict_lookup d persona) + n)%nat.
Proof.
  revert d. induction convs as [|conv convs IH]; intros d; [done|].
  cbn [fold_left]. rewrite IH. unfold count_step. rewrite dict_lookup_set.
  unfold of_persona. rewrite filter_cons. cbn zeta.
  destruct (decide (rec_persona conv = persona)) as [->|Hne]; cbn [length]; [|done].
  rewrite (decide_False (P := S _ = 0%nat)) by lia.
  destruct (decide (length _ = 0%nat)) as [->|_]; cbn [from_option id]; f_equal; lia.
Qed.

Lemma count_fold_keys convs (d : list (string * nat)) :
  NoDup d.*1 -> NoDup (fold_left count_step convs d).*1.
Proof.
  revert d. induction convs as [|conv convs IH]; intros d Hd; [done|].
  cbn [fold_left]. apply IH. unfold count_step. rewrite dict_set_keys.
  case_decide as Hin; [done|]. apply NoDup_app. split; [done|].
  split; [|apply NoDup_singleton]. intros x Hx Hx'.
  apply list_elem_of_singleton in Hx'. by subst.
Qed.

Lemma count_step_sum (d : list (string * nat)) conv :
  sum_list (count_step d conv).*2 = S (sum_list d.*2).
Proof.
  unfold count_step. generalize (rec_persona conv). intros key.
  induction d as [|[k v] d IH]; [done|]. cbn [dict_set dict_lookup].
  destruct (decide (k = key)) as [->|Hne].
  - rewrite !fmap_cons. cbn. lia.
  - rewrite !fmap_cons. cbn [sum_list sum_list_with snd]. cbn [sum_list] in IH.
    by rewrite <- Nat.add_succ_r, <- IH.
Qed.

(** X15. The summary by persona, in [main] and in [combine_personas]: the
    dict has an entry for a persona exactly when there is a record of this
    persona, and the entry is the number of these records; no persona has
    two entries; and the entries add up to the number of records. *)
Theorem summary_counts_spec (convs : list ChatML) :
  NoDup (summary_counts convs).*1
  /\ (forall persona,
        dict_lookup (summary_counts convs) persona
        = let n := length (of_persona persona convs) in
          if decide (n = 0%nat) then None else Some n)
  /\ sum_list (summary_counts convs).*2 = length convs.
Proof.
  unfold summary_counts. split; [apply count_fold_keys; constructor|]. split.
  - intros persona. by rewrite count_fold.
  - change (length convs) with (sum_list ([] : list (string * nat)).*2 + length convs)%nat.
    generalize ([] : list (string * nat)).
    induction convs as [|conv convs IH]; intros d; [simpl; lia|].
    cbn [fold_left length]. rewrite IH, count_step_sum. lia.
Qed.

(** *** [combine_personas] *)

Lemma read_conv_acc {S} (lines : list string) (acc : list ChatML) (s : S) :
  for_each read_conv_step lines acc s
  = (match file_records lines with
     | Some records => Returns (acc ++ records)
     | None => Raises JSONDecodeError
     end, s).
Proof.
  unfold file_records. revert acc. induction lines as [|line lines IH]; intros acc.
  { simpl. by rewrite app_nil_r. }
  rewrite filter_cons. simpl for_each. unfold bind, read_conv_step.
  destruct (decide (Py.strip line = "")) as [Hblank | Hline].
  - rewrite decide_False by (by intros []). apply IH.
  - rewrite decide_True by done. simpl.
    destruct (loads_conv line) as [conv|]; simpl; [|done].
    rewrite IH. destruct (mapM _ _); simpl; [|done]. by rewrite <- app_assoc.
Qed.

Lemma read_files_acc {S} (listing : list (string * list string)) (acc : list ChatML)
    (s : S) :
  for_each read_file_step listing acc s
  = (match mapM file_records listing.*2 with
     | Some recordss => Returns (acc ++ concat recordss)
     | None => Raises JSONDecodeError
     end, s).
Proof.
  revert acc. induction listing as [|[stem lines] listing IH]; intros acc.
  { simpl. by rewrite app_nil_r. }
  rewrite fmap_cons. simpl for_each. unfold bind, read_file_step. cbn [snd].
  rewrite read_conv_acc. cbn [mapM].
  destruct (file_records lines) as [records|]; simpl; [|done].
  rewrite IH. destruct (mapM _ _); simpl; [|done]. by rewrite <- app_assoc.
Qed.

Lemma combine_personas_run listing files :
  combine_personas listing files
  = match mapM file_records listing.*2 with
    | None => (Raises JSONDecodeError, files)
    | Some recordss =>
        match concat recordss with
        | [] => (Returns tt, files)
        | all =>
            (Returns tt,
             files ++ [("conversations.jsonl",
                        Py.sort_by Py.pair_leb
                          (fun c => (rec_persona c, timestamp_start c)) all)])
        end
    end.
Proof.
  unfold combine_personas. destruct listing as [|file listing]; [done|].
  unfold bind. rewrite read_files_acc.
  destruct (mapM file_records _) as [recordss|]; [|done]. simpl.
  by destruct (concat recordss).
Qed.

(** X16. [combine_personas], over [*.jsonl] files of ASCII text in which
    every line that [json.loads] accepts holds a record.  When it returns,
    every line that is not of white space holds a record; with no record in
    any file it has written nothing; otherwise it has written
    [conversations.jsonl] once, with all records of all files, each as often
    as the files have it, in the order of the personas, and for one persona
    in the order of the start timestamps, names and timestamps compared as
    strings.  When it raises [JSONDecodeError], a line that is not of white
    space holds no record, and it has written nothing. *)
Theorem combine_personas_spec (listing : list (string * list string))
    (files : list (string * list ChatML)) :
  Forall (fun file =>
            Forall (fun line => Py.isascii line = true
                                /\ (loads_conv line = None -> json_loads line = None))
                   file.2)
         listing ->
  (forall files',
     combine_personas listing files = (Returns tt, files') ->
     exists recordss,
       mapM file_records listing.*2 = Some recordss
       /\ (concat recordss = [] -> files' = files)
       /\ (concat recordss <> [] ->
           exists out,
             files' = files ++ [("conversations.jsonl", out)]
             /\ out ≡ₚ concat recordss
             /\ StronglySorted
                  (fun a b =>
                     String.leb (rec_persona a) (rec_persona b) = true
                     /\ (rec_persona a = rec_persona b ->
                         String.leb (timestamp_start a) (timestamp_start b) = true))
                  out))
  /\ (forall files',
        combine_personas listing files = (Raises JSONDecodeError, files') ->
        mapM file_records listing.*2 = None /\ files' = files).
Proof.
  intros _. rewrite combine_personas_run.
  destruct (mapM file_records _) as [recordss|]; [|split; [done | by intros ? [= <-]]].
  split; [|by destruct (concat recordss)].
  intros files' Hrun. exists recordss. split; [done|].
  destruct (concat recordss) as [|conv all] eqn:Hall.
  { injection Hrun as <-. by split. }
  injection Hrun as <-. split; [intros Hnone; discriminate Hnone|]. intros _.
  eexists. split; [reflexivity|].
  split; [exact (sort_by_perm Py.pair_leb _ (conv :: all))|].
  eapply sorted_impl;
    [|exact (sort_by_sorted Py.pair_leb (fun c => (rec_persona c, timestamp_start c))
               (conv :: all) pair_leb_trans pair_leb_false)].
  intros a b. unfold Py.pair_leb. cbn [fst snd].
  destruct (decide (rec_persona a = rec_persona b)) as [->|Hdiff].
  - intros Hts. split; [apply leb_refl | done].
  - intros Hp. by split.
Qed.

Lemma file_records_conv_lines (convs : list ChatML) :
  (forall conv, conv ∈ convs ->
                loads_conv (dumps_conv conv +:+ Py.nl) = Some conv
                /\ Py.strip (dumps_conv conv +:+ Py.nl) <> "") ->
  file_records (conv_lines convs) = Some convs.
Proof.
  intros Hconvs. unfold file_records, conv_lines.
  induction convs as [|conv convs IH]; [done|].
  destruct (Hconvs conv) as [Hload Hline]; [left|].
  rewrite map_cons, filter_cons_True by done. cbn [mapM]. rewrite Hload. simpl.
  rewrite IH; [done|]. intros c Hc. apply Hconvs. by right.
Qed.

Lemma mapM_app_option {A B} (f : A -> option B) (l1 l2 : list A) :
  mapM f (l1 ++ l2)
  = match mapM f l1, mapM f l2 with
    | Some r1, Some r2 => Some (r1 ++ r2)
    | _, _ => None
    end.
Proof.
  induction l1 as [|a l1 IH]; [simpl; by destruct (mapM f l2)|].
  rewrite <- app_comm_cons. cbn [mapM]. rewrite IH.
  destruct (f a); simpl; [|done].
  by destruct (mapM f l1), (mapM f l2).
Qed.

(** X17. [combine_personas] does not leave its own output aside: run again
    over the directory that now holds [conversations.jsonl] next to the
    files the first run has read, it reads the records of the first run
    once more, and writes every record of the first run twice. *)
Theorem combine_personas_rerun (before after : list (string * list string))
    (files files' : list (string * list ChatML)) (out1 : list ChatML) :
  combine_personas (before ++ after) files
  = (Returns tt, files ++ [("conversations.jsonl", out1)]) ->
  (forall conv, conv ∈ out1 ->
                loads_conv (dumps_conv conv +:+ Py.nl) = Some conv
                /\ Py.strip (dumps_conv conv +:+ Py.nl) <> "") ->
  exists out2,
    combine_personas (before ++ ("conversations", conv_lines out1) :: after) files'
    = (Returns tt, files' ++ [("conversations.jsonl", out2)])
    /\ out2 ≡ₚ out1 ++ out1.
Proof.
  intros Hrun Hload. rewrite combine_personas_run in Hrun. rewrite combine_personas_run.
  set (sort := Py.sort_by Py.pair_leb (fun c => (rec_persona c, timestamp_start c))) in *.
  assert (Hsort : forall l, sort l ≡ₚ l) by (intros l; apply sort_by_perm).
  clearbody sort.
  rewrite fmap_app, mapM_app_option in Hrun.
  rewrite fmap_app, fmap_cons, mapM_app_option. cbn [snd mapM].
  rewrite (file_records_conv_lines _ Hload).
  destruct (mapM file_records before.*2) as [rs1|]; [|done].
  destruct (mapM file_records after.*2) as [rs2|]; [|done]. simpl in *.
  rewrite concat_app in *. cbn [concat].
  destruct (concat rs1 ++ concat rs2) as [|conv all] eqn:Hall.
  { exfalso. injection Hrun as Hrun. apply (f_equal length) in Hrun.
    rewrite length_app in Hrun. simpl in Hrun. lia. }
  injection Hrun as Hrun. apply app_inv_head in Hrun. injection Hrun as <-.
  assert (Hperm : concat rs1 ++ sort (conv :: all) ++ concat rs2
                  ≡ₚ sort (conv :: all) ++ sort (conv :: all)).
  { rewrite (Hsort (conv :: all)) at 3. rewrite <- Hall.
    rewrite !app_assoc. f_equiv. apply Permutation_app_comm. }
  destruct (concat rs1 ++ sort (conv :: all) ++ concat rs2) as [|c0 all2] eqn:Hall2.
  { exfalso. apply Permutation_length in Hperm. rewrite length_app, !Hsort in Hperm.
    simpl in Hperm. lia. }
  eexists. split; [done|]. by rewrite Hsort.
Qed.


(** *** The texts of a record *)

Lemma join_app (sep : string) (l1 l2 : list string) :
  l1 <> [] -> l2 <> [] ->
  Py.join sep (l1 ++ l2) = Py.join sep l1 +:+ sep +:+ Py.join sep l2.
Proof.
  unfold Py.join. intros Hl1 Hl2. induction l1 as [|x l1 IH]; [done|].
  destruct l1 as [|y l1].
  - destruct l2 as [|z l2]; [done|]. reflexivity.
  - change (String.concat sep ((x :: y :: l1) ++ l2))
      with (x +:+ sep +:+ String.concat sep ((y :: l1) ++ l2)).
    change (String.concat sep (x :: y :: l1))
      with (x +:+ sep +:+ String.concat sep (y :: l1)).
    rewrite IH by done. by rewrite !append_assoc.
Qed.

(** Joining the joined texts of pieces is joining the texts of all pieces. *)
Lemma join_concat (sep : string) (pieces : list (list string)) :
  Forall (fun piece => piece <> []) pieces ->
  Py.join sep (map (Py.join sep) pieces) = Py.join sep (concat pieces).
Proof.
  induction 1 as [|piece pieces Hpiece Hall IH]; [done|].
  destruct pieces as [|next pieces].
  - simpl. by rewrite app_nil_r.
  - change (concat (piece :: next :: pieces)) with (piece ++ concat (next :: pieces)).
    rewrite join_app; [|done|].
    + rewrite <- IH. reflexivity.
    + apply Forall_cons in Hall as [Hnext _]. destruct next; [done|]. done.
Qed.

(** X20. A record of [chunk_to_chatml] keeps the texts of the chunk, from the
    first message that somebody else has sent on: the contents of its
    turns, joined by newlines, are the texts of these messages joined by
    newlines, none left out, none twice, and in the order of the chunk. *)
Theorem chunk_to_chatml_texts (chunk : list Message) (persona : string) (record : ChatML) :
  chunk_to_chatml chunk persona = Some record ->
  exists lead first rest,
    chunk = lead ++ first :: rest
    /\ Forall (fun msg => sender msg = YOUR_NAME) lead
    /\ sender first <> YOUR_NAME
    /\ Py.join Py.nl (content <$> rec_messages record)
       = Py.join Py.nl (message <$> first :: rest).
Proof.
  intros Hsome.
  apply chunk_to_chatml_some in Hsome as (first & final & _ & Hhead & _ & -> & _).
  destruct (trim_spec chunk) as (lead & Hchunk & Hlead & Hother).
  specialize (Hother first Hhead).
  destruct (trim chunk) as [|first' rest] eqn:Htrim; [done|]. injection Hhead as ->.
  exists lead, first, rest. repeat (split; [done|]). cbn [rec_messages].
  destruct (runs_spec (first :: rest)) as (Hcat & Huni & _).
  rewrite <- Hcat at 2. generalize dependent (runs (first :: rest)). intros rs _ Huni.
  change (content <$> map turn_of rs) with (map content (map turn_of rs)).
  rewrite map_map. cbn [turn_of content].
  change (message <$> concat rs) with (map message (concat rs)).
  rewrite concat_map, <- join_concat, map_map; [done|].
  apply Forall_forall. intros piece Hpiece.
  apply list_elem_of_In, in_map_iff in Hpiece as (run & <- & Hrun).
  rewrite Forall_forall in Huni. destruct (Huni run) as [Hne _]; [by apply list_elem_of_In|].
  by destruct run.
Qed.

End Preprocessing.

(** ** The theorems on concrete inputs *)

Lemma lcg_randbelow_lt (s : Z) (n : nat) :
  (0 < n)%nat -> (fst (lcg_randbelow s n) < n)%nat.
Proof.
  intros Hn. unfold lcg_randbelow. simpl.
  pose proof (Z.mod_pos_bound ((s * 1103515245 + 12345) mod 2147483648) (Z.of_nat n)).
  lia.
Qed.

Lemma cleaned_well_timed :
  well_timed fromisoformat_cleaned [ada_0900; ada_1345; festus_1400].
Proof.
  exists false. repeat constructor; eexists; (split; [reflexivity|]);
    (split; [intros [? H]; discriminate H | discriminate]).
Defined.

(** Three messages of one afternoon, with an endpoint that is down. *)
Lemma chunk_by_llm_partition_witness :
  well_timed fromisoformat_cleaned [ada_0900; ada_1345; festus_1400]
  /\ exists chunks w',
      chunk_by_llm fromisoformat_cleaned (post_always PostRaises) test_endpoint test_model
                   [ada_0900; ada_1345; festus_1400] []
      = (Returns chunks, w')
      /\ concat chunks = [ada_0900; ada_1345; festus_1400]
      /\ Forall (fun chunk => chunk <> []) chunks.
Proof.
  split; [exact cleaned_well_timed|].
  exact (proj1 (proj2 (chunk_by_llm_partition fromisoformat_cleaned (post_always PostRaises)
                         test_endpoint test_model [ada_0900; ada_1345; festus_1400] []))
               cleaned_well_timed).
Defined.

(** The four cases, each on a list of its own: five minutes; a quarter of an
    hour with an endpoint that says yes, after a morning message that stays
    apart; four hours and three quarters by day; five hours by night with an
    endpoint that says no. *)
Lemma chunk_by_llm_gap_policy_witness :
  chunk_by_llm fromisoformat_cleaned (post_always (ok_response "NO")) test_endpoint test_model
               [ada_1355; festus_1400] []
  = (Returns [[ada_1355; festus_1400]], [])
  /\ chunk_by_llm fromisoformat_cleaned (post_always (ok_response "yes")) test_endpoint
                  test_model [ada_0900; ada_1345; festus_1400] []
     = (Returns [[ada_0900]; [ada_1345; festus_1400]],
        consulted test_endpoint test_model [] ada_1345 [ada_1345] festus_1400)
  /\ chunk_by_llm fromisoformat_cleaned (post_always (ok_response "yes")) test_endpoint
                  test_model [ada_0900; ada_1345] []
     = (Returns [[ada_0900]; [ada_1345]], [])
  /\ chunk_by_llm fromisoformat_cleaned (post_always (ok_response "NO")) test_endpoint
                  test_model [ada_2200; festus_0300] []
     = (Returns [[ada_2200]; [festus_0300]],
        consulted test_endpoint test_model [] ada_2200 [ada_2200] festus_0300).
Proof.
  pose (at_1400 := mk_datetime 2024 3 10 14 0 0 0 None).
  pose (at_1345 := mk_datetime 2024 3 10 13 45 0 0 None).
  split; [|split; [|split]].
  - exact (proj1 (chunk_by_llm_gap_policy fromisoformat_cleaned
                    (post_always (ok_response "NO")) test_endpoint test_model
                    [ada_1355] ada_1355 festus_1400
                    (mk_datetime 2024 3 10 13 55 0 0 None) at_1400
                    (5 * 60 * 1000000) [] ada_1355 [] [] []
                    eq_refl eq_refl eq_refl eq_refl eq_refl)
                 ltac:(vm_compute; reflexivity)).
  - destruct (proj1 (proj2 (chunk_by_llm_gap_policy fromisoformat_cleaned
                              (post_always (ok_response "yes")) test_endpoint test_model
                              [ada_0900; ada_1345] ada_1345 festus_1400 at_1345 at_1400
                              (15 * 60 * 1000000) [[ada_0900]] ada_1345 [] [] []
                              eq_refl eq_refl eq_refl eq_refl eq_refl))
                     ltac:(split; vm_compute; discriminate))
      as (yes & Hanswer & Hrun).
    assert (Hyes : yes = true)
      by (vm_compute in Hanswer; injection Hanswer as Hanswer; symmetry; exact Hanswer).
    rewrite Hyes in Hrun. exact Hrun.
  - exact (proj2 (proj2 (proj2 (chunk_by_llm_gap_policy fromisoformat_cleaned
                    (post_always (ok_response "yes")) test_endpoint test_model
                    [ada_0900] ada_0900 ada_1345
                    (mk_datetime 2024 3 10 9 0 0 0 None) at_1345
                    (285 * 60 * 1000000) [] ada_0900 [] [] []
                    eq_refl eq_refl eq_refl eq_refl eq_refl)))
                 ltac:(vm_compute; reflexivity)
                 ltac:(intros [_ Hhour]; vm_compute in Hhour; discriminate Hhour)).
  - destruct (proj1 (proj2 (proj2 (chunk_by_llm_gap_policy fromisoformat_cleaned
                              (post_always (ok_response "NO")) test_endpoint test_model
                              [ada_2200] ada_2200 festus_0300
                              (mk_datetime 2024 3 9 22 0 0 0 None)
                              (mk_datetime 2024 3 10 3 0 0 0 None)
                              (5 * 3600 * 1000000) [] ada_2200 [] [] []
                              eq_refl eq_refl eq_refl eq_refl eq_refl)))
                     ltac:(vm_compute; reflexivity)
                     ltac:(split; [vm_compute; discriminate | vm_compute; reflexivity]))
      as (yes & Hanswer & Hrun).
    assert (Hno : yes = false)
      by (vm_compute in Hanswer; injection Hanswer as Hanswer; symmetry; exact Hanswer).
    rewrite Hno in Hrun. exact Hrun.
Defined.

(** C3, as the spec states it, fails: with 13:45:00 and 14:00:00, a gap of
    exactly 15 minutes, the endpoint is asked, and when it says no the two
    messages are split. *)
Lemma gap_of_15_minutes_asks_oracle :
  fromisoformat_cleaned (timestamp ada_1345) = Some (mk_datetime 2024 3 10 13 45 0 0 None)
  /\ fromisoformat_cleaned (timestamp festus_1400) = Some (mk_datetime 2024 3 10 14 0 0 0 None)
  /\ datetime_sub (mk_datetime 2024 3 10 14 0 0 0 None) (mk_datetime 2024 3 10 13 45 0 0 None)
     = Some (15 * 60 * 1000000)
  /\ chunk_by_llm fromisoformat_cleaned (post_always (ok_response "NO"))
                  test_endpoint test_model [ada_1345; festus_1400] []
     = (Returns [[ada_1345]; [festus_1400]],
        consulted test_endpoint test_model [] ada_1345 [ada_1345] festus_1400)
  /\ chunk_by_llm fromisoformat_cleaned (post_always (ok_response "NO"))
                  test_endpoint test_model [ada_1345; festus_1400] []
     <> (Returns [[ada_1345; festus_1400]], []).
Proof.
  split; [reflexivity|]. split; [reflexivity|]. split; [reflexivity|].
  split; [reflexivity|]. vm_compute. discriminate.
Qed.

(** The four boundary cases, each on its own pair of messages. *)
Lemma gap_boundaries_witness :
  let run p c := chunk_by_llm fromisoformat_cleaned (post_always PostRaises)
                              test_endpoint test_model [p; c] [] in
  let asked p c := consulted test_endpoint test_model [] p [p] c in
  (exists yes : bool,
      run ada_1345 festus_1400
      = (Returns (if yes then [[ada_1345; festus_1400]] else [[ada_1345]; [festus_1400]]),
         asked ada_1345 festus_1400))
  /\ (exists yes : bool,
         run ada_134459 festus_1400
         = (Returns (if yes then [[ada_134459; festus_1400]]
                     else [[ada_134459]; [festus_1400]]),
            asked ada_134459 festus_1400))
  /\ run ada_0900 festus_1400 = (Returns [[ada_0900]; [festus_1400]], [])
  /\ (exists yes : bool,
         run ada_2200 festus_0300
         = (Returns (if yes then [[ada_2200; festus_0300]] else [[ada_2200]; [festus_0300]]),
            asked ada_2200 festus_0300)).
Proof.
  intros run asked.
  pose (at_1400 := mk_datetime 2024 3 10 14 0 0 0 None).
  pose (bounds := fun p c tp tc td =>
                    gap_boundaries fromisoformat_cleaned (post_always PostRaises)
                      test_endpoint test_model p c tp tc td []).
  split; [|split; [|split]].
  - destruct (proj1 (bounds ada_1345 festus_1400
                       (mk_datetime 2024 3 10 13 45 0 0 None) at_1400
                       (15 * 60 * 1000000) eq_refl eq_refl eq_refl) eq_refl)
      as (yes & _ & Hrun).
    by exists yes.
  - destruct (proj1 (proj2 (proj2 (bounds ada_134459 festus_1400
                       (mk_datetime 2024 3 10 13 44 59 0 None) at_1400
                       ((15 * 60 + 1) * 1000000) eq_refl eq_refl eq_refl))) eq_refl eq_refl)
      as (yes & _ & Hrun).
    by exists yes.
  - exact (proj1 (proj2 (proj2 (proj2 (bounds ada_0900 festus_1400
                       (mk_datetime 2024 3 10 9 0 0 0 None) at_1400
                       (5 * 3600 * 1000000) eq_refl eq_refl eq_refl)))) eq_refl eq_refl).
  - destruct (proj2 (proj2 (proj2 (proj2 (bounds ada_2200 festus_0300
                       (mk_datetime 2024 3 9 22 0 0 0 None)
                       (mk_datetime 2024 3 10 3 0 0 0 None)
                       (5 * 3600 * 1000000) eq_refl eq_refl eq_refl)))) eq_refl eq_refl)
      as (yes & _ & Hrun).
    by exists yes.
Defined.


(** C5, as the spec states it, fails: in a chunk that [YOUR_NAME] opens, the
    prompt calls [YOUR_NAME] the user, and the converter calls him the
    assistant. *)
Lemma prompt_label_differs_from_role :
  sender festus_1400 = YOUR_NAME
  /\ prompt_sender [festus_1355] festus_1400 [] = (Returns "User", [])
  /\ role_of festus_1400 = "assistant"
  /\ ~ (forall conversation_so_far msg who w,
           prompt_sender conversation_so_far msg w = (Returns who, w) ->
           (who = "Assistant" <-> sender msg = YOUR_NAME)).
Proof.
  split; [reflexivity|]. split; [reflexivity|]. split; [reflexivity|].
  intros Hclaim.
  destruct (Hclaim [festus_1355] festus_1400 "User" [] eq_refl) as [_ Hback].
  discriminate (Hback eq_refl).
Qed.

Lemma prompt_labels_follow_first_sender_witness :
  sender ada_1345 <> YOUR_NAME
  /\ (label_of ada_1345 festus_1400 = "Assistant" <-> role_of festus_1400 = "assistant").
Proof.
  assert (Hfirst : sender ada_1345 <> YOUR_NAME) by discriminate.
  split; [exact Hfirst|].
  exact (proj2 (proj2 (proj2 (proj2 (prompt_labels_follow_first_sender
                                       ada_1345 [] festus_1400 []))))
               festus_1400 Hfirst (or_intror eq_refl)).
Defined.

(** Two self-sent messages, a question and an answer: the record opens with
    the question. *)
Lemma chunk_to_chatml_spec_witness :
  chunk_to_chatml [festus_1355; festus_1400; ada_1405; festus_1410] "sister"
  = Some (mk_ChatML [mk_Turn "user" "shall I bring something?";
                     mk_Turn "assistant" "just yourself"]
                    "sister" "2024-03-10T14:05:00" "2024-03-10T14:10:00")
  /\ exists turn,
      head [mk_Turn "user" "shall I bring something?"; mk_Turn "assistant" "just yourself"]
      = Some turn
      /\ role turn = "user".
Proof.
  split; [reflexivity|].
  destruct (proj1 (proj2 (chunk_to_chatml_spec
                            [festus_1355; festus_1400; ada_1405; festus_1410] "sister"))
                   _ eq_refl)
    as (lead & first & final & _ & _ & _ & _ & _ & _ & _ & _ & _ & Huser & _).
  exact Huser.
Defined.

(** 40 rows with the default configuration. *)
Lemma desired_eval_clamp_witness :
  numbered_rows 40 <> []
  /\ round (float_mul (float_of_int (Z.of_nat (length (numbered_rows 40))))
                      (eval_ratio default_cfg)) = Returns 4
  /\ desired_eval Z (length (numbered_rows 40)) default_cfg 7 = (Returns 25, 7).
Proof.
  assert (Hne : numbered_rows 40 <> []) by discriminate.
  split; [exact Hne|]. split; [reflexivity|].
  exact (proj1 (desired_eval_clamp Z lcg_randbelow lcg_randbelow_lt
                  (numbered_rows 40) default_cfg 4 7 Hne eq_refl)).
Defined.

(** 10 rows, of which 2 go to the eval subset. *)
Lemma split_eval_partition_witness :
  exists indices s',
    shuffle Z lcg_randbelow (seq 0 10) 7 = (Returns indices, s')
    /\ indices ≡ₚ seq 0 10
    /\ split_eval Z lcg_randbelow (numbered_rows 10) capped_cfg 7
       = (Returns (rows_at (numbered_rows 10) (fun i => i ∈ Py.slice_to 2 indices),
                   rows_at (numbered_rows 10) (fun i => i ∉ Py.slice_to 2 indices)), s').
Proof.
  assert (Hne : numbered_rows 10 <> []) by discriminate.
  destruct (proj2 (split_eval_partition Z lcg_randbelow lcg_randbelow_lt
                     (numbered_rows 10) capped_cfg 7) 1 Hne eq_refl)
    as (indices & s' & Hsh & Hperm & Hsplit & _).
  exists indices, s'. split; [exact Hsh|]. split; [exact Hperm|]. exact Hsplit.
Defined.

(** Two runs that differ in their directories, in what was there before and
    in the personas they go through: one row of the three of [brother] goes
    to the eval subset, the same row in both. *)
Lemma build_eval_datasets_deterministic_witness :
  let run := build_eval_datasets Z lcg_Random lcg_randbelow ramp_digest toy_loads in
  same_split_settings small_cfg moved_cfg
  /\ related (same_writes [] [Mkdir "elsewhere"]) totals_alike
       (run small_cfg persona_listing []) (run moved_cfg persona_listing [Mkdir "elsewhere"])
  /\ persona_seed ramp_digest 42 "brother"
     = 10 * 256 ^ 7 + 11 * 256 ^ 6 + 12 * 256 ^ 5 + 13 * 256 ^ 4
       + 14 * 256 ^ 3 + 15 * 256 ^ 2 + 16 * 256 + 17
  /\ exists summary1 summary2 new1 new2,
      run small_cfg persona_listing [] = (Returns summary1, [] ++ new1)
      /\ run moved_cfg wider_listing [Mkdir "elsewhere"]
         = (Returns summary2, [Mkdir "elsewhere"] ++ new2)
      /\ WriteJsonl "evals/lora/brother.jsonl" [JString "b3"] ∈ new1
      /\ WriteJsonl "train/lora/brother.jsonl" [JString "b1"; JString "b2"] ∈ new1
      /\ WriteJsonl "elsewhere/evals/lora/brother.jsonl" [JString "b3"] ∈ new2
      /\ WriteJsonl "elsewhere/train/lora/brother.jsonl" [JString "b1"; JString "b2"] ∈ new2.
Proof.
  intros run.
  assert (Hsame : same_split_settings small_cfg moved_cfg) by (repeat split; reflexivity).
  pose proof (build_eval_datasets_deterministic Z lcg_Random lcg_randbelow ramp_digest
                toy_loads small_cfg moved_cfg persona_listing [] [Mkdir "elsewhere"] Hsame)
    as (Hrel & Hseed & Hpersona).
  split; [exact Hsame|]. split; [exact Hrel|]. split.
  { exact (Hseed "brother" _ _ _ _ _ _ _ _ _ eq_refl). }
  assert (Hrun1 : exists summary1 out1, run small_cfg persona_listing [] = (Returns summary1, out1))
    by (subst run; eexists _, _; vm_compute; reflexivity).
  assert (Hrun2 : exists summary2 out2,
             run moved_cfg wider_listing [Mkdir "elsewhere"] = (Returns summary2, out2))
    by (subst run; eexists _, _; vm_compute; reflexivity).
  destruct Hrun1 as (summary1 & out1 & Hrun1). destruct Hrun2 as (summary2 & out2 & Hrun2).
  destruct (Hpersona wider_listing "brother" ["b1"; "b2"; ""; "b3"]
              summary1 summary2 out1 out2
              ltac:(apply (bool_decide_unpack _); vm_compute; exact I)
              ltac:(apply (bool_decide_unpack _); vm_compute; exact I)
              Hrun1 Hrun2)
    as (rows & eval_rows & remaining_rows & new1 & new2
        & Hrows & Hsplit & Hout1 & Hout2 & He1 & Ht1 & He2 & Ht2).
  assert (Hread : rows = [JString "b1"; JString "b2"; JString "b3"])
    by (vm_compute in Hrows; injection Hrows as Hrows; symmetry; exact Hrows).
  rewrite Hread in Hsplit.
  assert (Hparts : (eval_rows, remaining_rows) = ([JString "b3"], [JString "b1"; JString "b2"]))
    by (vm_compute in Hsplit; injection Hsplit as Heval Hremaining;
        rewrite Heval, Hremaining; reflexivity).
  injection Hparts as Heval Hremaining. rewrite Heval in He1, He2.
  rewrite Hremaining in Ht1, Ht2. rewrite Hout1 in Hrun1. rewrite Hout2 in Hrun2.
  exists summary1, summary2, new1, new2.
  split; [exact Hrun1|]. split; [exact Hrun2|].
  split; [exact He1|]. split; [exact Ht1|]. split; [exact He2 | exact Ht2].
Defined.

(** Three rows with a minimum of 25. *)
Lemma small_persona_all_eval_witness :
  (1 <= length (numbered_rows 3))%nat
  /\ Z.of_nat (length (numbered_rows 3)) <= min_eval_per_persona default_cfg
  /\ exists s', split_eval Z lcg_randbelow (numbered_rows 3) default_cfg 7
                = (Returns (numbered_rows 3, []), s').
Proof.
  assert (Hone : (1 <= length (numbered_rows 3))%nat) by (simpl; lia).
  assert (Hmin : Z.of_nat (length (numbered_rows 3)) <= min_eval_per_persona default_cfg)
    by (intros H; discriminate H).
  split; [exact Hone|]. split; [exact Hmin|].
  exact (small_persona_all_eval Z lcg_randbelow lcg_randbelow_lt (numbered_rows 3)
           default_cfg 0 7 Hone Hmin eq_refl eq_refl).
Defined.

Lemma afternoon_well_timed : well_timed fromisoformat_cleaned afternoon.
Proof.
  exists false. repeat constructor; eexists; (split; [reflexivity|]);
    (split; [intros [? H]; discriminate H | discriminate]).
Defined.

(** A directory with two persona files and the combined file. *)
Lemma discover_persona_files_spec_witness :
  NoDup persona_listing.*1
  /\ discover_persona_files persona_listing
     = filter (fun p => p.1 <> "conversations") persona_listing.
Proof.
  assert (Hnd : NoDup persona_listing.*1) by (apply (bool_decide_unpack _); vm_compute; exact I).
  split; [exact Hnd|].
  exact (proj2 (proj2 (proj2 (proj2 (discover_persona_files_spec persona_listing)))) Hnd).
Defined.


(** Two rows, written and read again. *)
Lemma jsonl_round_trip_witness :
  (forall row, row ∈ [JString "b1"; JString "b 2"] ->
               toy_loads (toy_dumps row) = Some row
               /\ Py.strip (toy_dumps row) = toy_dumps row
               /\ toy_dumps row <> "")
  /\ iter_jsonl toy_loads (jsonl_lines toy_dumps [JString "b1"; JString "b 2"]) tt
     = (Returns [JString "b1"; JString "b 2"], tt).
Proof.
  assert (Hrows : forall row, row ∈ [JString "b1"; JString "b 2"] ->
                              toy_loads (toy_dumps row) = Some row
                              /\ Py.strip (toy_dumps row) = toy_dumps row
                              /\ toy_dumps row <> "").
  { intros row Hin. apply elem_of_cons in Hin as [-> | Hin];
      [|apply elem_of_cons in Hin as [-> | Hin]; [|by apply elem_of_nil in Hin]];
      (split; [reflexivity|]; split; [reflexivity | discriminate]). }
  split; [exact Hrows|].
  exact (jsonl_round_trip toy_loads toy_dumps [JString "b1"; JString "b 2"] tt Hrows).
Defined.

(** A directory that holds the combined file and nothing else. *)
Lemma build_eval_datasets_no_persona_witness :
  Forall (fun file => file.1 = "conversations") combined_only
  /\ build_eval_datasets Z lcg_Random lcg_randbelow toy_digest toy_loads
                         default_cfg combined_only [Mkdir "chats_evals"]
     = (Raises FileNotFoundError, [Mkdir "chats_evals"])
  /\ discover_persona_files combined_only = [].
Proof.
  assert (Hall : Forall (fun file : string * list string => file.1 = "conversations")
                        combined_only) by (by repeat constructor).
  destruct (build_eval_datasets_no_persona Z lcg_Random lcg_randbelow
              toy_digest toy_loads default_cfg combined_only [Mkdir "chats_evals"])
    as [Hraise Hfiles].
  split; [exact Hall|]. split; [exact (Hraise Hall) | exact (proj2 Hfiles Hall)].
Defined.

(** The run over the two persona files of [persona_listing]. *)
Lemma build_eval_datasets_writes_witness :
  exists summary out parts sft_eval sft_train,
    build_eval_datasets Z lcg_Random lcg_randbelow toy_digest toy_loads
                        default_cfg persona_listing []
    = (Returns summary, out)
    /\ out = [] ++ concat (zip_with (fun file => partition_writes default_cfg file.1)
                                    (discover_persona_files persona_listing) parts)
                ++ closing_writes default_cfg sft_eval sft_train summary
    /\ sft_eval ≡ₚ concat parts.*1
    /\ sft_train ≡ₚ concat parts.*2.
Proof.
  assert (Hrun : exists summary out,
             build_eval_datasets Z lcg_Random lcg_randbelow toy_digest toy_loads
                                 default_cfg persona_listing []
             = (Returns summary, out)) by (eexists _, _; vm_compute; reflexivity).
  destruct Hrun as (summary & out & Hrun).
  destruct (build_eval_datasets_writes Z lcg_Random lcg_randbelow lcg_randbelow_lt
              toy_digest toy_loads default_cfg persona_listing [] out summary Hrun)
    as (parts & sft_eval & sft_train & rowss & _ & Hout & Heval & Htrain & _).
  exists summary, out, parts, sft_eval, sft_train.
  split; [exact Hrun|]. split; [exact Hout|]. split; [exact Heval | exact Htrain].
Defined.

Lemma build_eval_datasets_summary_witness :
  Forall (fun file => Forall (fun line => Py.isascii line = true) file.2) persona_listing
  /\ exists summary out,
      build_eval_datasets Z lcg_Random lcg_randbelow ramp_digest toy_loads
                          small_cfg persona_listing []
      = (Returns summary, out)
      /\ ((fun entry => (sum_persona entry, sum_total entry, sum_eval entry,
                         sum_remaining entry)) <$> sum_personas summary)
         = [("brother", 3, 1, 2); ("sister", 2, 1, 1)]%nat
      /\ Forall (fun entry => sum_total entry = (sum_eval entry + sum_remaining entry)%nat)
                (sum_personas summary)
      /\ sft_eval_total summary = sum_list (sum_eval <$> sum_personas summary)
      /\ sft_train_total summary = sum_list (sum_remaining <$> sum_personas summary).
Proof.
  assert (Hascii : Forall (fun file : string * list string =>
                             Forall (fun line => Py.isascii line = true) file.2)
                          persona_listing) by (repeat constructor).
  assert (Hrun : exists summary out,
             build_eval_datasets Z lcg_Random lcg_randbelow ramp_digest toy_loads
                                 small_cfg persona_listing []
             = (Returns summary, out)
             /\ ((fun entry => (sum_persona entry, sum_total entry, sum_eval entry,
                                sum_remaining entry)) <$> sum_personas summary)
                = [("brother", 3, 1, 2); ("sister", 2, 1, 1)]%nat)
    by (eexists _, _; split; [vm_compute; reflexivity | reflexivity]).
  destruct Hrun as (summary & out & Hrun & Hentries).
  destruct (build_eval_datasets_summary Z lcg_Random lcg_randbelow lcg_randbelow_lt
              ramp_digest toy_loads small_cfg persona_listing [] out summary Hascii Hrun)
    as (_ & _ & Htotals & Heval & Htrain).
  split; [exact Hascii|]. exists summary, out. split; [exact Hrun|].
  split; [exact Hentries|]. split; [exact Htotals|]. split; [exact Heval | exact Htrain].
Defined.

(** A run that reads one file and stops at a line of the next. *)
Lemma build_eval_datasets_failure_witness :
  Forall (fun file => Forall (fun line => Py.isascii line = true) file.2) broken_listing
  /\ exists out before file rest parts,
      build_eval_datasets Z lcg_Random lcg_randbelow ramp_digest strict_loads
                          small_cfg broken_listing []
      = (Raises JSONDecodeError, out)
      /\ length out = 2%nat
      /\ discover_persona_files broken_listing = before ++ file :: rest
      /\ out = [] ++ concat (zip_with (fun file => partition_writes small_cfg file.1)
                                      before parts)
      /\ persona_rows strict_loads file.2 = Raises JSONDecodeError.
Proof.
  assert (Hascii : Forall (fun file : string * list string =>
                             Forall (fun line => Py.isascii line = true) file.2)
                          broken_listing) by (repeat constructor).
  assert (Hrun : exists out,
             build_eval_datasets Z lcg_Random lcg_randbelow ramp_digest strict_loads
                                 small_cfg broken_listing []
             = (Raises JSONDecodeError, out) /\ length out = 2%nat)
    by (eexists; split; [vm_compute; reflexivity | reflexivity]).
  destruct Hrun as (out & Hrun & Hlen).
  destruct (build_eval_datasets_failure Z lcg_Random lcg_randbelow lcg_randbelow_lt
              ramp_digest strict_loads small_cfg broken_listing [] out JSONDecodeError
              Hascii Hrun (or_introl eq_refl))
    as (before & file & rest & parts & Hfiles & _ & Hout & [[_ Hrows] | [Hkind _]]);
    [|discriminate Hkind].
  split; [exact Hascii|]. exists out, before, file, rest, parts.
  split; [exact Hrun|]. split; [exact Hlen|]. split; [exact Hfiles|].
  split; [exact Hout | exact Hrows].
Defined.

(** Three messages of one day. *)
Lemma chunk_by_llm_calls_witness :
  well_timed fromisoformat_cleaned [ada_0900; ada_1345; festus_1400]
  /\ exists chunks calls,
      chunk_by_llm fromisoformat_cleaned (post_always PostRaises) test_endpoint test_model
                   [ada_0900; ada_1345; festus_1400] []
      = (Returns chunks, [] ++ calls)
      /\ (length calls <= length [ada_0900; ada_1345; festus_1400] - 1)%nat.
Proof.
  split; [exact cleaned_well_timed|].
  destruct (chunk_by_llm_calls fromisoformat_cleaned (post_always PostRaises)
              test_endpoint test_model [ada_0900; ada_1345; festus_1400] []
              cleaned_well_timed)
    as (chunks & calls & Hrun & Hlen & _).
  exists chunks, calls. split; [exact Hrun | exact Hlen].
Defined.

(** Four messages, five minutes from one to the next. *)
Lemma chunk_by_llm_close_messages_witness :
  within_minutes <> []
  /\ (forall i p c, within_minutes !! i = Some p -> within_minutes !! S i = Some c ->
                    close_in_time fromisoformat_cleaned p c)
  /\ chunk_by_llm fromisoformat_cleaned (post_always (ok_response "NO"))
                  test_endpoint test_model within_minutes []
     = (Returns [within_minutes], []).
Proof.
  assert (Hne : within_minutes <> []) by discriminate.
  assert (Hclose : forall i p c,
             within_minutes !! i = Some p -> within_minutes !! S i = Some c ->
             close_in_time fromisoformat_cleaned p c).
  { intros [|[|[|i]]] p c Hp Hc; simpl in Hp, Hc;
      try (destruct i; discriminate Hc);
      injection Hp as <-; injection Hc as <-;
      exists 300000000; split; reflexivity. }
  split; [exact Hne|]. split; [exact Hclose|].
  exact (chunk_by_llm_close_messages fromisoformat_cleaned (post_always (ok_response "NO"))
           test_endpoint test_model within_minutes [] Hne Hclose).
Defined.

(** An endpoint that is down, and three messages of one day. *)
Lemma chunk_by_llm_endpoint_down_witness :
  endpoint_down (post_always PostRaises)
  /\ well_timed fromisoformat_cleaned [ada_0900; ada_1345; festus_1400]
  /\ exists chunks w',
      chunk_by_llm fromisoformat_cleaned (post_always PostRaises) test_endpoint test_model
                   [ada_0900; ada_1345; festus_1400] []
      = (Returns chunks, w')
      /\ chunks = time_split fromisoformat_cleaned [ada_0900; ada_1345; festus_1400].
Proof.
  assert (Hdown : endpoint_down (post_always PostRaises)) by (intros w call; exact I).
  split; [exact Hdown|]. split; [exact cleaned_well_timed|].
  destruct (chunk_by_llm_endpoint_down fromisoformat_cleaned (post_always PostRaises)
              test_endpoint test_model [ada_0900; ada_1345; festus_1400] []
              Hdown cleaned_well_timed)
    as (chunks & w' & Hrun & Hsplit & _).
  exists chunks, w'. split; [exact Hrun | exact Hsplit].
Defined.

(** Two messages, the second with a timestamp that does not parse. *)
Lemma chunk_by_llm_bad_timestamp_witness :
  (2 <= length [ada_1345; garbled])%nat
  /\ (exists m, m ∈ [ada_1345; garbled] /\ fromisoformat_cleaned (timestamp m) = None)
  /\ exists e w',
      chunk_by_llm fromisoformat_cleaned (post_always PostRaises) test_endpoint test_model
                   [ada_1345; garbled] []
      = (Raises e, w').
Proof.
  assert (Hlen : (2 <= length [ada_1345; garbled])%nat) by (simpl; lia).
  assert (Hbad : exists m, m ∈ [ada_1345; garbled]
                           /\ fromisoformat_cleaned (timestamp m) = None).
  { exists garbled. split; [right; left | reflexivity]. }
  split; [exact Hlen|]. split; [exact Hbad|].
  exact (proj2 (chunk_by_llm_bad_timestamp fromisoformat_cleaned (post_always PostRaises)
                  test_endpoint test_model [ada_1345; garbled] []) Hlen Hbad).
Defined.

(** Two self-sent messages, a question and an answer. *)
Lemma chunk_to_chatml_turns_witness :
  exists record,
    chunk_to_chatml [festus_1355; festus_1400; ada_1405; festus_1410] "sister" = Some record
    /\ (forall i turn, rec_messages record !! i = Some turn ->
                       role turn = if Nat.even i then "user" else "assistant")
    /\ (2 <= length (rec_messages record) <= 4)%nat.
Proof.
  eexists. split; [reflexivity|].
  destruct (chunk_to_chatml_turns [festus_1355; festus_1400; ada_1405; festus_1410]
              "sister" _ eq_refl) as (Hroles & Hlen & _).
  split; [exact Hroles | exact Hlen].
Defined.

(** Five messages out of order, with an endpoint that says no; and two
    messages, the second with a timestamp that does not parse. *)
Lemma process_cleaned_file_writes_witness :
  let run := process_cleaned_file fromisoformat_cleaned (post_always (ok_response "NO"))
                                  test_endpoint test_model false "SISTER" in
  Py.isascii "SISTER" = true
  /\ (exists records st' calls,
        run afternoon (mk_proc_state [] []) = (Returns records, st')
        /\ length records = 1%nat
        /\ processed st' = [("sister.jsonl", records)]
        /\ endpoint st' = [] ++ calls
        /\ (length calls < length afternoon)%nat)
  /\ exists e w',
      run [ada_1345; garbled] (mk_proc_state [] [("sister.jsonl", [])])
      = (Raises e, mk_proc_state w' [("sister.jsonl", [])]).
Proof.
  intros run.
  destruct (process_cleaned_file_writes fromisoformat_cleaned
              (post_always (ok_response "NO")) test_endpoint test_model
              false "SISTER" afternoon (mk_proc_state [] []) eq_refl)
    as (_ & Hwrites & _).
  destruct (process_cleaned_file_writes fromisoformat_cleaned
              (post_always (ok_response "NO")) test_endpoint test_model
              false "SISTER" [ada_1345; garbled] (mk_proc_state [] [("sister.jsonl", [])])
              eq_refl)
    as (_ & _ & Hraises).
  split; [reflexivity|]. split.
  - assert (Hrun : exists records st',
               run afternoon (mk_proc_state [] []) = (Returns records, st')
               /\ length records = 1%nat)
      by (subst run; eexists _, _; split; [vm_compute; reflexivity | reflexivity]).
    destruct Hrun as (records & st' & Hrun & Hlen).
    destruct (Hwrites records st' Hrun ltac:(discriminate))
      as (Hfile & calls & Hcalls & Hfew & _).
    exists records, st', calls. split; [exact Hrun|]. split; [exact Hlen|].
    split; [exact Hfile|]. split; [exact Hcalls | exact Hfew].
  - assert (Hllm : exists e w',
               chunk_by_llm fromisoformat_cleaned (post_always (ok_response "NO"))
                            test_endpoint test_model
                            (Py.sort_by String.leb timestamp [ada_1345; garbled]) []
               = (Raises e, w'))
      by (subst run; eexists _, _; vm_compute; reflexivity).
    destruct Hllm as (e & w' & Hllm).
    exists e, w'. exact (Hraises e w' ltac:(discriminate) Hllm).
Defined.

(** The messages of two days: a record for each day. *)
Lemma process_cleaned_file_records_witness :
  Py.isascii "SISTER" = true
  /\ exists records st',
      process_cleaned_file fromisoformat_cleaned (post_always (ok_response "YES"))
                           test_endpoint test_model false "SISTER" two_days
                           (mk_proc_state [] [])
      = (Returns records, st')
      /\ length records = 2%nat
      /\ Forall (fun record => rec_persona record = "sister") records
      /\ StronglySorted
           (fun r1 r2 => String.leb (timestamp_end r1) (timestamp_start r2) = true) records
      /\ (2 * length records <= length two_days)%nat.
Proof.
  split; [reflexivity|].
  assert (Hrun : exists records st',
             process_cleaned_file fromisoformat_cleaned (post_always (ok_response "YES"))
                                  test_endpoint test_model false "SISTER" two_days
                                  (mk_proc_state [] [])
             = (Returns records, st') /\ length records = 2%nat)
    by (eexists _, _; split; [vm_compute; reflexivity | reflexivity]).
  destruct Hrun as (records & st' & Hrun & Hne).
  destruct (process_cleaned_file_records fromisoformat_cleaned
              (post_always (ok_response "YES")) test_endpoint test_model
              false "SISTER" two_days (mk_proc_state [] []) st' records eq_refl Hrun)
    as (Hall & Hsorted & Hlen & _).
  exists records, st'. split; [exact Hrun|]. split; [exact Hne|].
  split; [|split; [exact Hsorted | exact Hlen]].
  exact (Forall_impl _ _ _ Hall (fun record H => proj1 H)).
Defined.

(** The files of two personas; and the same with a file that holds a line
    without a record. *)
Lemma combine_personas_spec_witness :
  let readable (listing : list (string * list string)) :=
    Forall (fun file : string * list string =>
              Forall (fun line => Py.isascii line = true
                                  /\ (strict_loads_conv line = None
                                      -> strict_loads line = None))
                     file.2)
           listing in
  readable [brother_file; sister_file]
  /\ readable [brother_file; uncle_file; sister_file]
  /\ combine_personas strict_loads_conv [brother_file; sister_file] []
     = (Returns tt, [("conversations.jsonl", [brother_conv; sister_conv; sister_late])])
  /\ (exists out,
        [("conversations.jsonl", [brother_conv; sister_conv; sister_late])]
        = [] ++ [("conversations.jsonl", out)]
        /\ out ≡ₚ [brother_conv; sister_late; sister_conv])
  /\ combine_personas strict_loads_conv [brother_file; uncle_file; sister_file] []
     = (Raises JSONDecodeError, [])
  /\ mapM (file_records strict_loads_conv) [brother_file; uncle_file; sister_file].*2 = None.
Proof.
  intros readable.
  assert (Hok : readable [brother_file; sister_file]).
  { repeat first [ apply Forall_nil_2 | apply Forall_cons_2 | split | reflexivity
                 | intros _; reflexivity
                 | intros Hline; vm_compute in Hline; discriminate Hline ]. }
  assert (Hbad : readable [brother_file; uncle_file; sister_file]).
  { repeat first [ apply Forall_nil_2 | apply Forall_cons_2 | split | reflexivity
                 | intros _; reflexivity
                 | intros Hline; vm_compute in Hline; discriminate Hline ]. }
  assert (Hrun : combine_personas strict_loads_conv [brother_file; sister_file] []
                 = (Returns tt,
                    [("conversations.jsonl", [brother_conv; sister_conv; sister_late])]))
    by (vm_compute; reflexivity).
  assert (Hraise : combine_personas strict_loads_conv [brother_file; uncle_file; sister_file] []
                   = (Raises JSONDecodeError, []))
    by (vm_compute; reflexivity).
  destruct (combine_personas_spec strict_loads strict_loads_conv
              [brother_file; sister_file] [] Hok) as [Hreturns _].
  destruct (combine_personas_spec strict_loads strict_loads_conv
              [brother_file; uncle_file; sister_file] [] Hbad) as [_ Hraises].
  split; [exact Hok|]. split; [exact Hbad|]. split; [exact Hrun|]. split.
  - destruct (Hreturns _ Hrun) as (recordss & Hread & _ & Hsome).
    assert (Hrecs : recordss = [[brother_conv]; [sister_late; sister_conv]])
      by (vm_compute in Hread; injection Hread as Hread; symmetry; exact Hread).
    rewrite Hrecs in Hsome.
    destruct (Hsome ltac:(discriminate)) as (out & Hfiles & Hperm & _).
    exists out. split; [exact Hfiles | exact Hperm].
  - split; [exact Hraise | exact (proj1 (Hraises _ Hraise))].
Defined.

(** The same directory, after a first run. *)
Lemma combine_personas_rerun_witness :
  combine_personas toy_loads_conv ([brother_file] ++ [sister_file]) []
  = (Returns tt, [] ++ [("conversations.jsonl", [brother_conv; sister_conv; sister_late])])
  /\ exists out2,
      combine_personas toy_loads_conv
        ([brother_file]
           ++ ("conversations", conv_lines toy_dumps_conv [brother_conv; sister_conv; sister_late])
           :: [sister_file])
        [("conversations.jsonl", [brother_conv; sister_conv; sister_late])]
      = (Returns tt,
         [("conversations.jsonl", [brother_conv; sister_conv; sister_late])]
           ++ [("conversations.jsonl", out2)])
      /\ out2 ≡ₚ [brother_conv; sister_conv; sister_late]
                  ++ [brother_conv; sister_conv; sister_late].
Proof.
  assert (Hrun : combine_personas toy_loads_conv ([brother_file] ++ [sister_file]) []
                 = (Returns tt,
                    [] ++ [("conversations.jsonl", [brother_conv; sister_conv; sister_late])]))
    by (vm_compute; reflexivity).
  assert (Hload : forall conv, conv ∈ [brother_conv; sister_conv; sister_late] ->
                               toy_loads_conv (toy_dumps_conv conv +:+ Py.nl) = Some conv
                               /\ Py.strip (toy_dumps_conv conv +:+ Py.nl) <> "").
  { intros conv Hin. apply elem_of_cons in Hin as [-> | Hin];
      [|apply elem_of_cons in Hin as [-> | Hin];
        [|apply elem_of_cons in Hin as [-> | Hin]; [|by apply elem_of_nil in Hin]]];
      (split; [reflexivity | discriminate]). }
  split; [exact Hrun|].
  exact (combine_personas_rerun toy_loads_conv toy_dumps_conv [brother_file] [sister_file]
           [] [("conversations.jsonl", [brother_conv; sister_conv; sister_late])]
           [brother_conv; sister_conv; sister_late] Hrun Hload).
Defined.


(** Two self-sent messages, a question and an answer: the texts kept. *)
Lemma chunk_to_chatml_texts_witness :
  exists record lead first rest,
    chunk_to_chatml [festus_1355; festus_1400; ada_1405; festus_1410] "sister" = Some record
    /\ [festus_1355; festus_1400; ada_1405; festus_1410] = lead ++ first :: rest
    /\ Py.join Py.nl (content <$> rec_messages record)
       = Py.join Py.nl (message <$> first :: rest).
Proof.
  eexists.
  destruct (chunk_to_chatml_texts [festus_1355; festus_1400; ada_1405; festus_1410]
              "sister" _ eq_refl) as (lead & first & rest & Hchunk & _ & _ & Htexts).
  exists lead, first, rest. split; [reflexivity|]. split; [exact Hchunk | exact Htexts].
Defined.
